(** * Image tamper detection: an embedding of [src/utils/imageAnalysis.ts]

    The TypeScript module exports three functions,
    [performErrorLevelAnalysis], [detectCopyMove] and
    [calculateOverallConfidence], and has two private helpers,
    [areBlocksSimilar] and [calculateSimilarityConfidence].  They are
    embedded below as Rocq functions with the same names; the line numbers
    in the comments are those of the TypeScript file.

    Numbers.  Loop counters, pixel coordinates, 8-bit samples and the sums
    of absolute sample differences are integers far below 2^53, where the
    arithmetic of JavaScript numbers is exact: they are embedded in [Z].
    Quotients and confidences are embedded through the interface
    [JSNumber], which has two instances:
    - [exactNumber], the rationals [Q], in which the general bounds on
      confidences are proved (a division by zero, which would be NaN or an
      infinity in JavaScript, is never reached: see
      [elaCell_pixelCount_pos]; the other divisors are constants or are
      guarded by the code);
    - [binary64], the IEEE 754 double precision numbers of the kernel,
      which are the numbers a JavaScript engine computes with: the
      functions are evaluated in it on concrete inputs, and what depends
      on finitely many values is proved in it.
    What does not depend on the arithmetic is proved for every instance.

    Failure.  [None] stands for a JavaScript exception, for a rejected
    promise or for a write that would leave the allocated heatmap.  The
    block loops raise none (see [compareCanvases_invariant]);
    [performErrorLevelAnalysis] fails when the image decoder of line 26
    rejects or when [getImageData] throws at line 36.

    The browser.  What the canvases of lines 18-37 hold is not computed by
    the module: it is read through the record [Browser], over which every
    statement about [performErrorLevelAnalysis] is quantified. *)

From Stdlib Require Import String ZArith QArith Qminmax Qround Reals Psatz List.
From Stdlib Require Import Floats Uint63.
From stdpp Require Import base option list.

Set Warnings "-inexact-float".
Local Open Scope Z_scope.

(** ** JavaScript numbers *)

Class JSNumber (num : Type) := {
  ofZ : Z -> num;               (* an integer literal or integer value *)
  add : num -> num -> num;      (* a + b *)
  sub : num -> num -> num;      (* a - b *)
  mul : num -> num -> num;      (* a * b *)
  div : num -> num -> num;      (* a / b *)
  ltb : num -> num -> bool;     (* a < b *)
  jsmin : num -> num -> num;    (* Math.min(a, b) *)
  jsmax : num -> num -> num     (* Math.max(a, b) *)
}.

(** A decimal literal such as [0.7] is the number nearest to 7/10: in
    [binary64] the correctly rounded quotient of the two integers is that
    number (see [binary64_literals]). *)
Definition decimal {num} {arith : JSNumber num} (m k : Z) : num :=
  div (ofZ m) (ofZ k).

#[global] Instance exactNumber : JSNumber Q := {
  ofZ := inject_Z;
  add := Qplus;
  sub := Qminus;
  mul := Qmult;
  div := Qdiv;
  ltb := fun a b => match Qcompare a b with Lt => true | _ => false end;
  jsmin := Qmin;
  jsmax := Qmax
}.

Definition float_ofZ (z : Z) : float :=
  if z <? 0 then PrimFloat.opp (PrimFloat.of_uint63 (Uint63.of_Z (- z)))
  else PrimFloat.of_uint63 (Uint63.of_Z z).

Definition float_min (a b : float) : float :=
  if PrimFloat.is_nan a || PrimFloat.is_nan b then PrimFloat.nan
  else if PrimFloat.ltb a b then a else b.

Definition float_max (a b : float) : float :=
  if PrimFloat.is_nan a || PrimFloat.is_nan b then PrimFloat.nan
  else if PrimFloat.ltb a b then b else a.

Definition binary64 : JSNumber float := {|
  ofZ := float_ofZ;
  add := PrimFloat.add;
  sub := PrimFloat.sub;
  mul := PrimFloat.mul;
  div := PrimFloat.div;
  ltb := PrimFloat.ltb;
  jsmin := float_min;
  jsmax := float_max
|}.

(** ** Loops *)

(** The values taken by the variable of
    [for (let v = v0; cond(v); v += step)], whose body changes neither [v]
    nor what [cond] reads.  [fuel] bounds the number of iterations; by
    [forLoop_exhausted] and the lemmas of section [LoopsEnd] the fuel given
    at each use is enough, so that every loop below ends by its
    condition. *)
Fixpoint forLoop (fuel : nat) (cond : Z -> bool) (step v : Z) : list Z :=
  match fuel with
  | O => []
  | S fuel' => if cond v then v :: forLoop fuel' cond step (v + step) else []
  end.

(** A loop body that may throw: [None] is the exception. *)
Fixpoint foldM {S A : Type} (f : S -> A -> option S) (l : list A) (s : S)
  : option S :=
  match l with
  | [] => Some s
  | a :: l' => match f s a with
               | Some s' => foldM f l' s'
               | None => None
               end
  end.

(** ** Data model *)

Record Region (num : Type) := mkRegion {
  x : Z;
  y : Z;
  width : Z;
  height : Z;
  confidence : num
}.
Arguments mkRegion {num}.
Arguments x {num}.
Arguments y {num}.
Arguments width {num}.
Arguments height {num}.
Arguments confidence {num}.

(** The DOM's [ImageData]: [data] is a [Uint8ClampedArray] of RGBA samples,
    row-major. *)
Record ImageData := mkImageData {
  imgWidth : Z;
  imgHeight : Z;
  data : list Z
}.

(** [array[i]] on a typed array of samples.  Outside the array JavaScript
    yields [undefined]; every use below reads inside the array when the
    array holds [width * height * 4] samples, as the arrays of an
    [ImageData] always do (see [ela_reads_in_range] and
    [copyMove_reads_in_range]); storing [undefined] in the
    [Uint8ClampedArray] of a block stores 0, which is the default here. *)
Definition sample (array : list Z) (i : Z) : Z :=
  default 0 (array !! Z.to_nat i).

(** [|o[idx] - c[idx]| + |o[idx+1] - c[idx+1]| + |o[idx+2] - c[idx+2]|]:
    the sum of the absolute differences of the red, green and blue samples
    of the pixel at [idx]. *)
Definition rgbDiff (a b : list Z) (idx : Z) : Z :=
  Z.abs (sample a idx - sample b idx) +
  Z.abs (sample a (idx + 1) - sample b (idx + 1)) +
  Z.abs (sample a (idx + 2) - sample b (idx + 2)).

(** The mean of the regions' confidences, as lines 140 and 193 compute it. *)
Section Mean.
Context {num : Type} {arith : JSNumber num}.

(** [regions.reduce((sum, r) => sum + r.confidence, 0)] *)
Definition sumConfidence (regions : list (Region num)) : num :=
  fold_left (fun sum r => add sum (confidence r)) regions (ofZ 0).

(** [regions.reduce(...) / regions.length] *)
Definition meanConfidence (regions : list (Region num)) : num :=
  div (sumConfidence regions) (ofZ (Z.of_nat (length regions))).
End Mean.

(** ** The canvases of performErrorLevelAnalysis (lines 18-37) *)

(** What [performErrorLevelAnalysis] asks of the browser.
    - [putImageData browser imageData] is the content of [canvas] after
      lines 18-22, as [getImageData] reads it: a canvas of the image's
      dimensions onto which [imageData] was put.  A canvas keeps
      premultiplied colours, so the samples of a pixel that is not opaque
      may come back changed.
    - [drawCompressedImage browser imageData quality] is the content of
      [compressedCanvas] after lines 25-33: [canvas] is encoded by
      [toDataURL('image/jpeg', quality)], decoded by
      [createImageFromDataUrl] (lines 174-181) and drawn.  It is [None]
      when the decoder fires [onerror]: the promise of line 26 is then
      rejected, and with it the promise of [performErrorLevelAnalysis]. *)
Record Browser := mkBrowser {
  putImageData : ImageData -> list Z;
  drawCompressedImage : ImageData -> Q -> option (list Z)
}.

(** [ctx.getImageData(0, 0, sw, sh).data] on a canvas whose content is
    [samples] (lines 36 and 37).  [None] is the IndexSizeError that the
    call throws when [sw] or [sh] is zero. *)
Definition getImageData (samples : list Z) (sw sh : Z) : option (list Z) :=
  if (sw =? 0) || (sh =? 0) then None else Some samples.

(** ** performErrorLevelAnalysis (lines 14-79) *)

Record ElaResult (num : Type) := mkElaResult {
  elaRegions : list (Region num);
  heatmap : list (list num)
}.
Arguments mkElaResult {num}.
Arguments elaRegions {num}.
Arguments heatmap {num}.

Module ELA.
(** [const blockSize = 16] (line 39). *)
Definition blockSize : Z := 16.

Section Analysis.
Context {num : Type} {arith : JSNumber num}.

(** Lines 41-43: [Math.ceil(canvas.height / blockSize)] rows, each a
    fresh array of [Math.ceil(canvas.width / blockSize)] zeros. *)
Definition newHeatmap (canvasWidth canvasHeight : Z) : list (list num) :=
  replicate
    (Z.to_nat (Qceiling (inject_Z canvasHeight / inject_Z blockSize)))
    (replicate
       (Z.to_nat (Qceiling (inject_Z canvasWidth / inject_Z blockSize)))
       (ofZ 0)).

(** [heatmap[r][c] = v] (line 64).  [None] when the cell is not one of
    the allocated grid: JavaScript would throw a TypeError for a missing
    row and would grow the row for a missing column. *)
Definition heatmapSet (heatmap : list (list num)) (r c : Z) (v : num)
  : option (list (list num)) :=
  match heatmap !! Z.to_nat r with
  | Some row =>
      if bool_decide (0 <= r /\ 0 <= c /\ (Z.to_nat c < length row)%nat)
      then Some (<[Z.to_nat r := <[Z.to_nat c := v]> row]> heatmap)
      else None
  | None => None
  end.

(** Lines 47-59: [diffSum] and [pixelCount] of the cell at [(x, y)]. *)
Definition elaCell (canvasWidth canvasHeight : Z)
    (originalData compressedData : list Z) (x y : Z) : Z * Z :=
  fold_left
    (fun acc by_ =>
       fold_left
         (fun '(diffSum, pixelCount) bx =>
            let idx := ((y + by_) * canvasWidth + (x + bx)) * 4 in
            let diff := rgbDiff originalData compressedData idx in
            (diffSum + diff, pixelCount + 1))
         (forLoop (Z.to_nat blockSize)
            (fun bx => (bx <? blockSize) && (x + bx <? canvasWidth)) 1 0)
         acc)
    (forLoop (Z.to_nat blockSize)
       (fun by_ => (by_ <? blockSize) && (y + by_ <? canvasHeight)) 1 0)
    (0, 0).

(** Lines 61-62. *)
Definition normalizedDiff (diffSum pixelCount : Z) : num :=
  let avgDiff := div (ofZ diffSum) (ofZ (pixelCount * 3)) in
  jsmin (div avgDiff (ofZ 30)) (ofZ 1).

(** Lines 47-74: the body of the loop over [x].  The quotients by
[blockSize = 16] under [Math.floor] are exact in binary64. *)
Definition elaStep (canvasWidth canvasHeight : Z)
    (originalData compressedData : list Z) (y : Z)
    (st : list (Region num) * list (list num)) (x : Z)
  : option (list (Region num) * list (list num)) :=
  let '(regions, heatmap) := st in
  let '(diffSum, pixelCount) :=
    elaCell canvasWidth canvasHeight originalData compressedData x y in
  let normalizedDiff := normalizedDiff diffSum pixelCount in
  match heatmapSet heatmap
          (Qfloor (inject_Z y / inject_Z blockSize))
          (Qfloor (inject_Z x / inject_Z blockSize)) normalizedDiff with
  | Some heatmap =>
      if ltb (decimal 3 10) normalizedDiff
      then Some (regions ++
                   [mkRegion x y blockSize blockSize normalizedDiff],
                 heatmap)
      else Some (regions, heatmap)
  | None => None
  end.

(** Lines 39-78, on the samples read back from the two canvases. *)
Definition compareCanvases (canvasWidth canvasHeight : Z)
    (originalData compressedData : list Z) : option (ElaResult num) :=
  match
    foldM
      (fun st y =>
         foldM
           (elaStep canvasWidth canvasHeight originalData compressedData y)
           (forLoop (Z.to_nat canvasWidth)
              (fun x => x <? canvasWidth) blockSize 0)
           st)
      (forLoop (Z.to_nat canvasHeight)
         (fun y => y <? canvasHeight) blockSize 0)
      ([], newHeatmap canvasWidth canvasHeight)
  with
  | Some (regions, heatmap) => Some (mkElaResult regions heatmap)
  | None => None
  end.

(** Lines 14-79.  [None] when the promise of line 26 is rejected or
    when [getImageData] throws at line 36 or 37; the comparison of lines
    39-78 then runs on the samples read back from the two canvases. *)
Definition performErrorLevelAnalysis (browser : Browser)
    (imageData : ImageData) (quality : Q) : option (ElaResult num) :=
  let canvas := putImageData browser imageData in
  match drawCompressedImage browser imageData quality with
  | Some compressedCanvas =>
      match getImageData canvas (imgWidth imageData)
              (imgHeight imageData) with
      | Some originalData =>
          match getImageData compressedCanvas (imgWidth imageData)
                  (imgHeight imageData) with
          | Some compressedData =>
              compareCanvases (imgWidth imageData) (imgHeight imageData)
                originalData compressedData
          | None => None
          end
      | None => None
      end
  | None => None
  end.
End Analysis.
End ELA.

(** ** detectCopyMove (lines 81-172) *)

Record Block := mkBlock {
  blockData : list Z;
  blockX : Z;
  blockY : Z
}.

Record CopyMoveResult (num : Type) := mkCopyMoveResult {
  cmRegions : list (Region num);
  cmConfidence : num
}.
Arguments mkCopyMoveResult {num}.
Arguments cmRegions {num}.
Arguments cmConfidence {num}.

Module CopyMove.
(** [const blockSize = 32] and [const threshold = 5] (lines 84-85). *)
Definition blockSize : Z := 32.
Definition threshold : Z := 5.

(** Lines 92-103: the [Uint8ClampedArray] of one block, filled through
    the running index [idx]. *)
Definition extractBlockData (imageData : ImageData) (x y : Z) : list Z :=
  fst
    (fold_left
       (fun st by_ =>
          fold_left
            (fun '(blockData, idx) bx =>
               let sourceIdx :=
                 ((y + by_) * imgWidth imageData + (x + bx)) * 4 in
               let blockData :=
                 <[Z.to_nat idx := sample (data imageData) sourceIdx]>
                   blockData in
               let idx := idx + 1 in
               let blockData :=
                 <[Z.to_nat idx := sample (data imageData) (sourceIdx + 1)]>
                   blockData in
               let idx := idx + 1 in
               let blockData :=
                 <[Z.to_nat idx := sample (data imageData) (sourceIdx + 2)]>
                   blockData in
               let idx := idx + 1 in
               let blockData :=
                 <[Z.to_nat idx := sample (data imageData) (sourceIdx + 3)]>
                   blockData in
               let idx := idx + 1 in
               (blockData, idx))
            (forLoop (Z.to_nat blockSize) (fun bx => bx <? blockSize) 1 0)
            st)
       (forLoop (Z.to_nat blockSize) (fun by_ => by_ <? blockSize) 1 0)
       (replicate (Z.to_nat (blockSize * blockSize * 4)) 0, 0)).

(** Lines 90-107. *)
Definition extractBlocks (imageData : ImageData) : list Block :=
  fold_left
    (fun blocks y =>
       fold_left
         (fun blocks x =>
            blocks ++ [mkBlock (extractBlockData imageData x y) x y])
         (forLoop (Z.to_nat (imgWidth imageData))
            (fun x => x <? imgWidth imageData - blockSize) blockSize 0)
         blocks)
    (forLoop (Z.to_nat (imgHeight imageData))
       (fun y => y <? imgHeight imageData - blockSize) blockSize 0)
    [].

(** The loop of lines 152-156 and 165-169. *)
Definition blockDiffSum (block1 block2 : list Z) : Z :=
  fold_left
    (fun diffSum i => diffSum + rgbDiff block1 block2 i)
    (forLoop (length block1) (fun i => i <? Z.of_nat (length block1)) 4 0)
    0.

(** [Math.pow(bi.x - bj.x, 2) + Math.pow(bi.y - bj.y, 2)] (lines 114-115). *)
Definition squaredDistance (bi bj : Block) : Z :=
  (blockX bi - blockX bj) ^ 2 + (blockY bi - blockY bj) ^ 2.

(** [Math.sqrt(n) > limit] for an integer [n >= 0] and an integer
    [limit], decided on the squares (see [sqrtExceeds_sqrt]). *)
Definition sqrtExceeds (n limit : Z) : bool :=
  (limit <? 0) || (limit * limit <? n).

(** The index pairs [(i, j)] for which line 112 runs, in order. *)
Definition blockPairs (n : nat) : list (Z * Z) :=
  flat_map
    (fun i => map (fun j => (i, j))
                (forLoop n (fun j => j <? Z.of_nat n) 1 (i + 1)))
    (forLoop n (fun i => i <? Z.of_nat n) 1 0).

Section Detection.
Context {num : Type} {arith : JSNumber num}.

(** Lines 146-158. *)
Definition areBlocksSimilar (block1 block2 : list Z) (threshold : num)
  : bool :=
  let diffSum := blockDiffSum block1 block2 in
  ltb (div (ofZ diffSum)
           (div (ofZ (Z.of_nat (length block1))) (ofZ 4)))
      threshold.

(** Lines 160-172. *)
Definition calculateSimilarityConfidence (block1 block2 : list Z) : num :=
  let diffSum := blockDiffSum block1 block2 in
  let avgDiff :=
    div (ofZ diffSum) (div (ofZ (Z.of_nat (length block1))) (ofZ 4)) in
  jsmax (ofZ 0) (sub (ofZ 1) (div avgDiff (ofZ 255))).

(** Lines 112-135: the body of the loop over [j].  [None] when
    [blocks[i]] or [blocks[j]] is missing (a TypeError in JavaScript). *)
Definition compareStep (blocks : list Block) (i : Z)
    (regions : list (Region num)) (j : Z) : option (list (Region num)) :=
  match blocks !! Z.to_nat i, blocks !! Z.to_nat j with
  | Some bi, Some bj =>
      if areBlocksSimilar (blockData bi) (blockData bj) (ofZ threshold)
      then
        if sqrtExceeds (squaredDistance bi bj) (blockSize * 2)
        then
          let confidence :=
            calculateSimilarityConfidence (blockData bi) (blockData bj) in
          Some (regions ++
                  [mkRegion (blockX bi) (blockY bi) blockSize blockSize
                     confidence;
                   mkRegion (blockX bj) (blockY bj) blockSize blockSize
                     confidence])
        else Some regions
      else Some regions
  | _, _ => None
  end.

(** Lines 110-137. *)
Definition compareBlocks (blocks : list Block)
  : option (list (Region num)) :=
  foldM
    (fun regions i =>
       foldM (compareStep blocks i)
         (forLoop (length blocks)
            (fun j => j <? Z.of_nat (length blocks)) 1 (i + 1))
         regions)
    (forLoop (length blocks)
       (fun i => i <? Z.of_nat (length blocks)) 1 0)
    [].

(** Lines 81-144. *)
Definition detectCopyMove (imageData : ImageData)
  : option (CopyMoveResult num) :=
  let blocks := extractBlocks imageData in
  match compareBlocks blocks with
  | Some regions =>
      let overallConfidence :=
        if 0 <? Z.of_nat (length regions)
        then meanConfidence regions
        else ofZ 0 in
      Some (mkCopyMoveResult regions overallConfidence)
  | None => None
  end.
End Detection.

(** The origins that the specification's words describe: every [(x, y)]
    of the regular grid whose block fits, [x + blockSize <= width] and
    [y + blockSize <= height]. *)
Definition fittingOrigins (width height : Z) : list (Z * Z) :=
  flat_map
    (fun y => map (fun x => (x, y))
                (forLoop (Z.to_nat width)
                   (fun x => x + blockSize <=? width) blockSize 0))
    (forLoop (Z.to_nat height)
       (fun y => y + blockSize <=? height) blockSize 0).
End CopyMove.

(** ** calculateOverallConfidence (lines 183-213) *)

(** The object passed as [metadata]: [exifData] is read for its truthiness
    only, [warnings] for its length. *)
Record MetadataCues := mkMetadata {
  exifData : bool;
  warnings : list string
}.

Section Aggregator.
Context {num : Type} {arith : JSNumber num}.

(** Lines 205-207: the metadata factor. *)
Definition metadataFactor (metadata : MetadataCues) : num :=
  let metadataConfidence := ofZ 1 in
  let metadataConfidence :=
    if negb (exifData metadata)
    then mul metadataConfidence (decimal 7 10)
    else metadataConfidence in
  let metadataConfidence :=
    if 0 <? Z.of_nat (length (warnings metadata))
    then mul metadataConfidence
           (sub (ofZ 1)
                (mul (ofZ (Z.of_nat (length (warnings metadata))))
                     (decimal 1 10)))
    else metadataConfidence in
  metadataConfidence.

(** The variables [confidence] and [factors] when line 212 is reached.
    [elaRegions] is [elaResults.regions], [copyMoveConfidence] is
    [copyMoveResults.confidence], and [metadata] is [None] for a falsy
    argument. *)
Definition confidenceFactors (elaRegions : list (Region num))
    (copyMoveConfidence : num) (metadata : option MetadataCues)
  : num * Z :=
  let confidence := ofZ 0 in
  let factors := 0 in
  let '(confidence, factors) :=
    if 0 <? Z.of_nat (length elaRegions)
    then (add confidence (meanConfidence elaRegions), factors + 1)
    else (confidence, factors) in
  let '(confidence, factors) :=
    if ltb (ofZ 0) copyMoveConfidence
    then (add confidence copyMoveConfidence, factors + 1)
    else (confidence, factors) in
  let '(confidence, factors) :=
    match metadata with
    | Some metadata =>
        (add confidence (metadataFactor metadata), factors + 1)
    | None => (confidence, factors)
    end in
  (confidence, factors).

Definition calculateOverallConfidence (elaRegions : list (Region num))
    (copyMoveConfidence : num) (metadata : option MetadataCues) : num :=
  let '(confidence, factors) :=
    confidenceFactors elaRegions copyMoveConfidence metadata in
  if 0 <? factors
  then mul (div confidence (ofZ factors)) (ofZ 100)
  else ofZ 0.
End Aggregator.

(** ** Predicates used in the statements *)

(** [heatmap] is a grid of [rows] rows of [cols] cells. *)
Definition gridDims {A : Type} (heatmap : list (list A)) (rows cols : nat)
  : Prop :=
  length heatmap = rows /\ Forall (fun row => length row = cols) heatmap.

(** [r] is the ceiling of [a / b], for [b > 0]. *)
Definition isCeilDiv (a b r : Z) : Prop := b * (r - 1) < a <= b * r.

(** What lines 45-46 and 66-74 give every region that
    [performErrorLevelAnalysis] emits for an image of the given
    dimensions: the origin is a pixel of the image on the grid of step
    [blockSize], both sides are [blockSize], and the confidence exceeds
    the threshold 0.3 and is at most 1. *)
Definition elaRegionOk (imageWidth imageHeight : Z) (r : Region Q) : Prop :=
  (0 <= x r < imageWidth)%Z /\ (x r mod ELA.blockSize = 0)%Z /\
  (0 <= y r < imageHeight)%Z /\ (y r mod ELA.blockSize = 0)%Z /\
  width r = ELA.blockSize /\ height r = ELA.blockSize /\
  (3 # 10 < confidence r)%Q /\ (confidence r <= 1)%Q.

(** The region lies within the image and its confidence within [0, 1]. *)
Definition regionInBounds (imageWidth imageHeight : Z) (r : Region Q)
  : Prop :=
  (0 <= x r)%Z /\ (0 <= y r)%Z /\
  (x r + width r <= imageWidth)%Z /\ (y r + height r <= imageHeight)%Z /\
  (0 <= confidence r)%Q /\ (confidence r <= 1)%Q.

(** The top-left corner of a block. *)
Definition blockOrigin (b : Block) : Z * Z := (blockX b, blockY b).

(** ** Inputs used in examples *)

(** A [width] by [height] image whose every pixel is [(r, g, b, a)]. *)
Definition uniformImage (width height r g b a : Z) : ImageData :=
  mkImageData width height
    (concat (replicate (Z.to_nat (width * height)) [r; g; b; a])).

(** A round trip that changes nothing. *)
Definition identityRoundTrip : ImageData -> Q -> list Z :=
  fun imageData _ => data imageData.

(** A round trip that raises every sample by [delta], clamped at 255. *)
Definition brighterRoundTrip (delta : Z) : ImageData -> Q -> list Z :=
  fun imageData _ => map (fun v => Z.min 255 (v + delta)) (data imageData).

(** A browser whose canvas returns the samples put on it, as canvases do
    for opaque pixels, and whose JPEG round trip is [roundTrip]. *)
Definition opaqueBrowser (roundTrip : ImageData -> Q -> list Z) : Browser :=
  mkBrowser data (fun imageData quality => Some (roundTrip imageData quality)).

(** A browser whose decoder rejects every data URL. *)
Definition failingDecoder : Browser := mkBrowser data (fun _ _ => None).

(** A browser that reads the four samples [original] from [canvas] and
    [compressed] from [compressedCanvas]. *)
Definition onePixelBrowser (original compressed : list Z) : Browser :=
  mkBrowser (fun _ => original) (fun _ _ => Some compressed).

(** The default [quality = 0.95] of line 16. *)
Definition defaultQuality : Q := 95 # 100.

(** A 17 by 1 grey image: its second ELA cell holds a single pixel. *)
Definition narrowImage : ImageData := uniformImage 17 1 100 100 100 255.

(** A 64 by 64 image of a single colour. *)
Definition squareImage : ImageData := uniformImage 64 64 200 30 30 255.

(** An image without pixels. *)
Definition emptyImage : ImageData := mkImageData 0 0 [].

(** A 129 by 33 image: four blocks in one row, at [x = 0, 32, 64, 96]. *)
Definition wideImage (r g b a : Z) : ImageData := uniformImage 129 33 r g b a.

(** Three warnings, and eleven. *)
Definition threeWarnings : list string := ["w1"; "w2"; "w3"]%string.
Definition elevenWarnings : list string := replicate 11 "w"%string.

(** ** ImageAnalysisResult.tsx: getConfidenceColor *)

(** The class of the "% Tampered" figure: green below 30, yellow below 70,
    red otherwise. *)
Definition getConfidenceColor {num} {arith : JSNumber num} (confidence : num)
  : string :=
  if ltb confidence (ofZ 30) then "text-green-500"%string
  else if ltb confidence (ofZ 70) then "text-yellow-500"%string
  else "text-red-500"%string.

(** ** App.tsx: analyzeImage (lines 54-137) *)

(** The fields of the object returned by [exifr.parse] that [analyzeImage]
    reads.  A date field is [None] when it is missing (falsy) and
    otherwise holds [new Date(field).getTime()], itself [None] for an
    invalid date (NaN); [Make] is read for its truthiness only;
    [ImageWidth] and [ImageHeight] are numbers when present. *)
Record ExifData := mkExifData {
  ModifyDate : option (option Z);
  CreateDate : option (option Z);
  Make : bool;
  ImageWidth : option Z;
  ImageHeight : option Z
}.

(** The truthiness of an optional number: [undefined] and 0 are falsy. *)
Definition truthyNumber (v : option Z) : bool :=
  match v with
  | Some n => negb (n =? 0)
  | None => false
  end.

(** [value !== n] for an optional number [value]. *)
Definition differsFrom (v : option Z) (n : Z) : bool :=
  match v with
  | Some m => negb (m =? n)
  | None => true
  end.

Definition noExifWarning : string :=
  "No EXIF metadata found - this could indicate the image has been edited".
Definition timestampWarning : string :=
  "Modification date is earlier than creation date - possible timestamp manipulation".
Definition formatWarning : string :=
  "Non-JPEG image contains camera EXIF data - possible format conversion".
Definition dimensionsWarning : string :=
  "Image dimensions do not match EXIF data - possible resizing or cropping".
Definition errorWarning : string := "Error analyzing image metadata".

(** Lines 86-108: the warnings pushed after the two detections.
    [fileType] is [file.type]; [imgWidth] and [imgHeight] are [img.width]
    and [img.height]; [exifData] is [None] for a falsy result of
    [exifr.parse]. *)
Definition metadataWarnings (fileType : string) (imgWidth imgHeight : Z)
    (exifData : option ExifData) : list string :=
  let warnings := [] in
  let warnings :=
    match exifData with
    | None => warnings ++ [noExifWarning]
    | Some _ => warnings
    end in
  let warnings :=
    match exifData with
    | Some exif =>
        match ModifyDate exif, CreateDate exif with
        | Some modifyTime, Some createTime =>
            match modifyTime, createTime with
            | Some modifyTime, Some createTime =>
                if modifyTime <? createTime
                then warnings ++ [timestampWarning]
                else warnings
            | _, _ => warnings
            end
        | _, _ => warnings
        end
    | None => warnings
    end in
  let warnings :=
    match exifData with
    | Some exif =>
        if negb (String.eqb fileType "image/jpeg") && Make exif
        then warnings ++ [formatWarning]
        else warnings
    | None => warnings
    end in
  let warnings :=
    match exifData with
    | Some exif =>
        if truthyNumber (ImageWidth exif) && truthyNumber (ImageHeight exif)
        then
          if differsFrom (ImageWidth exif) imgWidth
             || differsFrom (ImageHeight exif) imgHeight
          then warnings ++ [dimensionsWarning]
          else warnings
        else warnings
    | None => warnings
    end in
  warnings.

(** The fields [warnings], [regions] and [confidence] of the
    [ImageAnalysis] that [analyzeImage] returns; its other fields repeat
    the file's name, size and type, the image's dimensions and
    [exifData]. *)
Record ImageAnalysis (num : Type) := mkImageAnalysis {
  analysisWarnings : list string;
  analysisRegions : list (Region num);
  analysisConfidence : num
}.
Arguments mkImageAnalysis {num}.
Arguments analysisWarnings {num}.
Arguments analysisRegions {num}.
Arguments analysisConfidence {num}.

(** [analyzeImage] once the image is decoded and drawn, [imageData] is
    read back from the canvas and [exifr.parse] has returned [exifData].
    A detection that fails, as [performErrorLevelAnalysis] does when its
    decoder rejects, is caught at line 126: nothing has been pushed to
    [warnings] by then. *)
Definition analyzeImage {num} {arith : JSNumber num}
    (browser : Browser) (fileType : string)
    (imageData : ImageData) (exifData : option ExifData)
  : ImageAnalysis num :=
  let regions := [] in
  match ELA.performErrorLevelAnalysis browser imageData defaultQuality with
  | Some elaResults =>
      let regions := regions ++ elaRegions elaResults in
      match CopyMove.detectCopyMove imageData with
      | Some copyMoveResults =>
          let regions := regions ++ cmRegions copyMoveResults in
          let warnings :=
            metadataWarnings fileType (imgWidth imageData)
              (imgHeight imageData) exifData in
          let confidence :=
            calculateOverallConfidence (elaRegions elaResults)
              (cmConfidence copyMoveResults)
              (Some (mkMetadata (bool_decide (is_Some exifData)) warnings)) in
          mkImageAnalysis warnings regions confidence
      | None => mkImageAnalysis [errorWarning] [] (ofZ 0)
      end
  | None => mkImageAnalysis [errorWarning] [] (ofZ 0)
  end.

(** ** Definitions used in the further statements *)

(** The two regions that lines 119-133 push for a qualifying pair. *)
Definition pairRegions {num} {arith : JSNumber num} (pair : Block * Block)
  : list (Region num) :=
  let '(bi, bj) := pair in
  let confidence :=
    CopyMove.calculateSimilarityConfidence (blockData bi) (blockData bj) in
  [mkRegion (blockX bi) (blockY bi) CopyMove.blockSize CopyMove.blockSize
     confidence;
   mkRegion (blockX bj) (blockY bj) CopyMove.blockSize CopyMove.blockSize
     confidence].

(** Lines 97-101 of [detectCopyMove]: the body of the loop over [bx] for
    the block at [(x, y)] and its row [by_]. *)
Definition copyPixel (imageData : ImageData) (x y by_ : Z)
  : list Z * Z -> Z -> list Z * Z :=
  fun '(blockData, idx) bx =>
    let sourceIdx := ((y + by_) * imgWidth imageData + (x + bx)) * 4 in
    let blockData :=
      <[Z.to_nat idx := sample (data imageData) sourceIdx]> blockData in
    let idx := idx + 1 in
    let blockData :=
      <[Z.to_nat idx := sample (data imageData) (sourceIdx + 1)]>
        blockData in
    let idx := idx + 1 in
    let blockData :=
      <[Z.to_nat idx := sample (data imageData) (sourceIdx + 2)]>
        blockData in
    let idx := idx + 1 in
    let blockData :=
      <[Z.to_nat idx := sample (data imageData) (sourceIdx + 3)]>
        blockData in
    let idx := idx + 1 in
    (blockData, idx).

(** The sample of the image for channel [c] of the pixel [(bx, by_)] of
    the block at [(x, y)]. *)
Definition blockSource (imageData : ImageData) (x y by_ bx c : Z) : Z :=
  sample (data imageData)
    (((y + by_) * imgWidth imageData + (x + bx)) * 4 + c).

(** The cells [(x, y)] that the loops of lines 45-46 visit, in order. *)
Definition elaCells (canvasWidth canvasHeight : Z) : list (Z * Z) :=
  flat_map
    (fun y => map (fun x => (x, y))
                (forLoop (Z.to_nat canvasWidth)
                   (fun x => x <? canvasWidth) ELA.blockSize 0))
    (forLoop (Z.to_nat canvasHeight)
       (fun y => y <? canvasHeight) ELA.blockSize 0).

(** [normalizedDiff] of the cell at [(x, y)], as lines 47-62 compute it. *)
Definition cellValue {num} {arith : JSNumber num}
    (canvasWidth canvasHeight : Z) (originalData compressedData : list Z)
    (cell : Z * Z) : num :=
  ELA.normalizedDiff
    (fst (ELA.elaCell canvasWidth canvasHeight originalData compressedData
            (fst cell) (snd cell)))
    (snd (ELA.elaCell canvasWidth canvasHeight originalData compressedData
            (fst cell) (snd cell))).

(** What lines 66-74 push for the cell at [(x, y)]. *)
Definition cellRegions {num} {arith : JSNumber num}
    (canvasWidth canvasHeight : Z) (originalData compressedData : list Z)
    (cell : Z * Z) : list (Region num) :=
  let v :=
    cellValue canvasWidth canvasHeight originalData compressedData cell in
  if ltb (decimal 3 10) v
  then [mkRegion (fst cell) (snd cell) ELA.blockSize ELA.blockSize v]
  else [].

(** [heatmap[r][c]], [None] outside the grid. *)
Definition heatmapCell {A : Type} (heatmap : list (list A)) (r c : Z)
  : option A :=
  match heatmap !! Z.to_nat r with
  | Some row => row !! Z.to_nat c
  | None => None
  end.

(** The samples of two arrays agree outside the alpha channel. *)
Definition sameColours (a b : list Z) : Prop :=
  forall i, (0 <= i)%Z -> (i mod 4 <> 3)%Z -> sample a i = sample b i.

(** ** Tactics *)

(** Unfolds the operations of [exactNumber] to those of [Q]. *)
Ltac exact_ops :=
  cbn [ofZ add sub mul div ltb jsmin jsmax decimal exactNumber] in *.

(** [lia] with the quotients by a constant turned into their equations. *)
Ltac lia_div := Z.div_mod_to_equations; lia.

(** ** Loops: the values of the loop variable *)

Section Loops.
Local Open Scope Z_scope.

Lemma forLoop_elem (fuel : nat) (cond : Z -> bool) (step v0 v : Z) :
  v ∈ forLoop fuel cond step v0 ->
  cond v = true /\ exists k : nat, v = v0 + step * Z.of_nat k.
Proof.
  revert v0. induction fuel as [|fuel IH]; intros v0 Hin; cbn in Hin.
  - inversion Hin.
  - destruct (cond v0) eqn:Hc; [|inversion Hin].
    apply elem_of_cons in Hin as [->|Hin].
    + split; [exact Hc|]. exists 0%nat. lia.
    + apply IH in Hin as [Hv [k ->]]. split; [exact Hv|].
      exists (S k). lia.
Qed.

(** Enough fuel: the loop stops because its condition fails at the value
    that follows the last one, not because the fuel ran out. *)
Lemma forLoop_exhausted (fuel : nat) (cond : Z -> bool) (step v0 limit : Z) :
  0 < step ->
  (forall v, cond v = true -> v < limit) ->
  limit - v0 <= Z.of_nat fuel ->
  cond (v0 + step * Z.of_nat (length (forLoop fuel cond step v0))) = false.
Proof.
  intros Hstep Hlim. revert v0.
  induction fuel as [|fuel IH]; intros v0 Hfuel; cbn [forLoop].
  - cbn [length]. destruct (cond (v0 + step * Z.of_nat 0)) eqn:Hc; [|done].
    apply Hlim in Hc. lia.
  - destruct (cond v0) eqn:Hc.
    + cbn [length]. specialize (IH (v0 + step)).
      set (rest := forLoop fuel cond step (v0 + step)) in *.
      replace (v0 + step * Z.of_nat (S (length rest)))
        with (v0 + step + step * Z.of_nat (length rest)) by lia.
      apply IH. lia.
    + cbn [length]. replace (v0 + step * Z.of_nat 0) with v0 by lia. exact Hc.
Qed.

(** With enough fuel the loop visits exactly the values
    [v0, v0 + step, ...] at which its condition, a strict upper bound,
    holds. *)
Lemma forLoop_lt_elem (fuel : nat) (cond : Z -> bool) (step v0 limit v : Z) :
  0 < step ->
  (forall u, cond u = true <-> u < limit) ->
  limit - v0 <= Z.of_nat fuel ->
  v ∈ forLoop fuel cond step v0 <->
  v < limit /\ exists k : nat, v = v0 + step * Z.of_nat k.
Proof.
  intros Hstep Hc. revert v0.
  induction fuel as [|fuel IH]; intros v0 Hfuel; cbn [forLoop].
  - split; [intros Hin; inversion Hin|]. intros [Hv [k ->]]. nia.
  - destruct (cond v0) eqn:Hc0.
    + rewrite elem_of_cons, IH by lia. split.
      * intros [->|[Hv [k ->]]].
        -- split; [apply Hc; exact Hc0 | exists 0%nat; lia].
        -- split; [exact Hv | exists (S k); lia].
      * intros [Hv [[|k] ->]]; [left; lia|].
        right. split; [exact Hv | exists k; lia].
    + split; [intros Hin; inversion Hin|]. intros [Hv [k ->]].
      assert (~ v0 < limit) by (rewrite <- Hc, Hc0; discriminate). nia.
Qed.

Lemma foldM_invariant {S A : Type} (f : S -> A -> option S)
    (I : S -> Prop) (P : A -> Prop) (l : list A) (s : S) :
  Forall P l -> I s ->
  (forall s a, I s -> P a -> exists s', f s a = Some s' /\ I s') ->
  exists s', foldM f l s = Some s' /\ I s'.
Proof.
  intros Hl Hs Hstep. revert s Hs.
  induction Hl as [|a l Ha _ IH]; intros s Hs; cbn [foldM].
  - exists s. split; [reflexivity | exact Hs].
  - destruct (Hstep s a Hs Ha) as [s' [-> Hs']]. apply IH. exact Hs'.
Qed.

Lemma foldM_flat_map {S A B : Type} (f : S -> B -> option S)
    (g : A -> list B) (l : list A) (s : S) :
  foldM f (flat_map g l) s = foldM (fun s a => foldM f (g a) s) l s.
Proof.
  revert s. induction l as [|a l IH]; intros s; [reflexivity|].
  cbn [flat_map foldM]. generalize (g a) as bs. intros bs. revert s.
  induction bs as [|b bs IHb]; intros s; cbn [app foldM].
  - apply IH.
  - destruct (f s b); [apply IHb | reflexivity].
Qed.

(** A loop that only pushes: the array afterwards is the array before
    followed by what each iteration pushed. *)
Lemma fold_left_push {A B : Type} (g : A -> list B) (l : list A)
    (init : list B) :
  fold_left (fun acc a => acc ++ g a) l init = init ++ flat_map g l.
Proof.
  revert init. induction l as [|a l IH]; intros init; cbn [fold_left flat_map].
  - symmetry. apply app_nil_r.
  - rewrite IH. symmetry. apply app_assoc.
Qed.

Lemma fold_left_ext_in {A B : Type} (f g : B -> A -> B) (l : list A)
    (init : B) :
  (forall b a, a ∈ l -> f b a = g b a) ->
  fold_left f l init = fold_left g l init.
Proof.
  revert init. induction l as [|a l IH]; intros init Hfg; [reflexivity|].
  cbn [fold_left]. rewrite Hfg by left. apply IH.
  intros b a' Ha'. apply Hfg. right. exact Ha'.
Qed.
End Loops.

(** ** calculateOverallConfidence: literals and ranges *)

Lemma binary64_literals :
  decimal (arith := binary64) 7 10 = 0.7%float /\
  decimal (arith := binary64) 1 10 = 0.1%float /\
  decimal (arith := binary64) 3 10 = 0.3%float.
Proof. repeat split; vm_compute; reflexivity. Qed.


Section AggregatorFacts.
Local Open Scope Q_scope.

Lemma sumConfidence_fold (regions : list (Region Q)) (init : Q) :
  (forall r, r ∈ regions -> 0 <= confidence r <= 1) ->
  init <= fold_left (fun sum r => add sum (confidence r)) regions init
       <= init + inject_Z (Z.of_nat (length regions)).
Proof.
  revert init. induction regions as [|r regions IH]; intros init Hb.
  - cbn [fold_left length]. change (inject_Z (Z.of_nat 0)) with 0. lra.
  - cbn [fold_left length].
    assert (Hr : 0 <= confidence r <= 1) by (apply Hb; left).
    specialize (IH (add init (confidence r))
                   (fun r' Hr' => Hb r' (list_elem_of_further _ _ _ Hr'))).
    rewrite Nat2Z.inj_succ, <- Z.add_1_r, inject_Z_plus.
    exact_ops. change (inject_Z 1) with 1. lra.
Qed.

Lemma meanConfidence_range (regions : list (Region Q)) :
  (forall r, r ∈ regions -> 0 <= confidence r <= 1) ->
  (0 < length regions)%nat ->
  0 <= meanConfidence regions <= 1.
Proof.
  intros Hb Hlen.
  pose proof (sumConfidence_fold regions (ofZ 0) Hb) as Hsum.
  unfold meanConfidence, sumConfidence. exact_ops.
  set (s := fold_left _ _ _) in *.
  assert (Hn : 0 < inject_Z (Z.of_nat (length regions))).
  { change 0 with (inject_Z 0). rewrite <- Zlt_Qlt. lia. }
  change (inject_Z 0) with 0 in Hsum.
  split.
  - apply Qle_shift_div_l; [exact Hn | lra].
  - apply Qle_shift_div_r; [exact Hn | lra].
Qed.

Lemma metadataFactor_range (metadata : MetadataCues) :
  (length (warnings metadata) <= 10)%nat ->
  0 <= metadataFactor metadata <= 1.
Proof.
  intros Hw. unfold metadataFactor. exact_ops.
  set (k := inject_Z (Z.of_nat (length (warnings metadata)))).
  assert (Hk : 0 <= k <= 10).
  { unfold k. change 0 with (inject_Z 0). change 10 with (inject_Z 10).
    rewrite <- !Zle_Qle. lia. }
  change (inject_Z 1) with 1. change (inject_Z 7) with 7.
  change (inject_Z 10) with 10.
  change (7 / 10) with (7 # 10). change (1 / 10) with (1 # 10).
  clearbody k.
  destruct (exifData metadata), (0 <? _)%Z; cbn [negb]; lra.
Qed.
End AggregatorFacts.

(** In binary64, with no other signal and at most ten warnings, the
    aggregate is within [0, 100] as well: checked for each number of
    warnings. *)
Lemma metadata_only_in_range_binary64 (metadata : MetadataCues) :
  (length (warnings metadata) <= 10)%nat ->
  PrimFloat.leb 0
    (calculateOverallConfidence (arith := binary64) [] (float_ofZ 0)
       (Some metadata)) = true /\
  PrimFloat.leb
    (calculateOverallConfidence (arith := binary64) [] (float_ofZ 0)
       (Some metadata)) 100 = true.
Proof.
  destruct metadata as [exif ws]. cbn [warnings]. intros Hlen.
  destruct exif;
    do 11 (destruct ws as [|? ws]; [split; vm_compute; reflexivity|]);
    cbn [length] in Hlen; lia.
Qed.

(** ** performErrorLevelAnalysis: the heatmap grid and the loop invariant *)


Section ElaFacts.
Context {num : Type} {arith : JSNumber num}.
Local Open Scope Z_scope.

Lemma Qfloor_div_blockSize (v : Z) :
  Qfloor (inject_Z v / inject_Z ELA.blockSize) = v / 16.
Proof. cbn. rewrite Z.mul_1_r. reflexivity. Qed.

Lemma Qceiling_div_blockSize (v : Z) :
  Qceiling (inject_Z v / inject_Z ELA.blockSize) = (v + 15) / 16.
Proof.
  unfold Qceiling. cbn. rewrite Z.mul_1_r.
  change (Z.pos (1 * 16)) with 16. lia_div.
Qed.

Lemma Qceiling_div_blockSize_ceil (v : Z) :
  isCeilDiv v ELA.blockSize
    (Qceiling (inject_Z v / inject_Z ELA.blockSize)).
Proof.
  rewrite Qceiling_div_blockSize. unfold isCeilDiv, ELA.blockSize.
  lia_div.
Qed.

Lemma newHeatmap_dims (canvasWidth canvasHeight : Z) :
  gridDims (ELA.newHeatmap (num := num) canvasWidth canvasHeight)
    (Z.to_nat ((canvasHeight + 15) / 16))
    (Z.to_nat ((canvasWidth + 15) / 16)).
Proof.
  unfold gridDims, ELA.newHeatmap. rewrite !Qceiling_div_blockSize.
  split; [apply length_replicate|].
  apply Forall_replicate. apply length_replicate.
Qed.

Lemma heatmapSet_in_grid (heatmap : list (list num)) (rows cols : nat)
    (r c : Z) (v : num) :
  gridDims heatmap rows cols ->
  0 <= r -> (Z.to_nat r < rows)%nat ->
  0 <= c -> (Z.to_nat c < cols)%nat ->
  exists row,
    heatmap !! Z.to_nat r = Some row /\
    length row = cols /\
    ELA.heatmapSet heatmap r c v =
      Some (<[Z.to_nat r := <[Z.to_nat c := v]> row]> heatmap) /\
    gridDims (<[Z.to_nat r := <[Z.to_nat c := v]> row]> heatmap) rows cols.
Proof.
  intros [Hrows Hcols] Hr Hr' Hc Hc'.
  destruct (lookup_lt_is_Some_2 heatmap (Z.to_nat r)) as [row Hrow];
    [lia|].
  assert (Hlen : length row = cols).
  { eapply Forall_lookup_1 in Hcols; [exact Hcols | exact Hrow]. }
  exists row. split; [exact Hrow|]. split; [exact Hlen|]. split.
  - unfold ELA.heatmapSet. rewrite Hrow.
    rewrite bool_decide_eq_true_2; [reflexivity | lia].
  - split; [rewrite length_insert; exact Hrows|].
    apply Forall_insert; [exact Hcols|].
    rewrite length_insert. exact Hlen.
Qed.

(** The loops of lines 45-46 visit pixels of the canvas only. *)
Lemma ela_loop_values (limit v : Z) :
  v ∈ forLoop (Z.to_nat limit) (fun u => u <? limit) ELA.blockSize 0 ->
  0 <= v < limit.
Proof.
  intros Hin. apply forLoop_elem in Hin as [Hlt [k ->]].
  apply Z.ltb_lt in Hlt. unfold ELA.blockSize in *. lia.
Qed.

(** What one iteration of the loop over [x] does to [regions] and
    [heatmap], inside the canvas. *)
Lemma elaStep_in_grid (canvasWidth canvasHeight : Z)
    (originalData compressedData : list Z) (x y : Z)
    (regions : list (Region num)) (heatmap : list (list num)) :
  gridDims heatmap (Z.to_nat ((canvasHeight + 15) / 16))
    (Z.to_nat ((canvasWidth + 15) / 16)) ->
  0 <= x < canvasWidth -> 0 <= y < canvasHeight ->
  exists diffSum pixelCount row,
    ELA.elaCell canvasWidth canvasHeight originalData compressedData x y
      = (diffSum, pixelCount) /\
    heatmap !! Z.to_nat (y / 16) = Some row /\
    (Z.to_nat (x / 16) < length row)%nat /\
    let v := ELA.normalizedDiff diffSum pixelCount in
    let heatmap' :=
      <[Z.to_nat (y / 16) := <[Z.to_nat (x / 16) := v]> row]> heatmap in
    ELA.elaStep canvasWidth canvasHeight originalData compressedData y
      (regions, heatmap) x
    = Some (if ltb (decimal 3 10) v
            then regions ++
                   [mkRegion x y ELA.blockSize ELA.blockSize v]
            else regions, heatmap') /\
    gridDims heatmap' (Z.to_nat ((canvasHeight + 15) / 16))
      (Z.to_nat ((canvasWidth + 15) / 16)).
Proof.
  intros Hdims Hx Hy.
  destruct (ELA.elaCell canvasWidth canvasHeight originalData
              compressedData x y) as [diffSum pixelCount] eqn:Hcell.
  assert (Hr : 0 <= y / 16 < (canvasHeight + 15) / 16) by lia_div.
  assert (Hc : 0 <= x / 16 < (canvasWidth + 15) / 16) by lia_div.
  destruct (heatmapSet_in_grid heatmap _ _ (y / 16) (x / 16)
              (ELA.normalizedDiff diffSum pixelCount) Hdims)
    as (row & Hrow & Hlen & Hset & Hdims'); [lia..|].
  exists diffSum, pixelCount, row.
  split; [reflexivity|]. split; [exact Hrow|]. split; [lia|].
  cbv zeta. split; [|exact Hdims'].
  unfold ELA.elaStep. rewrite Hcell, !Qfloor_div_blockSize, Hset.
  destruct (ltb _ _); reflexivity.
Qed.

Lemma ela_loop_values_grid (limit v : Z) :
  v ∈ forLoop (Z.to_nat limit) (fun u => u <? limit) ELA.blockSize 0 ->
  0 <= v < limit /\ v mod 16 = 0.
Proof.
  intros Hin. apply forLoop_elem in Hin as [Hlt [k ->]].
  apply Z.ltb_lt in Hlt. unfold ELA.blockSize in *.
  split; [lia|]. rewrite Z.add_0_l, Z.mul_comm. apply Z_mod_mult.
Qed.

(** The same with the grid of the two loops: the cells visited have
    their origin on multiples of [blockSize]. *)
Lemma compareCanvases_invariant_grid
    (I : list (Region num) -> list (list num) -> Prop)
    (canvasWidth canvasHeight : Z) (originalData compressedData : list Z) :
  I [] (ELA.newHeatmap canvasWidth canvasHeight) ->
  (forall regions heatmap x y diffSum pixelCount row,
      I regions heatmap ->
      0 <= x < canvasWidth /\ x mod 16 = 0 ->
      0 <= y < canvasHeight /\ y mod 16 = 0 ->
      ELA.elaCell canvasWidth canvasHeight originalData compressedData x y
        = (diffSum, pixelCount) ->
      heatmap !! Z.to_nat (y / 16) = Some row ->
      (Z.to_nat (x / 16) < length row)%nat ->
      let v := ELA.normalizedDiff diffSum pixelCount in
      I (if ltb (decimal 3 10) v
         then regions ++ [mkRegion x y ELA.blockSize ELA.blockSize v]
         else regions)
        (<[Z.to_nat (y / 16) := <[Z.to_nat (x / 16) := v]> row]> heatmap)) ->
  exists res,
    ELA.compareCanvases canvasWidth canvasHeight originalData compressedData
      = Some res /\
    I (elaRegions res) (heatmap res) /\
    gridDims (heatmap res) (Z.to_nat ((canvasHeight + 15) / 16))
      (Z.to_nat ((canvasWidth + 15) / 16)).
Proof.
  intros Hinit Hstep.
  set (J := fun st : list (Region num) * list (list num) =>
              I (fst st) (snd st) /\
              gridDims (snd st) (Z.to_nat ((canvasHeight + 15) / 16))
                (Z.to_nat ((canvasWidth + 15) / 16))).
  unfold ELA.compareCanvases.
  destruct (foldM_invariant
              (fun st y =>
                 foldM (ELA.elaStep canvasWidth canvasHeight originalData
                          compressedData y)
                   (forLoop (Z.to_nat canvasWidth)
                      (fun x => x <? canvasWidth) ELA.blockSize 0) st)
              J (fun y => 0 <= y < canvasHeight /\ y mod 16 = 0)
              (forLoop (Z.to_nat canvasHeight)
                 (fun y => y <? canvasHeight) ELA.blockSize 0)
              ([], ELA.newHeatmap canvasWidth canvasHeight))
    as [[regions heatmap] [Hres [HI Hdims]]].
  - apply Forall_forall. intros y Hy. exact (ela_loop_values_grid _ _ Hy).
  - split; [exact Hinit | apply newHeatmap_dims].
  - intros st y Hst Hy.
    apply (foldM_invariant _ J
             (fun x => 0 <= x < canvasWidth /\ x mod 16 = 0)).
    + apply Forall_forall. intros x Hx.
      exact (ela_loop_values_grid _ _ Hx).
    + exact Hst.
    + clear st Hst. intros [regions heatmap] x [HI Hdims] Hx.
      cbn [fst snd] in HI, Hdims.
      destruct (elaStep_in_grid canvasWidth canvasHeight originalData
                  compressedData x y regions heatmap Hdims (proj1 Hx)
                  (proj1 Hy))
        as (diffSum & pixelCount & row & Hcell & Hrow & Hlen & Hs & Hd).
      cbv zeta in Hs, Hd. eexists. split; [exact Hs|].
      split; [|exact Hd]. cbn [fst snd].
      exact (Hstep regions heatmap x y diffSum pixelCount row HI Hx Hy
               Hcell Hrow Hlen).
  - rewrite Hres. exists (mkElaResult regions heatmap).
    split; [reflexivity|]. split; [exact HI | exact Hdims].
Qed.

(** The invariant rule of the two nested loops: a property [I] of
    [regions] and [heatmap] that holds initially and is kept by every
    iteration inside the canvas holds of the result, which exists, and
    whose heatmap still has the allocated dimensions. *)
Lemma compareCanvases_invariant
    (I : list (Region num) -> list (list num) -> Prop)
    (canvasWidth canvasHeight : Z) (originalData compressedData : list Z) :
  I [] (ELA.newHeatmap canvasWidth canvasHeight) ->
  (forall regions heatmap x y diffSum pixelCount row,
      I regions heatmap ->
      0 <= x < canvasWidth -> 0 <= y < canvasHeight ->
      ELA.elaCell canvasWidth canvasHeight originalData compressedData x y
        = (diffSum, pixelCount) ->
      heatmap !! Z.to_nat (y / 16) = Some row ->
      (Z.to_nat (x / 16) < length row)%nat ->
      let v := ELA.normalizedDiff diffSum pixelCount in
      I (if ltb (decimal 3 10) v
         then regions ++ [mkRegion x y ELA.blockSize ELA.blockSize v]
         else regions)
        (<[Z.to_nat (y / 16) := <[Z.to_nat (x / 16) := v]> row]> heatmap)) ->
  exists res,
    ELA.compareCanvases canvasWidth canvasHeight originalData compressedData
      = Some res /\
    I (elaRegions res) (heatmap res) /\
    gridDims (heatmap res) (Z.to_nat ((canvasHeight + 15) / 16))
      (Z.to_nat ((canvasWidth + 15) / 16)).
Proof.
  intros Hinit Hstep.
  apply compareCanvases_invariant_grid; [exact Hinit|].
  intros regions heatmap x y diffSum pixelCount row HI [Hx _] [Hy _].
  exact (Hstep regions heatmap x y diffSum pixelCount row HI Hx Hy).
Qed.
End ElaFacts.

(** ** performErrorLevelAnalysis: the cells *)

Section ElaCellFacts.
Local Open Scope Z_scope.

Lemma fold_left_invariant {A B : Type} (f : B -> A -> B) (I : B -> Prop)
    (l : list A) (init : B) :
  I init -> (forall b a, I b -> a ∈ l -> I (f b a)) ->
  I (fold_left f l init).
Proof.
  revert init. induction l as [|a l IH]; intros init Hinit Hstep.
  - exact Hinit.
  - cbn [fold_left]. apply IH.
    + apply Hstep; [exact Hinit | left].
    + intros b a' Hb Ha'. apply Hstep; [exact Hb | right; exact Ha'].
Qed.

(** The samples read at [sourceIdx] and the three indices after it lie
    inside an array of [width * height * 4] samples. *)
Lemma sourceIdx_in_range (width height px py : Z) :
  0 <= px < width -> 0 <= py < height ->
  0 <= (py * width + px) * 4 /\
  (py * width + px) * 4 + 3 < width * height * 4.
Proof. intros Hx Hy. nia. Qed.

Lemma sample_in_range (array : list Z) (i : Z) :
  0 <= i < Z.of_nat (length array) ->
  array !! Z.to_nat i = Some (sample array i).
Proof.
  intros Hi. unfold sample.
  destruct (lookup_lt_is_Some_2 array (Z.to_nat i)) as [v Hv]; [lia|].
  rewrite Hv. reflexivity.
Qed.

Lemma rgbDiff_same (array : list Z) (idx : Z) : rgbDiff array array idx = 0.
Proof. unfold rgbDiff. lia. Qed.

Lemma rgbDiff_nonneg (a b : list Z) (idx : Z) : 0 <= rgbDiff a b idx.
Proof. unfold rgbDiff. lia. Qed.

(** Identical canvases: [diffSum] stays 0. *)
Lemma elaCell_identical (canvasWidth canvasHeight : Z) (samples : list Z)
    (x y : Z) :
  fst (ELA.elaCell canvasWidth canvasHeight samples samples x y) = 0.
Proof.
  unfold ELA.elaCell.
  apply (fold_left_invariant _ (fun acc => fst acc = 0)); [reflexivity|].
  intros acc by_ Hacc _.
  apply (fold_left_invariant _ (fun acc => fst acc = 0)); [exact Hacc|].
  intros [diffSum pixelCount] bx Hd _. cbn [fst] in *.
  rewrite rgbDiff_same. lia.
Qed.

Lemma forLoop_nonempty (fuel : nat) (cond : Z -> bool) (step v : Z) :
  cond v = true -> (0 < length (forLoop (S fuel) cond step v))%nat.
Proof. intros Hc. cbn [forLoop]. rewrite Hc. cbn [length]. lia. Qed.

(** [pixelCount] counts the iterations of the two loops of lines 50-51. *)
Lemma elaCell_pixelCount (canvasWidth canvasHeight : Z)
    (originalData compressedData : list Z) (x y : Z) :
  snd (ELA.elaCell canvasWidth canvasHeight originalData compressedData x y)
  = Z.of_nat
      (length (forLoop (Z.to_nat ELA.blockSize)
                 (fun by_ => (by_ <? ELA.blockSize)
                             && (y + by_ <? canvasHeight)) 1 0)
       * length (forLoop (Z.to_nat ELA.blockSize)
                   (fun bx => (bx <? ELA.blockSize)
                              && (x + bx <? canvasWidth)) 1 0)).
Proof.
  unfold ELA.elaCell.
  set (ly := forLoop _ (fun by_ => (by_ <? _) && (y + by_ <? _)) 1 0).
  set (lx := forLoop _ (fun bx => (bx <? _) && (x + bx <? _)) 1 0).
  assert (Hinner : forall by_ l acc,
             snd (fold_left
                    (fun '(diffSum, pixelCount) bx =>
                       (diffSum +
                        rgbDiff originalData compressedData
                          (((y + by_) * canvasWidth + (x + bx)) * 4),
                        pixelCount + 1)) l acc)
             = snd acc + Z.of_nat (length l)).
  { intros by_ l. induction l as [|bx l IH]; intros [d p].
    - cbn. lia.
    - cbn [fold_left length]. rewrite IH. cbn [snd]. lia. }
  assert (Houter : forall acc,
             snd (fold_left
                    (fun acc by_ =>
                       fold_left
                         (fun '(diffSum, pixelCount) bx =>
                            (diffSum +
                             rgbDiff originalData compressedData
                               (((y + by_) * canvasWidth + (x + bx)) * 4),
                             pixelCount + 1)) lx acc) ly acc)
             = snd acc + Z.of_nat (length ly * length lx)).
  { clearbody ly lx. induction ly as [|by_ ly IH]; intros acc.
    - cbn [fold_left length]. lia.
    - cbn [fold_left length]. rewrite IH, Hinner. lia. }
  rewrite Houter. cbn [snd]. lia.
Qed.

(** Inside the canvas a cell holds at least one pixel, so line 61 never
    divides by zero. *)
Lemma elaCell_pixelCount_pos (canvasWidth canvasHeight : Z)
    (originalData compressedData : list Z) (x y : Z) :
  0 <= x < canvasWidth -> 0 <= y < canvasHeight ->
  1 <= snd (ELA.elaCell canvasWidth canvasHeight originalData
              compressedData x y).
Proof.
  intros Hx Hy. rewrite elaCell_pixelCount.
  change (Z.to_nat ELA.blockSize) with 16%nat.
  pose proof (forLoop_nonempty 15
                (fun by_ => (by_ <? ELA.blockSize)
                            && (y + by_ <? canvasHeight)) 1 0) as Hly.
  pose proof (forLoop_nonempty 15
                (fun bx => (bx <? ELA.blockSize)
                           && (x + bx <? canvasWidth)) 1 0) as Hlx.
  cbv beta in Hly, Hlx.
  assert (Hcx : (0 <? ELA.blockSize) && (x + 0 <? canvasWidth) = true).
  { apply andb_true_intro. split; [reflexivity | apply Z.ltb_lt; lia]. }
  assert (Hcy : (0 <? ELA.blockSize) && (y + 0 <? canvasHeight) = true).
  { apply andb_true_intro. split; [reflexivity | apply Z.ltb_lt; lia]. }
  specialize (Hly Hcy). specialize (Hlx Hcx). nia.
Qed.
Lemma forLoop_length_le (fuel : nat) (cond : Z -> bool) (step v : Z) :
  (length (forLoop fuel cond step v) <= fuel)%nat.
Proof.
  revert v. induction fuel as [|fuel IH]; intros v; cbn [forLoop].
  - reflexivity.
  - destruct (cond v); cbn [length]; [|lia].
    specialize (IH (v + step)). lia.
Qed.

(** A cell holds at most [blockSize * blockSize] pixels. *)
Lemma elaCell_pixelCount_le (canvasWidth canvasHeight : Z)
    (originalData compressedData : list Z) (x y : Z) :
  snd (ELA.elaCell canvasWidth canvasHeight originalData compressedData x y)
  <= 256.
Proof.
  rewrite elaCell_pixelCount.
  change (Z.to_nat ELA.blockSize) with 16%nat.
  pose proof (forLoop_length_le 16
                (fun by_ => (by_ <? ELA.blockSize)
                            && (y + by_ <? canvasHeight)) 1 0) as Hly.
  pose proof (forLoop_length_le 16
                (fun bx => (bx <? ELA.blockSize)
                           && (x + bx <? canvasWidth)) 1 0) as Hlx.
  nia.
Qed.
End ElaCellFacts.

(** ** Exact arithmetic *)

Section ExactFacts.
Local Open Scope Q_scope.

Lemma ltb_exact (a b : Q) : ltb a b = true <-> a < b.
Proof.
  exact_ops. rewrite Qlt_alt. destruct (a ?= b); split; congruence.
Qed.

Lemma normalizedDiff_le_1 (diffSum pixelCount : Z) :
  ELA.normalizedDiff (num := Q) diffSum pixelCount <= 1.
Proof. unfold ELA.normalizedDiff. exact_ops. apply Q.le_min_r. Qed.

Lemma normalizedDiff_zero (pixelCount : Z) :
  ELA.normalizedDiff (num := Q) 0 pixelCount == 0.
Proof.
  unfold ELA.normalizedDiff. exact_ops.
  assert (Ha : inject_Z 0 / inject_Z (pixelCount * 3) / inject_Z 30 == 0).
  { unfold Qdiv. change (inject_Z 0) with 0. rewrite !Qmult_0_l.
    reflexivity. }
  rewrite Q.min_l; [exact Ha|]. rewrite Ha. discriminate.
Qed.
End ExactFacts.

(** ** Binary64: the cells of identical canvases *)

Section Binary64Facts.
Local Open Scope Z_scope.

(** [0 / (pixelCount * 3) / 30] is 0 in binary64 as well, and 0 is not
    above 0.3: checked for each possible [pixelCount]. *)
Lemma normalizedDiff_zero_binary64 (pixelCount : Z) :
  1 <= pixelCount <= 256 ->
  ELA.normalizedDiff (arith := binary64) 0 pixelCount = 0%float /\
  @ltb float binary64 (decimal (arith := binary64) 3 10)
    (ELA.normalizedDiff (arith := binary64) 0 pixelCount) = false.
Proof.
  intros Hp.
  assert (Hn : forall n : nat,
             (n < 256)%nat ->
             ELA.normalizedDiff (arith := binary64) 0 (Z.of_nat (S n))
             = 0%float /\
             @ltb float binary64 (decimal (arith := binary64) 3 10)
               (ELA.normalizedDiff (arith := binary64) 0 (Z.of_nat (S n)))
             = false).
  { intros n Hlt.
    do 256 (destruct n as [|n]; [split; vm_compute; reflexivity|]).
    lia. }
  replace pixelCount with (Z.of_nat (S (Z.to_nat (pixelCount - 1)))) by lia.
  apply Hn. lia.
Qed.
End Binary64Facts.

(** ** performErrorLevelAnalysis: regions, and when the canvases are read *)

Section ElaRegions.
Local Open Scope Z_scope.

Lemma ela_regions_ok (canvasWidth canvasHeight : Z)
    (originalData compressedData : list Z) :
  exists res,
    ELA.compareCanvases (num := Q) canvasWidth canvasHeight originalData
      compressedData = Some res /\
    Forall (elaRegionOk canvasWidth canvasHeight) (elaRegions res).
Proof.
  destruct (compareCanvases_invariant_grid
              (fun regions _ =>
                 Forall (elaRegionOk canvasWidth canvasHeight) regions)
              canvasWidth canvasHeight originalData compressedData)
    as (res & Hres & Hok & _).
  - constructor.
  - intros regions heatmap cx cy diffSum pixelCount row Hregions [Hx Hxm]
      [Hy Hym] _ _ _ v.
    destruct (ltb (decimal 3 10) v) eqn:Hv; [|exact Hregions].
    apply Forall_app. split; [exact Hregions|].
    apply Forall_singleton. apply ltb_exact in Hv.
    unfold elaRegionOk, ELA.blockSize. cbn [x y width height confidence].
    repeat split; try lia; [exact Hv | apply normalizedDiff_le_1].
  - exists res. split; [exact Hres | exact Hok].
Qed.

(** [performErrorLevelAnalysis] reaches the comparison exactly when the
    image has a width and a height other than 0 and the decoder returns
    an image; it then compares the content of the two canvases. *)
Lemma performErrorLevelAnalysis_reads {num : Type} {arith : JSNumber num}
    (browser : Browser) (imageData : ImageData) (quality : Q)
    (compressedData : list Z) :
  imgWidth imageData <> 0 -> imgHeight imageData <> 0 ->
  drawCompressedImage browser imageData quality = Some compressedData ->
  ELA.performErrorLevelAnalysis (num := num) browser imageData quality
  = ELA.compareCanvases (imgWidth imageData) (imgHeight imageData)
      (putImageData browser imageData) compressedData.
Proof.
  intros Hw Hh Hdraw. unfold ELA.performErrorLevelAnalysis, getImageData.
  rewrite Hdraw.
  apply Z.eqb_neq in Hw, Hh. rewrite Hw, Hh. reflexivity.
Qed.

Lemma performErrorLevelAnalysis_fails {num : Type} {arith : JSNumber num}
    (browser : Browser) (imageData : ImageData) (quality : Q) :
  imgWidth imageData = 0 \/ imgHeight imageData = 0 \/
  drawCompressedImage browser imageData quality = None ->
  ELA.performErrorLevelAnalysis (num := num) browser imageData quality
  = None.
Proof.
  intros Hfail. unfold ELA.performErrorLevelAnalysis, getImageData.
  destruct (drawCompressedImage browser imageData quality)
    as [compressedCanvas|]; [|reflexivity].
  destruct Hfail as [-> | [-> | Hnone]]; [reflexivity | | discriminate].
  rewrite orb_true_r. reflexivity.
Qed.
End ElaRegions.

(** ** detectCopyMove: the blocks *)

Section BlockFacts.
Local Open Scope Z_scope.

Lemma fold_left_push_one {A B : Type} (g : A -> B) (l : list A)
    (init : list B) :
  fold_left (fun acc a => acc ++ [g a]) l init = init ++ map g l.
Proof.
  revert init. induction l as [|a l IH]; intros init; cbn [fold_left map].
  - symmetry. apply app_nil_r.
  - rewrite IH, <- app_assoc. reflexivity.
Qed.

(** The blocks in the order of the two loops of lines 90-91. *)
Lemma extractBlocks_flat_map (imageData : ImageData) :
  CopyMove.extractBlocks imageData =
  flat_map
    (fun y =>
       map (fun x => mkBlock (CopyMove.extractBlockData imageData x y) x y)
         (forLoop (Z.to_nat (imgWidth imageData))
            (fun x => x <? imgWidth imageData - CopyMove.blockSize)
            CopyMove.blockSize 0))
    (forLoop (Z.to_nat (imgHeight imageData))
       (fun y => y <? imgHeight imageData - CopyMove.blockSize)
       CopyMove.blockSize 0).
Proof.
  unfold CopyMove.extractBlocks.
  rewrite <- (app_nil_l (flat_map _ _)), <- fold_left_push.
  apply fold_left_ext_in. intros blocks y _.
  apply fold_left_push_one.
Qed.

Lemma extractBlocks_origins (imageData : ImageData) :
  map blockOrigin (CopyMove.extractBlocks imageData) =
  flat_map
    (fun y =>
       map (fun x => (x, y))
         (forLoop (Z.to_nat (imgWidth imageData))
            (fun x => x <? imgWidth imageData - CopyMove.blockSize)
            CopyMove.blockSize 0))
    (forLoop (Z.to_nat (imgHeight imageData))
       (fun y => y <? imgHeight imageData - CopyMove.blockSize)
       CopyMove.blockSize 0).
Proof.
  rewrite extractBlocks_flat_map.
  generalize (forLoop (Z.to_nat (imgHeight imageData))
                (fun y => y <? imgHeight imageData - CopyMove.blockSize)
                CopyMove.blockSize 0) as ys.
  induction ys as [|y ys IH]; [reflexivity|].
  cbn [flat_map]. rewrite map_app, IH, map_map. reflexivity.
Qed.

(** The loops of lines 90-91 visit the grid points that leave more than
    [blockSize] pixels to the right and below. *)
Lemma copyMove_loop_values (limit v : Z) :
  v ∈ forLoop (Z.to_nat limit) (fun u => u <? limit - CopyMove.blockSize)
        CopyMove.blockSize 0 <->
  0 <= v /\ v + CopyMove.blockSize < limit /\ v mod CopyMove.blockSize = 0.
Proof.
  rewrite (forLoop_lt_elem _ _ _ _ (limit - CopyMove.blockSize));
    unfold CopyMove.blockSize; [| lia | intros u; apply Z.ltb_lt | lia].
  split.
  - intros [Hv [k ->]]. repeat split; try lia.
    rewrite Z.add_0_l, Z.mul_comm. apply Z_mod_mult.
  - intros (Hv & Hlim & Hmod). split; [lia|].
    exists (Z.to_nat (v / 32)).
    rewrite Z2Nat.id by (apply Z.div_pos; lia).
    pose proof (Z.div_mod v 32). lia.
Qed.

(** The origins of the extracted blocks, exactly. *)
Lemma extractBlocks_origin_iff (imageData : ImageData) (ox oy : Z) :
  (ox, oy) ∈ map blockOrigin (CopyMove.extractBlocks imageData) <->
  (0 <= ox /\ ox + CopyMove.blockSize < imgWidth imageData /\
   ox mod CopyMove.blockSize = 0) /\
  (0 <= oy /\ oy + CopyMove.blockSize < imgHeight imageData /\
   oy mod CopyMove.blockSize = 0).
Proof.
  rewrite extractBlocks_origins, list_elem_of_In, in_flat_map.
  rewrite <- !copyMove_loop_values. split.
  - intros (y' & Hy' & Hin). apply in_map_iff in Hin as (x' & Heq & Hx').
    inversion Heq; subst. rewrite !list_elem_of_In. tauto.
  - intros [Hx Hy]. exists oy. rewrite <- list_elem_of_In.
    split; [exact Hy|]. apply in_map_iff. exists ox.
    rewrite <- list_elem_of_In. tauto.
Qed.

Lemma extractBlocks_inside (imageData : ImageData) (b : Block) :
  b ∈ CopyMove.extractBlocks imageData ->
  0 <= blockX b /\ blockX b + CopyMove.blockSize < imgWidth imageData /\
  0 <= blockY b /\ blockY b + CopyMove.blockSize < imgHeight imageData.
Proof.
  intros Hb.
  assert (Ho : (blockX b, blockY b)
               ∈ map blockOrigin (CopyMove.extractBlocks imageData)).
  { apply list_elem_of_In, in_map_iff. exists b.
    split; [reflexivity | apply list_elem_of_In; exact Hb]. }
  apply extractBlocks_origin_iff in Ho. tauto.
Qed.

Lemma blockDiffSum_nonneg (block1 block2 : list Z) :
  0 <= CopyMove.blockDiffSum block1 block2.
Proof.
  unfold CopyMove.blockDiffSum.
  apply (fold_left_invariant _ (fun diffSum => 0 <= diffSum)); [lia|].
  intros diffSum i Hd _. pose proof (rgbDiff_nonneg block1 block2 i). lia.
Qed.

Lemma blockDiffSum_same (block : list Z) :
  CopyMove.blockDiffSum block block = 0.
Proof.
  unfold CopyMove.blockDiffSum.
  apply (fold_left_invariant _ (fun diffSum => diffSum = 0)); [reflexivity|].
  intros diffSum i -> _. rewrite rgbDiff_same. reflexivity.
Qed.

Lemma rgbDiff_sym (a b : list Z) (idx : Z) :
  rgbDiff a b idx = rgbDiff b a idx.
Proof. unfold rgbDiff. lia. Qed.

Lemma blockDiffSum_sym (block1 block2 : list Z) :
  length block1 = length block2 ->
  CopyMove.blockDiffSum block1 block2 = CopyMove.blockDiffSum block2 block1.
Proof.
  intros Hlen. unfold CopyMove.blockDiffSum. rewrite Hlen.
  apply fold_left_ext_in. intros diffSum i _.
  rewrite rgbDiff_sym. reflexivity.
Qed.

(** Similarity does not depend on the order of two blocks of the same
    size, and neither does the confidence. *)
Lemma areBlocksSimilar_sym {num : Type} {arith : JSNumber num}
    (block1 block2 : list Z) (threshold : num) :
  length block1 = length block2 ->
  CopyMove.areBlocksSimilar block1 block2 threshold
  = CopyMove.areBlocksSimilar block2 block1 threshold /\
  CopyMove.calculateSimilarityConfidence (num := num) block1 block2
  = CopyMove.calculateSimilarityConfidence block2 block1.
Proof.
  intros Hlen.
  unfold CopyMove.areBlocksSimilar, CopyMove.calculateSimilarityConfidence.
  rewrite (blockDiffSum_sym block1 block2 Hlen), Hlen.
  split; reflexivity.
Qed.

(** The pairs compared: every [i < j] below the number of blocks. *)
Lemma blockPairs_elem (n : nat) (i j : Z) :
  (i, j) ∈ CopyMove.blockPairs n <-> 0 <= i < j /\ j < Z.of_nat n.
Proof.
  unfold CopyMove.blockPairs. rewrite list_elem_of_In, in_flat_map. split.
  - intros (i' & Hi' & Hin). apply in_map_iff in Hin as (j' & Heq & Hj').
    inversion Heq; subst. apply list_elem_of_In in Hi', Hj'.
    apply forLoop_elem in Hi' as [_ [k ->]].
    apply forLoop_elem in Hj' as [Hlt [k' ->]].
    apply Z.ltb_lt in Hlt. lia.
  - intros [Hij Hj]. exists i. split.
    + apply list_elem_of_In.
      apply (forLoop_lt_elem _ _ _ _ (Z.of_nat n));
        [lia | intros u; apply Z.ltb_lt | lia |].
      split; [lia|]. exists (Z.to_nat i). lia.
    + apply in_map_iff. exists j. split; [reflexivity|].
      apply list_elem_of_In.
      apply (forLoop_lt_elem _ _ _ _ (Z.of_nat n));
        [lia | intros u; apply Z.ltb_lt | lia |].
      split; [lia|]. exists (Z.to_nat (j - i - 1)). lia.
Qed.
End BlockFacts.

(** ** The fuel of every loop is enough *)

Section LoopsEnd.
Local Open Scope Z_scope.

(** Lines 45-46. *)
Lemma ela_outer_loop_ends (limit : Z) :
  let values :=
    forLoop (Z.to_nat limit) (fun v => v <? limit) ELA.blockSize 0 in
  (0 + ELA.blockSize * Z.of_nat (length values) <? limit) = false.
Proof.
  cbv zeta.
  apply (forLoop_exhausted _ (fun v => v <? limit) _ _ limit);
    [reflexivity | intros v; apply Z.ltb_lt | lia].
Qed.

(** Lines 50-51. *)
Lemma ela_inner_loop_ends (origin limit : Z) :
  let cond := fun b => (b <? ELA.blockSize) && (origin + b <? limit) in
  cond (0 + 1 * Z.of_nat (length (forLoop (Z.to_nat ELA.blockSize) cond 1 0)))
  = false.
Proof.
  cbv zeta.
  apply (forLoop_exhausted _ _ _ _ ELA.blockSize);
    [reflexivity | | unfold ELA.blockSize; lia].
  intros b Hb. apply andb_true_iff in Hb as [Hb _].
  apply Z.ltb_lt. exact Hb.
Qed.

(** Lines 90-91. *)
Lemma copyMove_outer_loop_ends (limit : Z) :
  let values :=
    forLoop (Z.to_nat limit) (fun v => v <? limit - CopyMove.blockSize)
      CopyMove.blockSize 0 in
  (0 + CopyMove.blockSize * Z.of_nat (length values)
     <? limit - CopyMove.blockSize) = false.
Proof.
  cbv zeta.
  apply (forLoop_exhausted _ (fun v => v <? limit - CopyMove.blockSize)
           _ _ (limit - CopyMove.blockSize));
    [reflexivity | intros v; apply Z.ltb_lt | unfold CopyMove.blockSize; lia].
Qed.

(** Lines 95-96. *)
Lemma copyMove_inner_loop_ends :
  let values :=
    forLoop (Z.to_nat CopyMove.blockSize)
      (fun b => b <? CopyMove.blockSize) 1 0 in
  (0 + 1 * Z.of_nat (length values) <? CopyMove.blockSize) = false.
Proof. reflexivity. Qed.

(** Lines 152 and 165. *)
Lemma blockDiffSum_loop_ends (block1 : list Z) :
  let limit := Z.of_nat (length block1) in
  let values := forLoop (length block1) (fun i => i <? limit) 4 0 in
  (0 + 4 * Z.of_nat (length values) <? limit) = false.
Proof.
  cbv zeta.
  apply (forLoop_exhausted _ (fun i => i <? Z.of_nat (length block1))
           _ _ (Z.of_nat (length block1)));
    [reflexivity | intros v; apply Z.ltb_lt | lia].
Qed.

(** Lines 110-111, for [i >= 0]. *)
Lemma compare_loop_ends (n : nat) (start : Z) :
  0 <= start ->
  let values := forLoop n (fun j => j <? Z.of_nat n) 1 start in
  (start + 1 * Z.of_nat (length values) <? Z.of_nat n) = false.
Proof.
  intros Hstart. cbv zeta.
  apply (forLoop_exhausted _ (fun j => j <? Z.of_nat n) _ _ (Z.of_nat n));
    [reflexivity | intros v; apply Z.ltb_lt | lia].
Qed.

(** Every sample that lines 52-55 read lies inside a canvas array of
    [width * height * 4] samples. *)
Lemma ela_reads_in_range (canvasWidth canvasHeight x y bx by_ : Z) :
  x ∈ forLoop (Z.to_nat canvasWidth) (fun x => x <? canvasWidth)
        ELA.blockSize 0 ->
  y ∈ forLoop (Z.to_nat canvasHeight) (fun y => y <? canvasHeight)
        ELA.blockSize 0 ->
  bx ∈ forLoop (Z.to_nat ELA.blockSize)
         (fun bx => (bx <? ELA.blockSize) && (x + bx <? canvasWidth)) 1 0 ->
  by_ ∈ forLoop (Z.to_nat ELA.blockSize)
          (fun by_ => (by_ <? ELA.blockSize) && (y + by_ <? canvasHeight))
          1 0 ->
  let idx := ((y + by_) * canvasWidth + (x + bx)) * 4 in
  0 <= idx /\ idx + 2 < canvasWidth * canvasHeight * 4.
Proof.
  intros Hx Hy Hbx Hby idx.
  apply forLoop_elem in Hx as [_ [kx ->]].
  apply forLoop_elem in Hy as [_ [ky ->]].
  apply forLoop_elem in Hbx as [Hcx [kbx ->]].
  apply forLoop_elem in Hby as [Hcy [kby ->]].
  apply andb_true_iff in Hcx as [_ Hcx]. apply Z.ltb_lt in Hcx.
  apply andb_true_iff in Hcy as [_ Hcy]. apply Z.ltb_lt in Hcy.
  unfold ELA.blockSize in *.
  pose proof (sourceIdx_in_range canvasWidth canvasHeight
                (0 + 16 * Z.of_nat kx + (0 + 1 * Z.of_nat kbx))
                (0 + 16 * Z.of_nat ky + (0 + 1 * Z.of_nat kby))) as Hr.
  subst idx. lia.
Qed.

(** Every sample that lines 97-101 read lies inside the image's array of
    [width * height * 4] samples. *)
Lemma copyMove_reads_in_range (imageData : ImageData) (b : Block)
    (bx by_ : Z) :
  b ∈ CopyMove.extractBlocks imageData ->
  bx ∈ forLoop (Z.to_nat CopyMove.blockSize)
         (fun bx => bx <? CopyMove.blockSize) 1 0 ->
  by_ ∈ forLoop (Z.to_nat CopyMove.blockSize)
          (fun by_ => by_ <? CopyMove.blockSize) 1 0 ->
  let sourceIdx :=
    ((blockY b + by_) * imgWidth imageData + (blockX b + bx)) * 4 in
  0 <= sourceIdx /\
  sourceIdx + 3 < imgWidth imageData * imgHeight imageData * 4.
Proof.
  intros Hb Hbx Hby sourceIdx.
  apply extractBlocks_inside in Hb.
  apply forLoop_elem in Hbx as [Hcx [kbx ->]].
  apply forLoop_elem in Hby as [Hcy [kby ->]].
  apply Z.ltb_lt in Hcx, Hcy. unfold CopyMove.blockSize in *.
  apply sourceIdx_in_range; lia.
Qed.
End LoopsEnd.

(** ** detectCopyMove: the comparison loops *)

Section CompareFacts.
Context {num : Type} {arith : JSNumber num}.
Local Open Scope Z_scope.

(** The nested loops of lines 110-111 run line 112 once for each pair of
    [blockPairs]. *)
Lemma compareBlocks_pairs (blocks : list Block) :
  CopyMove.compareBlocks (num := num) blocks =
  foldM (fun regions '(i, j) => CopyMove.compareStep blocks i regions j)
    (CopyMove.blockPairs (length blocks)) [].
Proof.
  unfold CopyMove.compareBlocks, CopyMove.blockPairs.
  rewrite foldM_flat_map.
  generalize (@nil (Region num)) as regions.
  generalize (forLoop (length blocks)
                (fun i => i <? Z.of_nat (length blocks)) 1 0) as is_.
  induction is_ as [|i is_ IH]; intros regions; [reflexivity|].
  cbn [foldM].
  assert (Hinner : forall js regions,
             foldM (fun regions '(i, j) =>
                      CopyMove.compareStep blocks i regions j)
               (map (fun j => (i, j)) js) regions
             = foldM (CopyMove.compareStep blocks i) js regions).
  { intros js. induction js as [|j js IHj]; intros rs; [reflexivity|].
    cbn [map foldM]. destruct (CopyMove.compareStep blocks i rs j);
      [apply IHj | reflexivity]. }
  rewrite Hinner.
  destruct (foldM (CopyMove.compareStep blocks i) _ regions);
    [apply IH | reflexivity].
Qed.

(** The invariant rule of the comparison loops: no block is ever
    missing, so the loops return, and a property that holds of the two
    regions pushed for every qualifying pair of blocks holds of every
    region of the result. *)
Lemma compareBlocks_invariant (P : Region num -> Prop)
    (blocks : list Block) :
  (forall bi bj,
      bi ∈ blocks -> bj ∈ blocks ->
      CopyMove.areBlocksSimilar (blockData bi) (blockData bj)
        (ofZ CopyMove.threshold) = true ->
      CopyMove.sqrtExceeds (CopyMove.squaredDistance bi bj)
        (CopyMove.blockSize * 2) = true ->
      let confidence :=
        CopyMove.calculateSimilarityConfidence (blockData bi)
          (blockData bj) in
      P (mkRegion (blockX bi) (blockY bi) CopyMove.blockSize
           CopyMove.blockSize confidence) /\
      P (mkRegion (blockX bj) (blockY bj) CopyMove.blockSize
           CopyMove.blockSize confidence)) ->
  exists regions,
    CopyMove.compareBlocks blocks = Some regions /\ Forall P regions.
Proof.
  intros Hpair. rewrite compareBlocks_pairs.
  apply (foldM_invariant _ (Forall P)
           (fun ij => 0 <= fst ij < snd ij
                      /\ snd ij < Z.of_nat (length blocks))).
  - apply Forall_forall. intros [i j] Hij.
    apply blockPairs_elem in Hij. exact Hij.
  - constructor.
  - intros regions [i j] Hregions [Hi Hj]. cbn [fst snd] in Hi, Hj.
    unfold CopyMove.compareStep.
    destruct (lookup_lt_is_Some_2 blocks (Z.to_nat i)) as [bi Hbi]; [lia|].
    destruct (lookup_lt_is_Some_2 blocks (Z.to_nat j)) as [bj Hbj]; [lia|].
    rewrite Hbi, Hbj.
    destruct (CopyMove.areBlocksSimilar _ _ _) eqn:Hsim;
      [|exists regions; split; [reflexivity | exact Hregions]].
    destruct (CopyMove.sqrtExceeds _ _) eqn:Hfar;
      [|exists regions; split; [reflexivity | exact Hregions]].
    eexists. split; [reflexivity|].
    apply Forall_app. split; [exact Hregions|].
    destruct (Hpair bi bj (list_elem_of_lookup_2 _ _ _ Hbi)
                (list_elem_of_lookup_2 _ _ _ Hbj) Hsim Hfar) as [Pi Pj].
    apply Forall_cons. split; [exact Pi|].
    apply Forall_singleton. exact Pj.
Qed.
End CompareFacts.

(** The test on the squares decides [Math.sqrt(n) > limit]. *)
Lemma sqrtExceeds_sqrt (n limit : Z) :
  (0 <= n)%Z ->
  CopyMove.sqrtExceeds n limit = true <-> (R_sqrt.sqrt (IZR n) > IZR limit)%R.
Proof.
  intros Hn. unfold CopyMove.sqrtExceeds.
  rewrite orb_true_iff, !Z.ltb_lt.
  assert (Hn' : (0 <= IZR n)%R) by (apply IZR_le; exact Hn).
  pose proof (R_sqrt.sqrt_pos (IZR n)) as Hs.
  destruct (Z_lt_le_dec limit 0) as [Hneg | Hpos].
  - split; [intros _ | left; exact Hneg].
    apply IZR_lt in Hneg. lra.
  - assert (Hl : (0 <= IZR limit)%R) by (apply IZR_le; exact Hpos).
    split.
    + intros [Hlt | Hlt]; [lia|].
      apply IZR_lt in Hlt. rewrite mult_IZR in Hlt.
      rewrite <- (R_sqrt.sqrt_square (IZR limit)) by exact Hl.
      apply R_sqrt.sqrt_lt_1; [nra | exact Hn' | exact Hlt].
    + intros Hgt. right. apply lt_IZR. rewrite mult_IZR.
      rewrite <- (R_sqrt.sqrt_sqrt (IZR n)) by exact Hn'.
      apply Rmult_le_0_lt_compat; try exact Hl; exact Hgt.
Qed.

(** ** detectCopyMove: similarity and confidence in exact arithmetic *)

Section SimilarityFacts.
Local Open Scope Q_scope.

(** [avgDiff] of lines 157 and 170 is not negative. *)
Lemma avgDiff_nonneg (block1 block2 : list Z) :
  0 <= inject_Z (CopyMove.blockDiffSum block1 block2)
       / (inject_Z (Z.of_nat (length block1)) / inject_Z 4).
Proof.
  unfold Qdiv. apply Qmult_le_0_compat.
  - change 0 with (inject_Z 0). rewrite <- Zle_Qle.
    apply blockDiffSum_nonneg.
  - apply Qinv_le_0_compat. apply Qmult_le_0_compat; [|discriminate].
    change 0 with (inject_Z 0). rewrite <- Zle_Qle. lia.
Qed.

Lemma similarity_confidence_unit (block1 block2 : list Z) :
  0 <= CopyMove.calculateSimilarityConfidence (num := Q) block1 block2 <= 1.
Proof.
  unfold CopyMove.calculateSimilarityConfidence. exact_ops.
  pose proof (avgDiff_nonneg block1 block2) as Ha.
  set (avgDiff := _ / (_ / _)) in *. clearbody avgDiff.
  change (inject_Z 0) with 0. change (inject_Z 1) with 1.
  split; [apply Q.le_max_l|].
  apply Q.max_lub; [discriminate|].
  unfold Qdiv. change (/ inject_Z 255) with (1 # 255). lra.
Qed.

(** A pair that passes the test of line 112 gets a confidence above
    [1 - threshold / 255]: both lines compute the same [avgDiff]. *)
Lemma similar_confidence (block1 block2 : list Z) :
  CopyMove.areBlocksSimilar (num := Q) block1 block2
    (ofZ CopyMove.threshold) = true ->
  250 # 255 < CopyMove.calculateSimilarityConfidence (num := Q) block1 block2.
Proof.
  intros Hsim. apply ltb_exact in Hsim.
  unfold CopyMove.calculateSimilarityConfidence. exact_ops.
  set (avgDiff := _ / (_ / _)) in *. clearbody avgDiff.
  change (inject_Z CopyMove.threshold) with 5 in Hsim.
  apply Qlt_le_trans with (1 - avgDiff / inject_Z 255);
    [|apply Q.le_max_r].
  unfold Qdiv. change (/ inject_Z 255) with (1 # 255).
  change (inject_Z 1) with 1. lra.
Qed.

Lemma sumConfidence_lower (c : Q) (regions : list (Region Q)) (init : Q) :
  Forall (fun r => c <= confidence r) regions ->
  init + c * inject_Z (Z.of_nat (length regions))
  <= fold_left (fun sum r => add sum (confidence r)) regions init.
Proof.
  intros Hall. revert init.
  induction Hall as [|r regions Hr _ IH]; intros init.
  - cbn [fold_left length]. change (inject_Z (Z.of_nat 0)) with 0. lra.
  - cbn [fold_left length]. specialize (IH (add init (confidence r))).
    rewrite Nat2Z.inj_succ, <- Z.add_1_r, inject_Z_plus.
    exact_ops. change (inject_Z 1) with 1. lra.
Qed.

(** The mean of confidences that all exceed [c] exceeds [c]. *)
Lemma meanConfidence_above (c : Q) (regions : list (Region Q)) :
  (0 < length regions)%nat ->
  Forall (fun r => c < confidence r) regions ->
  c < meanConfidence regions.
Proof.
  intros Hlen Hall. destruct Hall as [|r regions Hr Hall]; [inversion Hlen|].
  unfold meanConfidence, sumConfidence. cbn [fold_left].
  assert (Hall' : Forall (fun r => c <= confidence r) regions).
  { eapply Forall_impl; [exact Hall|]. intros r' Hr'. apply Qlt_le_weak.
    exact Hr'. }
  pose proof (sumConfidence_lower c regions (add (ofZ 0) (confidence r))
                Hall') as Hsum.
  set (s := fold_left _ _ _) in *. clearbody s.
  cbn [length]. rewrite Nat2Z.inj_succ, <- Z.add_1_r.
  exact_ops. rewrite inject_Z_plus in *.
  set (n := inject_Z (Z.of_nat (length regions))) in *.
  assert (Hn : 0 <= n).
  { unfold n. change 0 with (inject_Z 0). rewrite <- Zle_Qle. lia. }
  clearbody n. change (inject_Z 0) with 0 in Hsum.
  change (inject_Z 1) with 1.
  apply Qlt_shift_div_l; [lra|]. nra.
Qed.
End SimilarityFacts.

Section DetectFacts.
Context {num : Type} {arith : JSNumber num}.

(** [detectCopyMove] returns, with the regions of [compareBlocks] on the
    extracted blocks and their mean confidence. *)
Lemma detectCopyMove_invariant (P : Region num -> Prop)
    (imageData : ImageData) :
  (forall bi bj,
      bi ∈ CopyMove.extractBlocks imageData ->
      bj ∈ CopyMove.extractBlocks imageData ->
      CopyMove.areBlocksSimilar (blockData bi) (blockData bj)
        (ofZ CopyMove.threshold) = true ->
      CopyMove.sqrtExceeds (CopyMove.squaredDistance bi bj)
        (CopyMove.blockSize * 2) = true ->
      let confidence :=
        CopyMove.calculateSimilarityConfidence (blockData bi)
          (blockData bj) in
      P (mkRegion (blockX bi) (blockY bi) CopyMove.blockSize
           CopyMove.blockSize confidence) /\
      P (mkRegion (blockX bj) (blockY bj) CopyMove.blockSize
           CopyMove.blockSize confidence)) ->
  exists regions,
    CopyMove.detectCopyMove imageData
    = Some (mkCopyMoveResult regions
              (if (0 <? Z.of_nat (length regions))%Z
               then meanConfidence regions else ofZ 0)) /\
    Forall P regions.
Proof.
  intros Hpair.
  destruct (compareBlocks_invariant P _ Hpair) as (regions & Hcmp & Hall).
  exists regions. split; [|exact Hall].
  unfold CopyMove.detectCopyMove. rewrite Hcmp. reflexivity.
Qed.
End DetectFacts.

(** ** A detection: copied content far apart is reported *)

Section Detection.
Local Open Scope Z_scope.

Lemma uniform_sample (n : nat) (r g b a : Z) (p : nat) (j : Z) :
  (p < n)%nat -> 0 <= j < 4 ->
  sample (concat (replicate n [r; g; b; a])) (Z.of_nat p * 4 + j)
  = default 0 ([r; g; b; a] !! Z.to_nat j).
Proof.
  revert p. induction n as [|n IH]; intros p Hp Hj; [lia|].
  destruct p as [|p].
  - unfold sample. cbn [replicate concat app].
    assert (Hcases : j = 0 \/ j = 1 \/ j = 2 \/ j = 3) by lia.
    destruct Hcases as [-> | [-> | [-> | ->]]]; reflexivity.
  - rewrite <- (IH p) by lia. unfold sample.
    cbn [replicate concat app].
    replace (Z.to_nat (Z.of_nat (S p) * 4 + j))
      with (S (S (S (S (Z.to_nat (Z.of_nat p * 4 + j)))))) by lia.
    reflexivity.
Qed.

(** Every block of an image of one colour holds the same samples. *)
Lemma extractBlockData_uniform (w h r g b a x y : Z) :
  0 <= x -> x + CopyMove.blockSize <= w ->
  0 <= y -> y + CopyMove.blockSize <= h ->
  CopyMove.extractBlockData (uniformImage w h r g b a) x y
  = fst
      (fold_left
         (fun st by_ =>
            fold_left
              (fun '(blockData, idx) bx =>
                 (<[Z.to_nat (idx + 1 + 1 + 1) := a]>
                    (<[Z.to_nat (idx + 1 + 1) := b]>
                       (<[Z.to_nat (idx + 1) := g]>
                          (<[Z.to_nat idx := r]> blockData))),
                  idx + 1 + 1 + 1 + 1))
              (forLoop (Z.to_nat CopyMove.blockSize)
                 (fun bx => bx <? CopyMove.blockSize) 1 0)
              st)
         (forLoop (Z.to_nat CopyMove.blockSize)
            (fun by_ => by_ <? CopyMove.blockSize) 1 0)
         (replicate
            (Z.to_nat (CopyMove.blockSize * CopyMove.blockSize * 4)) 0,
          0)).
Proof.
  intros Hx Hxw Hy Hyh. unfold CopyMove.extractBlockData.
  apply (f_equal fst).
  apply fold_left_ext_in. intros st by_ Hby.
  apply fold_left_ext_in. intros [blockData idx] bx Hbx.
  apply forLoop_elem in Hby as [Hcy [ky ->]].
  apply forLoop_elem in Hbx as [Hcx [kx ->]].
  apply Z.ltb_lt in Hcx, Hcy. unfold CopyMove.blockSize in *.
  cbn [imgWidth data uniformImage].
  set (py := y + (0 + 1 * Z.of_nat ky)).
  set (px := x + (0 + 1 * Z.of_nat kx)).
  assert (Hp : 0 <= py * w + px < w * h) by (subst px py; nia).
  assert (Hs : forall j, 0 <= j < 4 ->
             sample (concat (replicate (Z.to_nat (w * h)) [r; g; b; a]))
               ((py * w + px) * 4 + j)
             = default 0 ([r; g; b; a] !! Z.to_nat j)).
  { intros j Hj.
    rewrite <- (Z2Nat.id (py * w + px)) by lia.
    apply uniform_sample; lia. }
  pose proof (Hs 0 ltac:(lia)) as Hs0. rewrite Z.add_0_r in Hs0.
  rewrite Hs0, (Hs 1), (Hs 2), (Hs 3) by lia. reflexivity.
Qed.

Lemma areBlocksSimilar_same (block : list Z) :
  CopyMove.areBlocksSimilar (num := Q) block block (ofZ CopyMove.threshold)
  = true.
Proof.
  apply ltb_exact. unfold CopyMove.areBlocksSimilar.
  rewrite blockDiffSum_same. exact_ops.
  unfold Qdiv. change (inject_Z 0) with 0%Q. rewrite Qmult_0_l.
  reflexivity.
Qed.

Lemma similarity_confidence_same (block : list Z) :
  (CopyMove.calculateSimilarityConfidence (num := Q) block block == 1)%Q.
Proof.
  unfold CopyMove.calculateSimilarityConfidence.
  rewrite blockDiffSum_same. exact_ops.
  assert (Ha : (inject_Z 0 / (inject_Z (Z.of_nat (length block)) / inject_Z 4)
                / inject_Z 255 == 0)%Q).
  { unfold Qdiv. change (inject_Z 0) with 0%Q. rewrite !Qmult_0_l.
    reflexivity. }
  rewrite Q.max_r; rewrite Ha; [reflexivity | discriminate].
Qed.

(** Line 112 onwards for two blocks that hold the same samples. *)
Lemma compareStep_same (blocks : list Block) (i j : Z) (bi bj : Block)
    (regions : list (Region Q)) :
  blocks !! Z.to_nat i = Some bi ->
  blocks !! Z.to_nat j = Some bj ->
  blockData bi = blockData bj ->
  CopyMove.compareStep blocks i regions j
  = Some
      (if CopyMove.sqrtExceeds (CopyMove.squaredDistance bi bj)
            (CopyMove.blockSize * 2)
       then regions ++
              [mkRegion (blockX bi) (blockY bi) CopyMove.blockSize
                 CopyMove.blockSize
                 (CopyMove.calculateSimilarityConfidence (blockData bi)
                    (blockData bj));
               mkRegion (blockX bj) (blockY bj) CopyMove.blockSize
                 CopyMove.blockSize
                 (CopyMove.calculateSimilarityConfidence (blockData bi)
                    (blockData bj))]
       else regions).
Proof.
  intros Hbi Hbj Hsame. unfold CopyMove.compareStep.
  rewrite Hbi, Hbj, <- Hsame, areBlocksSimilar_same.
  destruct (CopyMove.sqrtExceeds _ _); reflexivity.
Qed.

(** In the 129 by 33 image of one colour the blocks at [x = 0] and
    [x = 96] are identical and 96 > 64 pixels apart: they are the one
    pair reported, with confidence 1. *)
Example wideImage_detection (r g b a : Z) :
  exists c overall,
    CopyMove.detectCopyMove (num := Q) (wideImage r g b a)
    = Some (mkCopyMoveResult
              [mkRegion 0 0 32 32 c; mkRegion 96 0 32 32 c] overall) /\
    (c == 1)%Q /\ (overall == 1)%Q.
Proof.
  assert (Hblocks : exists samples,
             CopyMove.extractBlocks (wideImage r g b a)
             = [mkBlock samples 0 0; mkBlock samples 32 0;
                mkBlock samples 64 0; mkBlock samples 96 0]).
  { eexists. rewrite extractBlocks_flat_map.
    cbn [imgWidth imgHeight wideImage uniformImage].
    change (forLoop (Z.to_nat 33) (fun y => y <? 33 - CopyMove.blockSize)
              CopyMove.blockSize 0) with [0].
    change (forLoop (Z.to_nat 129) (fun x => x <? 129 - CopyMove.blockSize)
              CopyMove.blockSize 0) with [0; 32; 64; 96].
    cbn [flat_map map app].
    fold (uniformImage 129 33 r g b a).
    rewrite !(extractBlockData_uniform 129 33)
      by (unfold CopyMove.blockSize; lia).
    reflexivity. }
  destruct Hblocks as [samples Hblocks].
  set (b0 := mkBlock samples 0 0) in *.
  set (b1 := mkBlock samples 32 0) in *.
  set (b2 := mkBlock samples 64 0) in *.
  set (b3 := mkBlock samples 96 0) in *.
  exists (CopyMove.calculateSimilarityConfidence (num := Q) samples samples).
  eexists. split; [|split].
  - unfold CopyMove.detectCopyMove.
    rewrite compareBlocks_pairs, Hblocks.
    change (CopyMove.blockPairs _)
      with [(0, 1); (0, 2); (0, 3); (1, 2); (1, 3); (2, 3)].
    cbn [foldM].
    rewrite (compareStep_same _ 0 1 b0 b1) by reflexivity.
    change (CopyMove.sqrtExceeds (CopyMove.squaredDistance b0 b1) _)
      with false. cbv iota.
    rewrite (compareStep_same _ 0 2 b0 b2) by reflexivity.
    change (CopyMove.sqrtExceeds (CopyMove.squaredDistance b0 b2) _)
      with false. cbv iota.
    rewrite (compareStep_same _ 0 3 b0 b3) by reflexivity.
    change (CopyMove.sqrtExceeds (CopyMove.squaredDistance b0 b3) _)
      with true. cbv iota.
    rewrite (compareStep_same _ 1 2 b1 b2) by reflexivity.
    change (CopyMove.sqrtExceeds (CopyMove.squaredDistance b1 b2) _)
      with false. cbv iota.
    rewrite (compareStep_same _ 1 3 b1 b3) by reflexivity.
    change (CopyMove.sqrtExceeds (CopyMove.squaredDistance b1 b3) _)
      with false. cbv iota.
    rewrite (compareStep_same _ 2 3 b2 b3) by reflexivity.
    change (CopyMove.sqrtExceeds (CopyMove.squaredDistance b2 b3) _)
      with false. cbv iota.
    reflexivity.
  - apply similarity_confidence_same.
  - pose proof (similarity_confidence_same samples) as Hc.
    change (0 <? Z.of_nat (length _)) with true. cbv iota.
    unfold meanConfidence, sumConfidence.
    cbn [fold_left confidence length app blockData b0 b3].
    exact_ops. rewrite Hc. reflexivity.
Qed.
End Detection.

(** ** Claims about performErrorLevelAnalysis and detectCopyMove *)

Section DetectorClaims.
Local Open Scope Z_scope.

(** C1 (the failing input).  A 17 by 1 image whose round trip raises
    every sample by 12: the cell at [x = 16] holds one pixel, its
    normalized difference is 0.4 > 0.3, and the region pushed for it has
    [width = 16], so [x + width = 32 > 17]. *)
Lemma ela_region_past_image_edge :
  exists res r,
    ELA.performErrorLevelAnalysis (num := Q)
      (opaqueBrowser (brighterRoundTrip 12)) narrowImage defaultQuality
      = Some res /\
    r ∈ elaRegions res /\
    x r = 16 /\ width r = 16 /\
    ~ (x r + width r <= imgWidth narrowImage) /\
    ~ regionInBounds (imgWidth narrowImage) (imgHeight narrowImage) r.
Proof.
  eexists. exists (mkRegion 16 0 16 16 (36 # 90)).
  split; [vm_compute; reflexivity|].
  split; [right; left|].
  cbn [x width]. repeat split.
  - cbn. lia.
  - unfold regionInBounds. cbn. lia.
Qed.

(** C1 (the code).  Every region emitted by [detectCopyMove] lies within
    the image and has a confidence in [0, 1].  Every region emitted by
    [performErrorLevelAnalysis] is a square of side [blockSize = 16] whose
    origin is a pixel of the image on the grid of step 16, with a
    confidence in (0.3, 1]: it lies within the image exactly when its
    cell is not clipped, [x + 16 <= width] and [y + 16 <= height].  Both
    functions return, the first once the decoder has returned an image of
    dimensions other than 0.  (Exact arithmetic.) *)
Theorem emitted_regions_bounds (browser : Browser) (imageData : ImageData)
    (quality : Q) (compressedData : list Z) :
  imgWidth imageData <> 0 -> imgHeight imageData <> 0 ->
  drawCompressedImage browser imageData quality = Some compressedData ->
  (exists res,
      ELA.performErrorLevelAnalysis (num := Q) browser imageData quality
        = Some res /\
      Forall
        (fun r =>
           elaRegionOk (imgWidth imageData) (imgHeight imageData) r /\
           (regionInBounds (imgWidth imageData) (imgHeight imageData) r <->
            x r + ELA.blockSize <= imgWidth imageData /\
            y r + ELA.blockSize <= imgHeight imageData))
        (elaRegions res)) /\
  (exists res,
      CopyMove.detectCopyMove (num := Q) imageData = Some res /\
      Forall (regionInBounds (imgWidth imageData) (imgHeight imageData))
        (cmRegions res)).
Proof.
  intros Hw Hh Hdraw. split.
  - rewrite (performErrorLevelAnalysis_reads browser imageData quality
               compressedData Hw Hh Hdraw).
    destruct (ela_regions_ok (imgWidth imageData) (imgHeight imageData)
                (putImageData browser imageData) compressedData)
      as (res & Hres & Hok).
    exists res. split; [exact Hres|].
    eapply Forall_impl; [exact Hok|]. intros r Hr.
    split; [exact Hr|].
    unfold elaRegionOk, regionInBounds in *.
    destruct Hr as (Hx & _ & Hy & _ & -> & -> & Hlo & Hhi).
    split.
    + intros (_ & _ & Hxw & Hyh & _). split; assumption.
    + intros [Hxw Hyh]. repeat split; try lia; try assumption.
      apply Qlt_le_weak. apply Qlt_trans with (3 # 10); [reflexivity|].
      exact Hlo.
  - destruct (detectCopyMove_invariant
                (regionInBounds (imgWidth imageData) (imgHeight imageData))
                imageData) as (regions & Hres & Hall).
    + intros bi bj Hbi Hbj _ _ c.
      apply extractBlocks_inside in Hbi, Hbj.
      pose proof (similarity_confidence_unit (blockData bi) (blockData bj))
        as Hc.
      unfold regionInBounds, CopyMove.blockSize in *.
      cbn [x y width height confidence].
      repeat split; try lia; apply Hc.
    + eexists. split; [exact Hres | exact Hall].
Qed.

Lemma emitted_regions_bounds_witness :
  (exists res,
      ELA.performErrorLevelAnalysis (num := Q)
        (opaqueBrowser (brighterRoundTrip 12)) narrowImage defaultQuality
        = Some res /\
      Forall
        (fun r =>
           elaRegionOk (imgWidth narrowImage) (imgHeight narrowImage) r /\
           (regionInBounds (imgWidth narrowImage) (imgHeight narrowImage) r
            <-> x r + ELA.blockSize <= imgWidth narrowImage /\
                y r + ELA.blockSize <= imgHeight narrowImage))
        (elaRegions res)) /\
  (exists res,
      CopyMove.detectCopyMove (num := Q) narrowImage = Some res /\
      Forall (regionInBounds (imgWidth narrowImage) (imgHeight narrowImage))
        (cmRegions res)).
Proof.
  apply (emitted_regions_bounds (opaqueBrowser (brighterRoundTrip 12))
           narrowImage defaultQuality
           (brighterRoundTrip 12 narrowImage defaultQuality)).
  - cbn [imgWidth narrowImage uniformImage]. lia.
  - cbn [imgHeight narrowImage uniformImage]. lia.
  - reflexivity.
Defined.

(** C2 (the code at the failing input).  For a 64 by 64 image the loops of
    lines 90-91 extract the single block at (0, 0), whatever the samples,
    while four blocks fit; for a 32 by 32 image they extract none, while
    one fits. *)
Theorem extractBlocks_drops_fitting_blocks (samples : list Z) :
  map blockOrigin (CopyMove.extractBlocks (mkImageData 64 64 samples))
    = [(0, 0)] /\
  CopyMove.fittingOrigins 64 64 = [(0, 0); (32, 0); (0, 32); (32, 32)] /\
  map blockOrigin (CopyMove.extractBlocks (mkImageData 32 32 samples)) = [] /\
  CopyMove.fittingOrigins 32 32 = [(0, 0)].
Proof.
  rewrite !extractBlocks_origins. repeat split; vm_compute; reflexivity.
Qed.

(** No block is extracted from an image without pixels. *)
Lemma extractBlocks_empty (imageData : ImageData) :
  imgWidth imageData = 0 \/ imgHeight imageData = 0 ->
  CopyMove.extractBlocks imageData = [].
Proof.
  intros Hempty. rewrite extractBlocks_flat_map.
  destruct Hempty as [-> | ->].
  - change (forLoop (Z.to_nat 0) (fun x => x <? 0 - CopyMove.blockSize)
              CopyMove.blockSize 0) with (@nil Z).
    generalize (forLoop (Z.to_nat (imgHeight imageData))
                  (fun y => y <? imgHeight imageData - CopyMove.blockSize)
                  CopyMove.blockSize 0) as ys.
    induction ys as [|y ys IH]; [reflexivity | exact IH].
  - reflexivity.
Qed.

(** With fewer than two blocks no pair is compared and nothing is
    reported. *)
Lemma detectCopyMove_few_blocks {num : Type} {arith : JSNumber num}
    (imageData : ImageData) :
  (length (CopyMove.extractBlocks imageData) <= 1)%nat ->
  CopyMove.detectCopyMove (num := num) imageData
  = Some (mkCopyMoveResult [] (ofZ 0)).
Proof.
  intros Hlen. unfold CopyMove.detectCopyMove.
  rewrite compareBlocks_pairs.
  assert (Hpairs : CopyMove.blockPairs
                     (length (CopyMove.extractBlocks imageData)) = []).
  { destruct (length (CopyMove.extractBlocks imageData)) as [|[|n]];
      [reflexivity | reflexivity | lia]. }
  rewrite Hpairs. reflexivity.
Qed.

(** C4 (as stated, refuted).  From the 64 by 64 image of one colour the
    loops of lines 90-91 extract one block, not two, and line 112 runs for
    no pair, not for one. *)
Lemma squareImage_one_block :
  length (CopyMove.extractBlocks squareImage) = 1%nat /\
  length (CopyMove.blockPairs (length (CopyMove.extractBlocks squareImage)))
    = 0%nat.
Proof.
  assert (Hlen : length (CopyMove.extractBlocks squareImage) = 1%nat).
  { rewrite <- (length_map blockOrigin), extractBlocks_origins.
    reflexivity. }
  rewrite Hlen. split; reflexivity.
Qed.

(** C4 (amended).  For a 64 by 64 image of one colour [detectCopyMove]
    reports no region and confidence 0.  The origins of any two blocks
    that fit in such an image are at a squared distance of at most
    [2 * blockSize^2], that is at a distance of at most
    [blockSize * sqrt 2], which does not exceed the separation
    [2 * blockSize] that line 118 asks for. *)
Theorem uniform64_no_region {num : Type} {arith : JSNumber num} (r g b a : Z) :
  CopyMove.detectCopyMove (num := num) (uniformImage 64 64 r g b a)
    = Some (mkCopyMoveResult [] (ofZ 0)) /\
  (forall o1 o2,
      o1 ∈ CopyMove.fittingOrigins 64 64 ->
      o2 ∈ CopyMove.fittingOrigins 64 64 ->
      let d2 := (fst o1 - fst o2) ^ 2 + (snd o1 - snd o2) ^ 2 in
      d2 <= 2 * CopyMove.blockSize ^ 2 /\
      (R_sqrt.sqrt (IZR d2)
       <= IZR CopyMove.blockSize * R_sqrt.sqrt 2)%R /\
      CopyMove.sqrtExceeds d2 (CopyMove.blockSize * 2) = false).
Proof.
  split.
  - apply detectCopyMove_few_blocks.
    rewrite <- (length_map blockOrigin), extractBlocks_origins.
    cbn [imgWidth imgHeight uniformImage]. vm_compute. lia.
  - intros o1 o2 Ho1 Ho2 d2.
    assert (Hd2 : 0 <= d2 <= 2 * CopyMove.blockSize ^ 2).
    { subst d2. change (CopyMove.fittingOrigins 64 64)
        with [(0, 0); (32, 0); (0, 32); (32, 32)] in Ho1, Ho2.
      unfold CopyMove.blockSize.
      repeat (apply elem_of_cons in Ho1 as [-> | Ho1]);
        [| | | | inversion Ho1];
        repeat (apply elem_of_cons in Ho2 as [-> | Ho2]);
        try (inversion Ho2); cbn; lia. }
    split; [apply Hd2|]. split.
    + replace (IZR CopyMove.blockSize * R_sqrt.sqrt 2)%R
        with (R_sqrt.sqrt (IZR (2 * CopyMove.blockSize ^ 2))).
      * apply R_sqrt.sqrt_le_1_alt. apply IZR_le. apply Hd2.
      * change (2 * CopyMove.blockSize ^ 2) with (32 * 32 * 2).
        rewrite !mult_IZR, R_sqrt.sqrt_mult_alt, R_sqrt.sqrt_square;
          [reflexivity | lra | nra].
    + unfold CopyMove.sqrtExceeds, CopyMove.blockSize in *.
      apply orb_false_iff. split; [reflexivity | apply Z.ltb_ge; lia].
Qed.

(** C5 (as stated, refuted).  For the image without pixels
    [detectCopyMove] does not fail: it returns the normal result. *)
Lemma empty_image_returns :
  CopyMove.detectCopyMove (num := Q) emptyImage
    = Some (mkCopyMoveResult [] 0%Q) /\
  CopyMove.detectCopyMove (num := Q) emptyImage <> None.
Proof. split; [vm_compute; reflexivity | discriminate]. Qed.

(** C5 (amended).  For an image of width 0 or height 0
    [performErrorLevelAnalysis] fails before its block loops, whatever the
    browser returns: by the decoder at line 26, or else by the
    IndexSizeError of [getImageData] at line 36.  [detectCopyMove] does not
    fail: its loops run no iteration and it returns no region and
    confidence 0.  The code has no check for empty images. *)
Theorem empty_image_results {num : Type} {arith : JSNumber num}
    (browser : Browser) (imageData : ImageData) (quality : Q) :
  imgWidth imageData = 0 \/ imgHeight imageData = 0 ->
  ELA.performErrorLevelAnalysis (num := num) browser imageData quality
    = None /\
  CopyMove.detectCopyMove (num := num) imageData
    = Some (mkCopyMoveResult [] (ofZ 0)).
Proof.
  intros Hempty. split.
  - apply performErrorLevelAnalysis_fails. tauto.
  - apply detectCopyMove_few_blocks.
    rewrite (extractBlocks_empty imageData Hempty). cbn. lia.
Qed.

Lemma empty_image_results_witness :
  ELA.performErrorLevelAnalysis (num := Q) (opaqueBrowser identityRoundTrip)
    (mkImageData 0 48 []) defaultQuality = None /\
  CopyMove.detectCopyMove (num := Q) (mkImageData 0 48 [])
    = Some (mkCopyMoveResult [] 0%Q).
Proof.
  exact (empty_image_results (num := Q) (opaqueBrowser identityRoundTrip)
           (mkImageData 0 48 []) defaultQuality (or_introl eq_refl)).
Defined.

(** C7.  The heatmap returned by [performErrorLevelAnalysis] has exactly
    [ceil(height / 16)] rows of [ceil(width / 16)] cells, for every image
    of a width and a height other than 0, whatever the canvases hold, and
    for any arithmetic; the analysis returns once the decoder has returned
    an image. *)
Theorem heatmap_dimensions {num : Type} {arith : JSNumber num}
    (browser : Browser) (imageData : ImageData) (quality : Q)
    (compressedData : list Z) (rows cols : Z) :
  imgWidth imageData <> 0 -> imgHeight imageData <> 0 ->
  drawCompressedImage browser imageData quality = Some compressedData ->
  isCeilDiv (imgHeight imageData) ELA.blockSize rows ->
  isCeilDiv (imgWidth imageData) ELA.blockSize cols ->
  exists res,
    ELA.performErrorLevelAnalysis (num := num) browser imageData quality
      = Some res /\
    gridDims (heatmap res) (Z.to_nat rows) (Z.to_nat cols).
Proof.
  intros Hw Hh Hdraw.
  rewrite (performErrorLevelAnalysis_reads browser imageData quality
             compressedData Hw Hh Hdraw).
  unfold isCeilDiv, ELA.blockSize. intros Hrows Hcols.
  destruct (compareCanvases_invariant (fun _ _ => True)
              (imgWidth imageData) (imgHeight imageData)
              (putImageData browser imageData) compressedData)
    as (res & Hres & _ & Hdims); [exact I | intros; exact I |].
  exists res. split; [exact Hres|].
  replace rows with ((imgHeight imageData + 15) / 16) by lia_div.
  replace cols with ((imgWidth imageData + 15) / 16) by lia_div.
  exact Hdims.
Qed.

Lemma heatmap_dimensions_witness :
  exists res,
    ELA.performErrorLevelAnalysis (num := Q)
      (opaqueBrowser (brighterRoundTrip 12)) narrowImage defaultQuality
      = Some res /\
    gridDims (heatmap res) 1 2.
Proof.
  apply (heatmap_dimensions (num := Q)
           (opaqueBrowser (brighterRoundTrip 12)) narrowImage
           defaultQuality
           (brighterRoundTrip 12 narrowImage defaultQuality) 1 2);
    first [reflexivity
          | unfold isCeilDiv, ELA.blockSize, narrowImage, uniformImage;
            cbn [imgHeight imgWidth]; lia].
Defined.

(** The cells of identical canvases, for an arithmetic in which a zero
    difference over 1 to 256 pixels normalizes to a zero that is not
    above 0.3. *)
Lemma identical_canvases_cells {num : Type} {arith : JSNumber num}
    (isZero : num -> Prop) (canvasWidth canvasHeight : Z)
    (samples : list Z) :
  isZero (ofZ 0) ->
  (forall pixelCount,
      1 <= pixelCount <= 256 ->
      isZero (ELA.normalizedDiff 0 pixelCount) /\
      ltb (decimal 3 10) (ELA.normalizedDiff 0 pixelCount) = false) ->
  exists res,
    ELA.compareCanvases (num := num) canvasWidth canvasHeight samples samples
      = Some res /\
    elaRegions res = [] /\
    Forall (Forall isZero) (heatmap res).
Proof.
  intros Hzero Hcell0.
  destruct (compareCanvases_invariant
              (fun regions heatmap =>
                 regions = [] /\ Forall (Forall isZero) heatmap)
              canvasWidth canvasHeight samples samples)
    as (res & Hres & [Hregions Hcells] & _).
  - split; [reflexivity|]. unfold ELA.newHeatmap.
    apply Forall_replicate, Forall_replicate. exact Hzero.
  - intros regions heatmap cx cy diffSum pixelCount row [-> Hcells] Hx Hy
      Hcell Hrow _ v.
    pose proof (elaCell_identical canvasWidth canvasHeight samples cx cy)
      as Hd.
    pose proof (elaCell_pixelCount_pos canvasWidth canvasHeight samples
                  samples cx cy Hx Hy) as Hlo.
    pose proof (elaCell_pixelCount_le canvasWidth canvasHeight samples
                  samples cx cy) as Hhi.
    rewrite Hcell in Hd, Hlo, Hhi. cbn [fst snd] in Hd, Hlo, Hhi.
    subst diffSum v.
    destruct (Hcell0 pixelCount (conj Hlo Hhi)) as [Hv Hlt].
    rewrite Hlt. split; [reflexivity|].
    apply Forall_insert; [exact Hcells|].
    apply Forall_insert; [|exact Hv].
    exact (Forall_lookup_1 _ _ _ _ Hcells Hrow).
  - exists res. split; [exact Hres|]. split; [exact Hregions | exact Hcells].
Qed.

(** C8.  When the round trip returns the original samples, so that
    [compressedCanvas] holds what [canvas] holds, [performErrorLevelAnalysis]
    returns no region and a heatmap whose every cell is 0: in exact
    arithmetic, and in the binary64 arithmetic of JavaScript.  (For an
    image of a width and a height other than 0: see C5.) *)
Theorem identical_round_trip_no_difference
    (browser : Browser) (imageData : ImageData) (quality : Q) :
  imgWidth imageData <> 0 -> imgHeight imageData <> 0 ->
  drawCompressedImage browser imageData quality
  = Some (putImageData browser imageData) ->
  (exists res,
      ELA.performErrorLevelAnalysis (num := Q) browser imageData quality
        = Some res /\
      elaRegions res = [] /\
      Forall (Forall (fun v => v == 0)%Q) (heatmap res)) /\
  (exists res,
      ELA.performErrorLevelAnalysis (arith := binary64) browser imageData
        quality = Some res /\
      elaRegions res = [] /\
      Forall (Forall (fun v => v = 0%float)) (heatmap res)).
Proof.
  intros Hw Hh Hsame.
  rewrite !(performErrorLevelAnalysis_reads browser imageData quality
              (putImageData browser imageData) Hw Hh Hsame).
  split.
  - apply identical_canvases_cells; [reflexivity|].
    intros pixelCount _.
    pose proof (normalizedDiff_zero pixelCount) as Hv.
    split; [exact Hv|].
    destruct (ltb (decimal 3 10) (ELA.normalizedDiff 0 pixelCount)) eqn:Hlt;
      [|reflexivity].
    apply ltb_exact in Hlt. rewrite Hv in Hlt. discriminate Hlt.
  - apply (identical_canvases_cells (arith := binary64)); [reflexivity|].
    exact normalizedDiff_zero_binary64.
Qed.

Lemma identical_round_trip_no_difference_witness :
  (exists res,
      ELA.performErrorLevelAnalysis (num := Q)
        (opaqueBrowser identityRoundTrip) narrowImage defaultQuality
        = Some res /\
      elaRegions res = [] /\
      Forall (Forall (fun v => v == 0)%Q) (heatmap res)) /\
  (exists res,
      ELA.performErrorLevelAnalysis (arith := binary64)
        (opaqueBrowser identityRoundTrip) narrowImage defaultQuality
        = Some res /\
      elaRegions res = [] /\
      Forall (Forall (fun v => v = 0%float)) (heatmap res)).
Proof.
  apply (identical_round_trip_no_difference
           (opaqueBrowser identityRoundTrip) narrowImage defaultQuality).
  - cbn [imgWidth narrowImage uniformImage]. lia.
  - cbn [imgHeight narrowImage uniformImage]. lia.
  - reflexivity.
Defined.

(** C9.  Every region emitted by [detectCopyMove] has a confidence above
    [1 - threshold / 255 = 250 / 255], and the overall confidence is 0 or
    above [250 / 255]; the detection returns.  (Exact arithmetic.) *)
Theorem copy_move_confidence_above_threshold (imageData : ImageData) :
  exists res,
    CopyMove.detectCopyMove (num := Q) imageData = Some res /\
    Forall (fun r => 250 # 255 < confidence r)%Q (cmRegions res) /\
    (cmConfidence res == 0 \/ 250 # 255 < cmConfidence res)%Q.
Proof.
  destruct (detectCopyMove_invariant
              (fun r : Region Q => 250 # 255 < confidence r)%Q imageData)
    as (regions & Hres & Hall).
  - intros bi bj _ _ Hsim _ c. cbn [confidence].
    split; apply similar_confidence; exact Hsim.
  - eexists. split; [exact Hres|]. cbn [cmRegions cmConfidence].
    split; [exact Hall|].
    destruct (0 <? Z.of_nat (length regions)) eqn:Hlen.
    + right. apply meanConfidence_above; [|exact Hall].
      apply Z.ltb_lt in Hlen. lia.
    + left. reflexivity.
Qed.
End DetectorClaims.

(** ** Claims about calculateOverallConfidence *)

Section AggregatorClaims.
Local Open Scope Q_scope.

(** C3 (as stated, refuted).  With eleven warnings and no other signal the
    metadata factor is [1 - 11 * 0.1 < 0] and the aggregate is negative:
    -10 in exact arithmetic, and below 0 in binary64 as well. *)
Lemma overall_confidence_negative :
  ~ (0 <= calculateOverallConfidence (num := Q) [] 0
            (Some (mkMetadata true elevenWarnings)) <= 100)%Q /\
  calculateOverallConfidence (num := Q) [] 0
    (Some (mkMetadata true elevenWarnings)) == -10 /\
  PrimFloat.ltb
    (calculateOverallConfidence (arith := binary64) [] (float_ofZ 0)
       (Some (mkMetadata true elevenWarnings)))
    (float_ofZ 0) = true.
Proof.
  split; [|split].
  - intros [Hlo _]. vm_compute in Hlo. apply Hlo. reflexivity.
  - vm_compute. reflexivity.
  - vm_compute. reflexivity.
Qed.

(** C3 (amended).  For confidences in [0, 1] and at most ten warnings the
    aggregate lies in [0, 100] (exact arithmetic). *)
Theorem overall_confidence_in_range (elaRegions : list (Region Q))
    (copyMoveConfidence : Q) (metadata : MetadataCues) :
  (forall r, r ∈ elaRegions -> 0 <= confidence r <= 1)%Q ->
  (0 <= copyMoveConfidence <= 1)%Q ->
  (length (warnings metadata) <= 10)%nat ->
  (0 <= calculateOverallConfidence elaRegions copyMoveConfidence
          (Some metadata) <= 100)%Q.
Proof.
  intros Hela Hcm Hw.
  pose proof (metadataFactor_range metadata Hw) as Hmf.
  unfold calculateOverallConfidence, confidenceFactors.
  destruct (0 <? Z.of_nat (length elaRegions))%Z eqn:He;
    destruct (ltb (ofZ 0) copyMoveConfidence) eqn:Hc;
    exact_ops.
  all: try change (0 + 1 + 1 + 1)%Z with 3%Z.
  all: try change (0 + 1 + 1)%Z with 2%Z.
  all: try change (0 + 1)%Z with 1%Z.
  all: try change (0 <? 3)%Z with true; try change (0 <? 2)%Z with true;
    try change (0 <? 1)%Z with true; cbv iota.
  all: try (assert (Hm : 0 <= meanConfidence elaRegions <= 1)
             by (apply meanConfidence_range; [exact Hela | lia])).
  all: set (mf := metadataFactor metadata) in *.
  all: try set (m := meanConfidence elaRegions) in *.
  all: change (inject_Z 0) with 0; change (inject_Z 100) with 100.
  all: try change (inject_Z 1) with 1; try change (inject_Z 2) with 2;
    try change (inject_Z 3) with 3.
  all: unfold Qdiv; change (/ 1) with 1; change (/ 2) with (1 # 2);
    change (/ 3) with (1 # 3).
  all: lra.
Qed.

Lemma overall_confidence_in_range_witness :
  (0 <= calculateOverallConfidence (num := Q)
          [mkRegion 0 0 16 16 (1 # 2)] 1
          (Some (mkMetadata false threeWarnings)) <= 100)%Q.
Proof.
  apply overall_confidence_in_range.
  - intros r Hr. apply list_elem_of_singleton in Hr. subst r.
    cbn [confidence]. split; discriminate.
  - split; discriminate.
  - cbn. lia.
Defined.

(** C6 (as stated, refuted).  With [exifData] missing and three warnings
    the value computed in binary64 differs from 49: [result === 49] is
    false, the result being 48.999999999999993. *)
Lemma overall_confidence_three_warnings_binary64 :
  PrimFloat.eqb
    (calculateOverallConfidence (arith := binary64) [] (float_ofZ 0)
       (Some (mkMetadata false threeWarnings)))
    49%float = false.
Proof. vm_compute. reflexivity. Qed.

(** C6 (amended).  With no ELA region and copy-move confidence 0: for
    [exifData] present and no warning the result is exactly 100, in exact
    arithmetic and in binary64; for [exifData] missing and three warnings
    the metadata factor is 0.49 and the result 49 in exact arithmetic,
    while binary64 rounds the factor to 0.48999999999999994 and returns
    48.999999999999993, less than 49 by under 1e-13. *)
Theorem overall_confidence_metadata_only :
  calculateOverallConfidence (num := Q) [] 0 (Some (mkMetadata true []))
    == 100 /\
  calculateOverallConfidence (arith := binary64) [] (float_ofZ 0)
    (Some (mkMetadata true [])) = 100%float /\
  metadataFactor (num := Q) (mkMetadata false threeWarnings) == 49 # 100 /\
  calculateOverallConfidence (num := Q) [] 0
    (Some (mkMetadata false threeWarnings)) == 49 /\
  metadataFactor (arith := binary64) (mkMetadata false threeWarnings)
    = 0.48999999999999994%float /\
  calculateOverallConfidence (arith := binary64) [] (float_ofZ 0)
    (Some (mkMetadata false threeWarnings)) = 48.999999999999993%float /\
  PrimFloat.ltb (49 - 1e-13)%float
    (calculateOverallConfidence (arith := binary64) [] (float_ofZ 0)
       (Some (mkMetadata false threeWarnings))) = true /\
  PrimFloat.ltb
    (calculateOverallConfidence (arith := binary64) [] (float_ofZ 0)
       (Some (mkMetadata false threeWarnings))) 49%float = true.
Proof. repeat split; vm_compute; reflexivity. Qed.

(** C10.  When a metadata object is passed, [factors] is at least 1 on
    reaching line 212, so the result is [(confidence / factors) * 100] and
    the fallback [0] is not taken; this holds for any arithmetic. *)
Theorem metadata_factor_counted {num : Type} {arith : JSNumber num}
    (elaRegions : list (Region num)) (copyMoveConfidence : num)
    (metadata : MetadataCues) :
  (1 <= snd (confidenceFactors elaRegions copyMoveConfidence
               (Some metadata)))%Z /\
  calculateOverallConfidence elaRegions copyMoveConfidence (Some metadata) =
    mul (div (fst (confidenceFactors elaRegions copyMoveConfidence
                     (Some metadata)))
             (ofZ (snd (confidenceFactors elaRegions copyMoveConfidence
                          (Some metadata)))))
        (ofZ 100).
Proof.
  unfold calculateOverallConfidence, confidenceFactors.
  destruct (0 <? Z.of_nat (length elaRegions))%Z;
    destruct (ltb (ofZ 0) copyMoveConfidence);
    cbn [fst snd]; split; first [lia | reflexivity].
Qed.
End AggregatorClaims.

(** ** Loops: how many iterations, and each value once *)

Section LoopCounts.
Local Open Scope Z_scope.

Lemma forLoop_map_seq (fuel : nat) (cond : Z -> bool) (step v0 : Z) :
  forLoop fuel cond step v0 =
  map (fun k : nat => v0 + step * Z.of_nat k)
    (seq 0 (length (forLoop fuel cond step v0))).
Proof.
  revert v0. induction fuel as [|fuel IH]; intros v0; cbn [forLoop].
  - reflexivity.
  - destruct (cond v0); [|reflexivity].
    cbn [length seq map]. f_equal; [lia|].
    rewrite (IH (v0 + step)) at 1. rewrite <- seq_shift, map_map.
    apply map_ext. intros k. lia.
Qed.

Lemma forLoop_NoDup (fuel : nat) (cond : Z -> bool) (step v0 : Z) :
  0 < step -> NoDup (forLoop fuel cond step v0).
Proof.
  intros Hstep. rewrite forLoop_map_seq.
  apply NoDup_fmap_2_strong; [|apply NoDup_seq].
  intros k1 k2 _ _ Heq. nia.
Qed.

(** The number of iterations of a loop with a strict upper bound. *)
Lemma forLoop_length (fuel : nat) (cond : Z -> bool) (step v0 limit : Z) :
  0 < step ->
  (forall u, cond u = true <-> u < limit) ->
  limit - v0 <= Z.of_nat fuel ->
  Z.of_nat (length (forLoop fuel cond step v0))
  = Z.max 0 ((limit - v0 + step - 1) / step).
Proof.
  intros Hstep Hc. revert v0.
  induction fuel as [|fuel IH]; intros v0 Hfuel; cbn [forLoop].
  - cbn [length].
    assert ((limit - v0 + step - 1) / step <= 0).
    { apply Z.lt_succ_r. apply Z.div_lt_upper_bound; lia. }
    lia.
  - destruct (cond v0) eqn:Hc0.
    + apply Hc in Hc0. cbn [length]. rewrite Nat2Z.inj_succ, IH by lia.
      replace (limit - v0 + step - 1)
        with (limit - (v0 + step) + step - 1 + 1 * step) by lia.
      rewrite Z.div_add by lia.
      assert (0 <= (limit - (v0 + step) + step - 1) / step).
      { apply Z.div_pos; lia. }
      lia.
    + assert (~ v0 < limit) by (rewrite <- Hc, Hc0; discriminate).
      cbn [length].
      assert ((limit - v0 + step - 1) / step <= 0).
      { apply Z.lt_succ_r. apply Z.div_lt_upper_bound; lia. }
      lia.
Qed.
End LoopCounts.

(** ** Further properties: the block grid and the compared pairs *)

Section GridProperties.
Local Open Scope Z_scope.

Lemma NoDup_grid (xs ys : list Z) :
  NoDup xs -> NoDup ys ->
  NoDup (flat_map (fun y => map (fun x => (x, y)) xs) ys).
Proof.
  intros Hxs Hys. induction Hys as [|y ys Hy _ IH]; cbn [flat_map].
  - constructor.
  - apply NoDup_app. split; [|split; [|exact IH]].
    + apply NoDup_fmap_2_strong; [|exact Hxs].
      intros x1 x2 _ _ Heq. inversion Heq. reflexivity.
    + intros [x' y'] Hin1 Hin2.
      apply list_elem_of_In, in_map_iff in Hin1 as (x1 & Heq & _).
      inversion Heq; subst.
      apply list_elem_of_In, in_flat_map in Hin2 as (y2 & Hy2 & Hin2).
      apply in_map_iff in Hin2 as (x2 & Heq2 & _). inversion Heq2; subst.
      apply Hy. apply list_elem_of_In. exact Hy2.
Qed.

Lemma length_grid {A B C : Type} (f : A -> B -> C) (xs : list A)
    (ys : list B) :
  length (flat_map (fun y => map (fun x => f x y) xs) ys)
  = (length ys * length xs)%nat.
Proof.
  induction ys as [|y ys IH]; [reflexivity|].
  cbn [flat_map length]. rewrite length_app, length_map, IH. lia.
Qed.

(** X1.  The blocks that [detectCopyMove] extracts are exactly those whose
    origin lies on the grid of step 32 with [x + 32 < width] and
    [y + 32 < height], each extracted once. *)
Theorem extracted_block_origins (imageData : ImageData) :
  NoDup (map blockOrigin (CopyMove.extractBlocks imageData)) /\
  forall ox oy,
    (ox, oy) ∈ map blockOrigin (CopyMove.extractBlocks imageData) <->
    (0 <= ox /\ ox mod 32 = 0 /\ ox + 32 < imgWidth imageData) /\
    (0 <= oy /\ oy mod 32 = 0 /\ oy + 32 < imgHeight imageData).
Proof.
  split.
  - rewrite extractBlocks_origins.
    apply NoDup_grid; apply forLoop_NoDup; reflexivity.
  - intros ox oy. rewrite extractBlocks_origin_iff.
    unfold CopyMove.blockSize. tauto.
Qed.

(** X2.  The number of extracted blocks is
    [floor((width - 1) / 32) * floor((height - 1) / 32)], and none when a
    dimension is below 33. *)
Theorem extracted_block_count (imageData : ImageData) :
  Z.of_nat (length (CopyMove.extractBlocks imageData))
  = Z.max 0 ((imgWidth imageData - 1) / 32)
    * Z.max 0 ((imgHeight imageData - 1) / 32).
Proof.
  rewrite <- (length_map blockOrigin), extractBlocks_origins, length_grid.
  rewrite Nat2Z.inj_mul.
  assert (Hlen : forall limit,
             Z.of_nat (length
                         (forLoop (Z.to_nat limit)
                            (fun v => v <? limit - CopyMove.blockSize)
                            CopyMove.blockSize 0))
             = Z.max 0 ((limit - 1) / 32)).
  { intros limit.
    rewrite (forLoop_length _ _ _ _ (limit - CopyMove.blockSize));
      unfold CopyMove.blockSize;
      [| lia | intros u; apply Z.ltb_lt | lia].
    replace (limit - 32 - 0 + 32 - 1) with (limit - 1) by lia.
    reflexivity. }
  rewrite !Hlen. lia.
Qed.

Lemma blockPairs_length_from (n : nat) (g : Z -> list (Z * Z)) (m a : nat) :
  (a + m = n)%nat ->
  (forall k : nat, (k < n)%nat ->
     Z.of_nat (length (g (Z.of_nat k))) = Z.of_nat n - 1 - Z.of_nat k) ->
  2 * Z.of_nat (length (flat_map g (map Z.of_nat (seq a m))))
  = Z.of_nat m * (Z.of_nat m - 1).
Proof.
  intros Ham Hg. revert a Ham.
  induction m as [|m IH]; intros a Ham; [reflexivity|].
  cbn [seq map flat_map]. rewrite length_app, Nat2Z.inj_add.
  rewrite Hg by lia. specialize (IH (S a) ltac:(lia)). nia.
Qed.

(** X3.  The comparison loops of [detectCopyMove] run line 112 once for
    every pair [i < j] of block indices, [n * (n - 1) / 2] times for [n]
    blocks. *)
Theorem compared_pairs_once {num : Type} {arith : JSNumber num}
    (blocks : list Block) :
  CopyMove.compareBlocks (num := num) blocks
  = foldM (fun regions '(i, j) => CopyMove.compareStep blocks i regions j)
      (CopyMove.blockPairs (length blocks)) [] /\
  NoDup (CopyMove.blockPairs (length blocks)) /\
  (forall i j,
     (i, j) ∈ CopyMove.blockPairs (length blocks) <->
     0 <= i < j /\ j < Z.of_nat (length blocks)) /\
  2 * Z.of_nat (length (CopyMove.blockPairs (length blocks)))
  = Z.of_nat (length blocks) * (Z.of_nat (length blocks) - 1).
Proof.
  split; [apply compareBlocks_pairs|].
  split; [|split; [intros i j; apply blockPairs_elem|]].
  - unfold CopyMove.blockPairs.
    set (n := length blocks).
    assert (Hdisj : forall is_ : list Z,
               NoDup is_ ->
               NoDup (flat_map
                        (fun i => map (fun j => (i, j))
                                    (forLoop n (fun j => j <? Z.of_nat n) 1
                                       (i + 1))) is_)).
    { intros is_ His. induction His as [|i is_ Hi _ IH]; cbn [flat_map].
      - constructor.
      - apply NoDup_app. split; [|split; [|exact IH]].
        + apply NoDup_fmap_2_strong; [|apply forLoop_NoDup; reflexivity].
          intros j1 j2 _ _ Heq. inversion Heq. reflexivity.
        + intros [i' j'] Hin1 Hin2.
          apply list_elem_of_In, in_map_iff in Hin1 as (j1 & Heq & _).
          inversion Heq; subst.
          apply list_elem_of_In, in_flat_map in Hin2 as (i2 & Hi2 & Hin2).
          apply in_map_iff in Hin2 as (j2 & Heq2 & _). inversion Heq2; subst.
          apply Hi. apply list_elem_of_In. exact Hi2. }
    apply Hdisj. apply forLoop_NoDup. reflexivity.
  - unfold CopyMove.blockPairs. set (n := length blocks).
    rewrite (forLoop_map_seq n (fun i => i <? Z.of_nat n) 1 0).
    assert (Hlen : length (forLoop n (fun i => i <? Z.of_nat n) 1 0) = n).
    { apply Nat2Z.inj.
      rewrite (forLoop_length _ _ _ _ (Z.of_nat n));
        [| lia | intros u; apply Z.ltb_lt | lia].
      rewrite Z.div_1_r. lia. }
    rewrite Hlen.
    rewrite (map_ext (fun k : nat => 0 + 1 * Z.of_nat k) Z.of_nat)
      by (intros k; lia).
    apply (blockPairs_length_from n); [lia|].
    intros k Hk. rewrite length_map.
    rewrite (forLoop_length _ _ _ _ (Z.of_nat n));
      [| lia | intros u; apply Z.ltb_lt | lia].
    rewrite Z.div_1_r. lia.
Qed.
End GridProperties.

(** ** Further properties: what detectCopyMove reports *)

Section ReportedPairs.
Local Open Scope Z_scope.

(** X4.  The regions of [detectCopyMove] come in pairs: each pair is made
    of two extracted blocks that passed the similarity test and whose
    origins are more than [2 * blockSize = 64] pixels apart, and its two
    regions are the 32 by 32 squares of these blocks, with one confidence.
    The overall confidence is the mean over the regions, or 0 without
    any. *)
Theorem reported_regions_are_far_pairs {num : Type} {arith : JSNumber num}
    (imageData : ImageData) :
  exists res pairs,
    CopyMove.detectCopyMove (num := num) imageData = Some res /\
    cmRegions res = flat_map pairRegions pairs /\
    Forall
      (fun pair : Block * Block =>
         fst pair ∈ CopyMove.extractBlocks imageData /\
         snd pair ∈ CopyMove.extractBlocks imageData /\
         CopyMove.areBlocksSimilar (blockData (fst pair))
           (blockData (snd pair)) (ofZ CopyMove.threshold) = true /\
         64 * 64 < CopyMove.squaredDistance (fst pair) (snd pair))
      pairs /\
    cmConfidence res
    = match pairs with
      | [] => ofZ 0
      | _ :: _ => meanConfidence (cmRegions res)
      end.
Proof.
  set (blocks := CopyMove.extractBlocks imageData).
  set (ok := fun pair : Block * Block =>
               fst pair ∈ blocks /\ snd pair ∈ blocks /\
               CopyMove.areBlocksSimilar (blockData (fst pair))
                 (blockData (snd pair)) (ofZ CopyMove.threshold) = true /\
               64 * 64 < CopyMove.squaredDistance (fst pair) (snd pair)).
  destruct (foldM_invariant
              (fun regions '(i, j) =>
                 CopyMove.compareStep (num := num) blocks i regions j)
              (fun regions =>
                 exists pairs,
                   regions = flat_map pairRegions pairs /\ Forall ok pairs)
              (fun ij => 0 <= fst ij < snd ij
                         /\ snd ij < Z.of_nat (length blocks))
              (CopyMove.blockPairs (length blocks)) [])
    as (regions & Hres & pairs & Hregions & Hpairs).
  - apply Forall_forall. intros [i j] Hij.
    apply blockPairs_elem in Hij. exact Hij.
  - exists []. split; [reflexivity | constructor].
  - intros regions [i j] (pairs & -> & Hpairs) [Hi Hj].
    cbn [fst snd] in Hi, Hj. unfold CopyMove.compareStep.
    destruct (lookup_lt_is_Some_2 blocks (Z.to_nat i)) as [bi Hbi]; [lia|].
    destruct (lookup_lt_is_Some_2 blocks (Z.to_nat j)) as [bj Hbj]; [lia|].
    rewrite Hbi, Hbj.
    destruct (CopyMove.areBlocksSimilar _ _ _) eqn:Hsim;
      [|eexists; split; [reflexivity | exists pairs; split; [reflexivity | exact Hpairs]]].
    destruct (CopyMove.sqrtExceeds _ _) eqn:Hfar;
      [|eexists; split; [reflexivity | exists pairs; split; [reflexivity | exact Hpairs]]].
    eexists. split; [reflexivity|].
    exists (pairs ++ [(bi, bj)]). split.
    + rewrite flat_map_app. cbn [flat_map pairRegions].
      rewrite app_nil_r. reflexivity.
    + apply Forall_app. split; [exact Hpairs|].
      apply Forall_singleton. unfold ok. cbn [fst snd].
      split; [exact (list_elem_of_lookup_2 _ _ _ Hbi)|].
      split; [exact (list_elem_of_lookup_2 _ _ _ Hbj)|].
      split; [exact Hsim|].
      unfold CopyMove.sqrtExceeds, CopyMove.blockSize in Hfar.
      apply orb_true_iff in Hfar as [Hneg | Hfar];
        [discriminate Hneg | apply Z.ltb_lt in Hfar; lia].
  - exists (mkCopyMoveResult regions
              (if 0 <? Z.of_nat (length regions)
               then meanConfidence regions else ofZ 0)), pairs.
    split.
    + unfold CopyMove.detectCopyMove. fold blocks.
      rewrite compareBlocks_pairs, Hres. reflexivity.
    + cbn [cmRegions cmConfidence].
      split; [exact Hregions|]. split; [exact Hpairs|].
      rewrite Hregions. destruct pairs as [|[bi bj] pairs]; reflexivity.
Qed.

(** Without a pair of blocks more than [2 * blockSize] apart nothing is
    reported. *)
Lemma detectCopyMove_no_far_pair {num : Type} {arith : JSNumber num}
    (imageData : ImageData) :
  (forall bi bj,
      bi ∈ CopyMove.extractBlocks imageData ->
      bj ∈ CopyMove.extractBlocks imageData ->
      CopyMove.sqrtExceeds (CopyMove.squaredDistance bi bj)
        (CopyMove.blockSize * 2) = false) ->
  CopyMove.detectCopyMove (num := num) imageData
  = Some (mkCopyMoveResult [] (ofZ 0)).
Proof.
  intros Hclose.
  destruct (detectCopyMove_invariant (num := num) (fun _ => False) imageData)
    as (regions & Hres & Hall).
  - intros bi bj Hbi Hbj _ Hfar c. exfalso.
    rewrite (Hclose bi bj Hbi Hbj) in Hfar. discriminate Hfar.
  - rewrite Hres. destruct regions as [|r regions]; [reflexivity|].
    inversion Hall as [|? ? Hfalse _]. destruct Hfalse.
Qed.

(** The blocks of an image that is at most 96 by 96, 128 by 64 or 64 by
    128 pixels are at most 64 pixels apart. *)
Lemma small_image_blocks_close (imageData : ImageData) (bi bj : Block) :
  (imgWidth imageData <= 96 /\ imgHeight imageData <= 96) \/
  (imgWidth imageData <= 128 /\ imgHeight imageData <= 64) \/
  (imgWidth imageData <= 64 /\ imgHeight imageData <= 128) ->
  bi ∈ CopyMove.extractBlocks imageData ->
  bj ∈ CopyMove.extractBlocks imageData ->
  CopyMove.sqrtExceeds (CopyMove.squaredDistance bi bj)
    (CopyMove.blockSize * 2) = false.
Proof.
  intros Hsmall Hbi Hbj.
  assert (Hoi : (blockX bi, blockY bi)
                ∈ map blockOrigin (CopyMove.extractBlocks imageData)).
  { apply list_elem_of_In, in_map_iff. exists bi.
    split; [reflexivity | apply list_elem_of_In; exact Hbi]. }
  assert (Hoj : (blockX bj, blockY bj)
                ∈ map blockOrigin (CopyMove.extractBlocks imageData)).
  { apply list_elem_of_In, in_map_iff. exists bj.
    split; [reflexivity | apply list_elem_of_In; exact Hbj]. }
  apply extractBlocks_origin_iff in Hoi, Hoj.
  unfold CopyMove.sqrtExceeds, CopyMove.squaredDistance,
    CopyMove.blockSize in *.
  apply orb_false_iff. split; [reflexivity|].
  apply Z.ltb_ge. rewrite !Z.pow_2_r.
  destruct Hsmall as [[Hw Hh] | [[Hw Hh] | [Hw Hh]]].
  - assert (0 <= blockX bi <= 32 /\ 0 <= blockX bj <= 32) by lia_div.
    assert (0 <= blockY bi <= 32 /\ 0 <= blockY bj <= 32) by lia_div.
    nia.
  - assert (0 <= blockX bi <= 64 /\ 0 <= blockX bj <= 64) by lia_div.
    assert (blockY bi = 0 /\ blockY bj = 0) by lia_div.
    nia.
  - assert (blockX bi = 0 /\ blockX bj = 0) by lia_div.
    assert (0 <= blockY bi <= 64 /\ 0 <= blockY bj <= 64) by lia_div.
    nia.
Qed.

(** X5.  An image that is at most 96 by 96, 128 by 64 or 64 by 128 pixels
    never yields a copy-move region, whatever its content: no two of its
    blocks are more than 64 pixels apart. *)
Theorem no_detection_in_small_images {num : Type} {arith : JSNumber num}
    (imageData : ImageData) :
  (imgWidth imageData <= 96 /\ imgHeight imageData <= 96) \/
  (imgWidth imageData <= 128 /\ imgHeight imageData <= 64) \/
  (imgWidth imageData <= 64 /\ imgHeight imageData <= 128) ->
  CopyMove.detectCopyMove (num := num) imageData
  = Some (mkCopyMoveResult [] (ofZ 0)).
Proof.
  intros Hsmall. apply detectCopyMove_no_far_pair. intros bi bj.
  apply small_image_blocks_close. exact Hsmall.
Qed.

Lemma no_detection_in_small_images_witness :
  CopyMove.detectCopyMove (num := Q) (uniformImage 96 96 10 20 30 255)
  = Some (mkCopyMoveResult [] (ofZ 0)).
Proof.
  apply (no_detection_in_small_images (num := Q)
           (uniformImage 96 96 10 20 30 255)).
  left. cbn [imgWidth imgHeight uniformImage]. lia.
Defined.
End ReportedPairs.

(** ** Further properties: the samples of a block *)

Section BlockContent.
Local Open Scope Z_scope.

Lemma sample_insert_eq (array : list Z) (i : Z) (v : Z) :
  0 <= i < Z.of_nat (length array) ->
  sample (<[Z.to_nat i := v]> array) i = v.
Proof.
  intros Hi. unfold sample.
  rewrite list_lookup_insert_eq by lia. reflexivity.
Qed.

Lemma sample_insert_ne (array : list Z) (i j : Z) (v : Z) :
  0 <= i -> 0 <= j -> i <> j ->
  sample (<[Z.to_nat i := v]> array) j = sample array j.
Proof.
  intros Hi Hj Hne. unfold sample.
  rewrite list_lookup_insert_ne by lia. reflexivity.
Qed.

Variable imageData : ImageData.
Variables x y : Z.

Lemma copyPixel_spec (by_ bx : Z) (blockData : list Z) (idx : Z) :
  0 <= idx -> idx + 4 <= Z.of_nat (length blockData) ->
  snd (copyPixel imageData x y by_ (blockData, idx) bx) = idx + 4 /\
  length (fst (copyPixel imageData x y by_ (blockData, idx) bx)) = length blockData /\
  (forall i, 0 <= i -> i < idx \/ idx + 4 <= i ->
     sample (fst (copyPixel imageData x y by_ (blockData, idx) bx)) i = sample blockData i) /\
  (forall c, 0 <= c < 4 ->
     sample (fst (copyPixel imageData x y by_ (blockData, idx) bx)) (idx + c)
     = blockSource imageData x y by_ bx c).
Proof.
  intros Hidx Hlen. unfold copyPixel, blockSource. cbn [fst snd].
  split; [lia|]. split; [rewrite !length_insert; reflexivity|]. split.
  - intros i Hi Hout. rewrite !sample_insert_ne by lia. reflexivity.
  - intros c Hc.
    assert (Hcases : c = 0 \/ c = 1 \/ c = 2 \/ c = 3) by lia.
    destruct Hcases as [-> | [-> | [-> | ->]]].
    + rewrite !Z.add_0_r, !sample_insert_ne by lia.
      apply sample_insert_eq. lia.
    + rewrite !sample_insert_ne by lia.
      apply sample_insert_eq. rewrite length_insert. lia.
    + replace (idx + 2) with (idx + 1 + 1) by lia.
      rewrite !sample_insert_ne by lia.
      replace ((((y + by_) * imgWidth imageData + (x + bx)) * 4 + (1 + 1)))
        with (((y + by_) * imgWidth imageData + (x + bx)) * 4 + 2) by lia.
      apply sample_insert_eq. rewrite !length_insert. lia.
    + replace (idx + 3) with (idx + 1 + 1 + 1) by lia.
      replace ((((y + by_) * imgWidth imageData + (x + bx)) * 4
                + (1 + 1 + 1)))
        with (((y + by_) * imgWidth imageData + (x + bx)) * 4 + 3) by lia.
      apply sample_insert_eq. rewrite !length_insert. lia.
Qed.

(** One row of the block: the loop over [bx]. *)
Lemma copyRow_spec (by_ : Z) (bxs : list Z) (blockData : list Z) (idx : Z) :
  0 <= idx ->
  idx + 4 * Z.of_nat (length bxs) <= Z.of_nat (length blockData) ->
  let r := fold_left (copyPixel imageData x y by_) bxs (blockData, idx) in
  snd r = idx + 4 * Z.of_nat (length bxs) /\
  length (fst r) = length blockData /\
  (forall i, 0 <= i -> i < idx \/ idx + 4 * Z.of_nat (length bxs) <= i ->
     sample (fst r) i = sample blockData i) /\
  (forall (k : nat) c, (k < length bxs)%nat -> 0 <= c < 4 ->
     sample (fst r) (idx + 4 * Z.of_nat k + c)
     = blockSource imageData x y by_ (nth k bxs 0) c).
Proof.
  revert blockData idx.
  induction bxs as [|bx bxs IH]; intros blockData idx Hidx Hlen r.
  - subst r. cbn [fold_left fst snd length].
    split; [lia|]. split; [reflexivity|].
    split; [reflexivity | intros k c Hk; cbn in Hk; lia].
  - subst r. cbn [fold_left]. cbn [length] in Hlen.
    destruct (copyPixel_spec by_ bx blockData idx Hidx ltac:(lia))
      as (Hs & Hl & Hframe & Hcontent).
    destruct (copyPixel imageData x y by_ (blockData, idx) bx) as [blockData1 idx1].
    cbn [fst snd] in Hs, Hl, Hframe, Hcontent. subst idx1.
    destruct (IH blockData1 (idx + 4) ltac:(lia) ltac:(lia))
      as (Hs' & Hl' & Hframe' & Hcontent').
    cbn [length]. split; [lia|]. split; [lia|]. split.
    + intros i Hi Hout. rewrite Hframe' by lia. apply Hframe; lia.
    + intros [|k] c Hk Hc.
      * cbn [nth]. rewrite Hframe' by lia.
        replace (idx + 4 * Z.of_nat 0 + c) with (idx + c) by lia.
        apply Hcontent. exact Hc.
      * cbn [nth].
        replace (idx + 4 * Z.of_nat (S k) + c)
          with (idx + 4 + 4 * Z.of_nat k + c) by lia.
        apply Hcontent'; [cbn in Hk; lia | exact Hc].
Qed.

(** The rows of the block: the loop over [by]. *)
Lemma copyRows_spec (bxs bys : list Z) (blockData : list Z) (idx : Z) :
  0 <= idx ->
  idx + 4 * Z.of_nat (length bxs) * Z.of_nat (length bys)
  <= Z.of_nat (length blockData) ->
  let r :=
    fold_left (fun st by_ => fold_left (copyPixel imageData x y by_) bxs st) bys
      (blockData, idx) in
  length (fst r) = length blockData /\
  (forall (m k : nat) c,
     (m < length bys)%nat -> (k < length bxs)%nat -> 0 <= c < 4 ->
     sample (fst r)
       (idx + 4 * Z.of_nat (length bxs) * Z.of_nat m + 4 * Z.of_nat k + c)
     = blockSource imageData x y (nth m bys 0) (nth k bxs 0) c) /\
  snd r = idx + 4 * Z.of_nat (length bxs) * Z.of_nat (length bys) /\
  (forall i, 0 <= i ->
     i < idx
     \/ idx + 4 * Z.of_nat (length bxs) * Z.of_nat (length bys) <= i ->
     sample (fst r) i = sample blockData i).
Proof.
  revert blockData idx.
  induction bys as [|by_ bys IH]; intros blockData idx Hidx Hlen r.
  - subst r. cbn [fold_left fst snd length].
    split; [reflexivity|].
    split; [intros m k c Hm; cbn in Hm; lia|].
    split; [lia | reflexivity].
  - subst r. cbn [fold_left]. cbn [length] in Hlen.
    destruct (copyRow_spec by_ bxs blockData idx Hidx ltac:(nia))
      as (Hs & Hl & Hframe & Hcontent).
    destruct (fold_left (copyPixel imageData x y by_) bxs (blockData, idx))
      as [blockData1 idx1].
    cbn [fst snd] in Hs, Hl, Hframe, Hcontent. subst idx1.
    destruct (IH blockData1 (idx + 4 * Z.of_nat (length bxs))
                ltac:(lia) ltac:(nia))
      as (Hl' & Hcontent' & Hs' & Hframe').
    cbn [length]. split; [lia|]. split; [|split; [lia|]].
    + intros [|m] k c Hm Hk Hc.
      * cbn [nth]. rewrite Hframe' by nia.
        replace (idx + 4 * Z.of_nat (length bxs) * Z.of_nat 0
                 + 4 * Z.of_nat k + c)
          with (idx + 4 * Z.of_nat k + c) by lia.
        apply Hcontent; [exact Hk | exact Hc].
      * cbn [nth].
        replace (idx + 4 * Z.of_nat (length bxs) * Z.of_nat (S m)
                 + 4 * Z.of_nat k + c)
          with (idx + 4 * Z.of_nat (length bxs)
                + 4 * Z.of_nat (length bxs) * Z.of_nat m
                + 4 * Z.of_nat k + c) by lia.
        apply Hcontent'; [cbn in Hm; lia | exact Hk | exact Hc].
    + intros i Hi Hout. rewrite Hframe' by nia. apply Hframe; nia.
Qed.

Lemma extractBlockData_spec :
  length (CopyMove.extractBlockData imageData x y) = 4096%nat /\
  forall bx by_ c,
    0 <= bx < 32 -> 0 <= by_ < 32 -> 0 <= c < 4 ->
    sample (CopyMove.extractBlockData imageData x y)
      ((by_ * 32 + bx) * 4 + c)
    = sample (data imageData)
        (((y + by_) * imgWidth imageData + (x + bx)) * 4 + c).
Proof.
  unfold CopyMove.extractBlockData.
  set (values := forLoop (Z.to_nat CopyMove.blockSize)
                   (fun b => b <? CopyMove.blockSize) 1 0).
  assert (Hvalues : values = map (fun k : nat => 0 + 1 * Z.of_nat k)
                               (seq 0 32)).
  { unfold values. rewrite forLoop_map_seq. reflexivity. }
  assert (Hlen : length values = 32%nat).
  { rewrite Hvalues, length_map, length_seq. reflexivity. }
  assert (Hnth : forall k : nat, (k < 32)%nat -> nth k values 0 = Z.of_nat k).
  { intros k Hk. rewrite Hvalues.
    do 32 (destruct k as [|k]; [reflexivity|]). lia. }
  destruct (copyRows_spec values values
              (replicate (Z.to_nat (CopyMove.blockSize * CopyMove.blockSize * 4)) 0)
              0 ltac:(lia))
    as (Hl & Hcontent & _).
  { rewrite length_replicate, Hlen. unfold CopyMove.blockSize. lia. }
  split.
  - etransitivity; [exact Hl|]. rewrite length_replicate. reflexivity.
  - intros bx by_ c Hbx Hby Hc.
    specialize (Hcontent (Z.to_nat by_) (Z.to_nat bx) c
                  ltac:(lia) ltac:(lia) Hc).
    rewrite !Hnth, Hlen, !Z2Nat.id in Hcontent by lia.
    replace ((by_ * 32 + bx) * 4 + c)
      with (0 + 4 * Z.of_nat 32 * by_ + 4 * bx + c) by lia.
    exact Hcontent.
Qed.
End BlockContent.

(** ** Further properties: the heatmap and the regions of the analysis *)

Section ElaSpec.
Context {num : Type} {arith : JSNumber num}.
Local Open Scope Z_scope.

Lemma elaCells_elem (canvasWidth canvasHeight cx cy : Z) :
  (cx, cy) ∈ elaCells canvasWidth canvasHeight <->
  (0 <= cx < canvasWidth /\ cx mod 16 = 0) /\
  (0 <= cy < canvasHeight /\ cy mod 16 = 0).
Proof.
  assert (Hloop : forall limit v,
             v ∈ forLoop (Z.to_nat limit) (fun u => u <? limit)
                   ELA.blockSize 0 <->
             0 <= v < limit /\ v mod 16 = 0).
  { intros limit v.
    rewrite (forLoop_lt_elem _ _ _ _ limit);
      unfold ELA.blockSize; [| lia | intros u; apply Z.ltb_lt | lia].
    split.
    - intros [Hv [k ->]]. split; [lia|].
      rewrite Z.add_0_l, Z.mul_comm. apply Z_mod_mult.
    - intros [Hv Hmod]. split; [lia|].
      exists (Z.to_nat (v / 16)).
      rewrite Z2Nat.id by (apply Z.div_pos; lia).
      pose proof (Z.div_mod v 16). lia. }
  unfold elaCells. rewrite list_elem_of_In, in_flat_map.
  rewrite <- !Hloop. split.
  - intros (y' & Hy' & Hin). apply in_map_iff in Hin as (x' & Heq & Hx').
    inversion Heq; subst. rewrite !list_elem_of_In. tauto.
  - intros [Hx Hy]. exists cy. rewrite <- list_elem_of_In.
    split; [exact Hy|]. apply in_map_iff. exists cx.
    rewrite <- list_elem_of_In. tauto.
Qed.

Lemma elaCells_NoDup (canvasWidth canvasHeight : Z) :
  NoDup (elaCells canvasWidth canvasHeight).
Proof. apply NoDup_grid; apply forLoop_NoDup; reflexivity. Qed.

(** The two nested loops as one loop over the cells. *)
Lemma compareCanvases_cells (canvasWidth canvasHeight : Z)
    (originalData compressedData : list Z) :
  ELA.compareCanvases (num := num) canvasWidth canvasHeight originalData
    compressedData
  = match
      foldM
        (fun st '(x, y) =>
           ELA.elaStep canvasWidth canvasHeight originalData compressedData
             y st x)
        (elaCells canvasWidth canvasHeight)
        ([], ELA.newHeatmap canvasWidth canvasHeight)
    with
    | Some (regions, heatmap) => Some (mkElaResult regions heatmap)
    | None => None
    end.
Proof.
  unfold ELA.compareCanvases, elaCells. rewrite foldM_flat_map.
  f_equal.
  generalize (([], ELA.newHeatmap canvasWidth canvasHeight)
              : list (Region num) * list (list num)) as st.
  generalize (forLoop (Z.to_nat canvasHeight) (fun y => y <? canvasHeight)
                ELA.blockSize 0) as ys.
  generalize (forLoop (Z.to_nat canvasWidth) (fun x => x <? canvasWidth)
                ELA.blockSize 0) as xs.
  intros xs ys. induction ys as [|y ys IH]; intros st; [reflexivity|].
  cbn [foldM].
  assert (Hinner : forall xs st,
             foldM
               (fun st '(x, y) =>
                  ELA.elaStep canvasWidth canvasHeight originalData
                    compressedData y st x)
               (map (fun x => (x, y)) xs) st
             = foldM
                 (ELA.elaStep canvasWidth canvasHeight originalData
                    compressedData y) xs st).
  { clear. intros xs. induction xs as [|x xs IHx]; intros st; [reflexivity|].
    cbn [map foldM].
    destruct (ELA.elaStep canvasWidth canvasHeight originalData
                compressedData y st x); [apply IHx | reflexivity]. }
  rewrite Hinner.
  destruct (foldM _ xs st); [apply IH | reflexivity].
Qed.

Lemma heatmapCell_insert_eq (heatmap : list (list num)) (row : list num)
    (r c : Z) (v : num) :
  heatmap !! Z.to_nat r = Some row -> (Z.to_nat c < length row)%nat ->
  heatmapCell (<[Z.to_nat r := <[Z.to_nat c := v]> row]> heatmap) r c
  = Some v.
Proof.
  intros Hrow Hc. unfold heatmapCell.
  rewrite list_lookup_insert_eq by (apply lookup_lt_Some in Hrow; exact Hrow).
  apply list_lookup_insert_eq. exact Hc.
Qed.

Lemma heatmapCell_insert_ne (heatmap : list (list num)) (row : list num)
    (r c : Z) (v : num) (r' c' : Z) :
  heatmap !! Z.to_nat r = Some row ->
  0 <= r -> 0 <= c -> 0 <= r' -> 0 <= c' ->
  (r', c') <> (r, c) ->
  heatmapCell (<[Z.to_nat r := <[Z.to_nat c := v]> row]> heatmap) r' c'
  = heatmapCell heatmap r' c'.
Proof.
  intros Hrow Hr Hc Hr' Hc' Hne. unfold heatmapCell.
  destruct (decide (Z.to_nat r' = Z.to_nat r)) as [Heq | Hner].
  - rewrite Heq. rewrite list_lookup_insert_eq
      by (apply lookup_lt_Some in Hrow; exact Hrow).
    rewrite Hrow. apply list_lookup_insert_ne.
    intros Hceq. apply Hne. f_equal; lia.
  - rewrite list_lookup_insert_ne by congruence. reflexivity.
Qed.

(** The loop over a list of distinct cells of the canvas: the regions
    pushed, the cells written, and the cells left alone. *)
Lemma elaFold_spec (canvasWidth canvasHeight : Z)
    (originalData compressedData : list Z) (cells : list (Z * Z)) :
  Forall (fun cell => 0 <= fst cell < canvasWidth
                      /\ 0 <= snd cell < canvasHeight) cells ->
  NoDup (map (fun cell => (snd cell / 16, fst cell / 16)) cells) ->
  forall regions heatmap,
    gridDims heatmap (Z.to_nat ((canvasHeight + 15) / 16))
      (Z.to_nat ((canvasWidth + 15) / 16)) ->
    exists heatmap',
      foldM
        (fun st '(x, y) =>
           ELA.elaStep canvasWidth canvasHeight originalData compressedData
             y st x)
        cells (regions, heatmap)
      = Some (regions ++
                flat_map
                  (cellRegions canvasWidth canvasHeight originalData
                     compressedData) cells,
              heatmap') /\
      gridDims heatmap' (Z.to_nat ((canvasHeight + 15) / 16))
        (Z.to_nat ((canvasWidth + 15) / 16)) /\
      (forall r c,
         0 <= r -> 0 <= c ->
         (r, c) ∉ map (fun cell => (snd cell / 16, fst cell / 16)) cells ->
         heatmapCell heatmap' r c = heatmapCell heatmap r c) /\
      (forall cell,
         cell ∈ cells ->
         heatmapCell heatmap' (snd cell / 16) (fst cell / 16)
         = Some (cellValue canvasWidth canvasHeight originalData
                   compressedData cell)).
Proof.
  induction cells as [|[cx cy] cells IH];
    intros Hin Hnodup regions heatmap Hdims.
  - exists heatmap. cbn [foldM flat_map map].
    rewrite app_nil_r. split; [reflexivity|]. split; [exact Hdims|].
    split; [reflexivity | intros cell Hcell; inversion Hcell].
  - apply Forall_cons in Hin as [[Hx Hy] Hin]. cbn [fst snd] in Hx, Hy.
    cbn [map] in Hnodup. apply NoDup_cons in Hnodup as [Hfresh Hnodup].
    cbn [fst snd] in Hfresh.
    destruct (elaStep_in_grid canvasWidth canvasHeight originalData
                compressedData cx cy regions heatmap Hdims Hx Hy)
      as (diffSum & pixelCount & row & Hcell & Hrow & Hlen & Hstep & Hdims1).
    cbv zeta in Hstep, Hdims1.
    set (v := ELA.normalizedDiff diffSum pixelCount) in *.
    set (heatmap1 :=
           <[Z.to_nat (cy / 16) := <[Z.to_nat (cx / 16) := v]> row]>
             heatmap) in *.
    assert (Hv : cellValue canvasWidth canvasHeight originalData
                   compressedData (cx, cy) = v).
    { unfold cellValue. cbn [fst snd]. rewrite Hcell. reflexivity. }
    assert (Hrc : 0 <= cy / 16 /\ 0 <= cx / 16)
      by (split; apply Z.div_pos; lia).
    destruct (IH Hin Hnodup
                (if ltb (decimal 3 10) v
                 then regions ++
                        [mkRegion cx cy ELA.blockSize ELA.blockSize v]
                 else regions) heatmap1 Hdims1)
      as (heatmap' & Hfold & Hdims' & Hframe & Hcontent).
    exists heatmap'. cbn [foldM]. rewrite Hstep, Hfold.
    split; [|split; [exact Hdims'|split]].
    + f_equal. f_equal. cbn [flat_map]. unfold cellRegions at 2.
      rewrite Hv. cbn [fst snd]. destruct (ltb (decimal 3 10) v).
      * rewrite <- app_assoc. reflexivity.
      * reflexivity.
    + intros r c Hr Hc Hnotin. cbn [map fst snd] in Hnotin.
      apply not_elem_of_cons in Hnotin as [Hne Hnotin].
      rewrite Hframe by assumption. unfold heatmap1.
      apply heatmapCell_insert_ne; try lia; [exact Hrow | exact Hne].
    + intros cell Hcellin. apply elem_of_cons in Hcellin as [-> | Hcellin].
      * cbn [fst snd]. rewrite Hframe by (try lia; exact Hfresh).
        rewrite Hv. unfold heatmap1.
        apply heatmapCell_insert_eq; [exact Hrow | exact Hlen].
      * apply Hcontent. exact Hcellin.
Qed.

(** The result of the analysis, cell by cell. *)
Lemma compareCanvases_spec (canvasWidth canvasHeight : Z)
    (originalData compressedData : list Z) :
  exists res,
    ELA.compareCanvases (num := num) canvasWidth canvasHeight originalData
      compressedData = Some res /\
    elaRegions res
    = flat_map
        (cellRegions canvasWidth canvasHeight originalData compressedData)
        (elaCells canvasWidth canvasHeight) /\
    (forall cell,
       cell ∈ elaCells canvasWidth canvasHeight ->
       heatmapCell (heatmap res) (snd cell / 16) (fst cell / 16)
       = Some (cellValue canvasWidth canvasHeight originalData
                 compressedData cell)).
Proof.
  destruct (elaFold_spec canvasWidth canvasHeight originalData compressedData
              (elaCells canvasWidth canvasHeight))
    with (regions := @nil (Region num))
         (heatmap := ELA.newHeatmap (num := num) canvasWidth canvasHeight)
    as (heatmap' & Hfold & _ & _ & Hcontent).
  - apply Forall_forall. intros [cx cy] Hcell.
    apply elaCells_elem in Hcell. cbn [fst snd]. lia.
  - apply NoDup_fmap_2_strong; [|apply elaCells_NoDup].
    intros [x1 y1] [x2 y2] H1 H2 Heq.
    apply elaCells_elem in H1, H2. cbn [fst snd] in Heq.
    inversion Heq. f_equal; lia_div.
  - apply newHeatmap_dims.
  - exists (mkElaResult
              (flat_map
                 (cellRegions canvasWidth canvasHeight originalData
                    compressedData) (elaCells canvasWidth canvasHeight))
              heatmap').
    rewrite compareCanvases_cells, Hfold. cbn [app elaRegions heatmap].
    split; [reflexivity|]. split; [reflexivity | exact Hcontent].
Qed.
End ElaSpec.

Section ElaProperties.
Local Open Scope Z_scope.

(** X6.  The result of [performErrorLevelAnalysis], cell by cell, for an
    image of a width and a height other than 0 once the decoder has
    returned an image: the analysis returns; the heatmap cell of every
    grid cell [(x, y)] holds the normalized difference of that cell's
    pixels between the two canvases; and the regions are, in row-major
    order, those of the cells whose normalized difference exceeds 0.3,
    each with that value as confidence.  For any arithmetic. *)
Theorem heatmap_and_regions_by_cell {num : Type} {arith : JSNumber num}
    (browser : Browser) (imageData : ImageData) (quality : Q)
    (compressedData : list Z) :
  imgWidth imageData <> 0 -> imgHeight imageData <> 0 ->
  drawCompressedImage browser imageData quality = Some compressedData ->
  exists res,
    ELA.performErrorLevelAnalysis (num := num) browser imageData quality
      = Some res /\
    elaRegions res
    = flat_map
        (cellRegions (imgWidth imageData) (imgHeight imageData)
           (putImageData browser imageData) compressedData)
        (elaCells (imgWidth imageData) (imgHeight imageData)) /\
    (forall cx cy,
       0 <= cx < imgWidth imageData -> cx mod 16 = 0 ->
       0 <= cy < imgHeight imageData -> cy mod 16 = 0 ->
       heatmapCell (heatmap res) (cy / 16) (cx / 16)
       = Some (cellValue (imgWidth imageData) (imgHeight imageData)
                 (putImageData browser imageData) compressedData (cx, cy))).
Proof.
  intros Hw Hh Hdraw.
  rewrite (performErrorLevelAnalysis_reads browser imageData quality
             compressedData Hw Hh Hdraw).
  destruct (compareCanvases_spec (num := num) (imgWidth imageData)
              (imgHeight imageData) (putImageData browser imageData)
              compressedData)
    as (res & Hres & Hregions & Hcells).
  exists res. split; [exact Hres|]. split; [exact Hregions|].
  intros cx cy Hx Hxm Hy Hym.
  apply (Hcells (cx, cy)). apply elaCells_elem. tauto.
Qed.

Lemma heatmap_and_regions_by_cell_witness :
  exists res,
    ELA.performErrorLevelAnalysis (num := Q)
      (opaqueBrowser (brighterRoundTrip 12)) narrowImage defaultQuality
      = Some res /\
    elaRegions res
    = flat_map
        (cellRegions (imgWidth narrowImage) (imgHeight narrowImage)
           (data narrowImage)
           (brighterRoundTrip 12 narrowImage defaultQuality))
        (elaCells (imgWidth narrowImage) (imgHeight narrowImage)) /\
    (forall cx cy,
       0 <= cx < imgWidth narrowImage -> cx mod 16 = 0 ->
       0 <= cy < imgHeight narrowImage -> cy mod 16 = 0 ->
       heatmapCell (heatmap res) (cy / 16) (cx / 16)
       = Some (cellValue (imgWidth narrowImage) (imgHeight narrowImage)
                 (data narrowImage)
                 (brighterRoundTrip 12 narrowImage defaultQuality)
                 (cx, cy))).
Proof.
  apply (heatmap_and_regions_by_cell (num := Q)
           (opaqueBrowser (brighterRoundTrip 12)) narrowImage defaultQuality
           (brighterRoundTrip 12 narrowImage defaultQuality));
    first [reflexivity
          | cbn [imgWidth imgHeight narrowImage uniformImage]; lia].
Defined.

Lemma elaCell_diffSum_nonneg (canvasWidth canvasHeight : Z)
    (originalData compressedData : list Z) (cx cy : Z) :
  0 <= fst (ELA.elaCell canvasWidth canvasHeight originalData compressedData
              cx cy).
Proof.
  unfold ELA.elaCell.
  apply (fold_left_invariant _ (fun acc => 0 <= fst acc)); [reflexivity|].
  intros acc by_ Hacc _.
  apply (fold_left_invariant _ (fun acc => 0 <= fst acc)); [exact Hacc|].
  intros [diffSum pixelCount] bx Hd _. cbn [fst] in *.
  pose proof (rgbDiff_nonneg originalData compressedData
                (((cy + by_) * canvasWidth + (cx + bx)) * 4)). lia.
Qed.

(** X7.  A cell of the canvas at [(x, y)] is averaged over the pixels
    that remain in the image: [pixelCount] is
    [min(16, width - x) * min(16, height - y)], and [diffSum] is not
    negative. *)
Theorem clipped_cell_pixel_count (canvasWidth canvasHeight : Z)
    (originalData compressedData : list Z) (cx cy : Z) :
  0 <= cx < canvasWidth -> 0 <= cy < canvasHeight ->
  snd (ELA.elaCell canvasWidth canvasHeight originalData compressedData
         cx cy)
  = Z.min 16 (canvasWidth - cx) * Z.min 16 (canvasHeight - cy) /\
  0 <= fst (ELA.elaCell canvasWidth canvasHeight originalData compressedData
              cx cy).
Proof.
  intros Hx Hy. split; [|apply elaCell_diffSum_nonneg].
  rewrite elaCell_pixelCount.
  assert (Hlen : forall origin limit,
             0 <= origin < limit ->
             Z.of_nat (length
                         (forLoop (Z.to_nat ELA.blockSize)
                            (fun b => (b <? ELA.blockSize)
                                      && (origin + b <? limit)) 1 0))
             = Z.min 16 (limit - origin)).
  { intros origin limit Ho.
    rewrite (forLoop_length _ _ _ _ (Z.min 16 (limit - origin)));
      unfold ELA.blockSize; [| lia | | lia].
    - rewrite Z.div_1_r. lia.
    - intros u. rewrite andb_true_iff, !Z.ltb_lt. lia. }
  rewrite Nat2Z.inj_mul, (Hlen cy canvasHeight Hy), (Hlen cx canvasWidth Hx).
  lia.
Qed.

Lemma clipped_cell_pixel_count_witness :
  snd (ELA.elaCell 17 1 (data narrowImage)
         (brighterRoundTrip 12 narrowImage defaultQuality) 16 0)
  = Z.min 16 (17 - 16) * Z.min 16 (1 - 0) /\
  0 <= fst (ELA.elaCell 17 1 (data narrowImage)
              (brighterRoundTrip 12 narrowImage defaultQuality) 16 0).
Proof.
  apply (clipped_cell_pixel_count 17 1 (data narrowImage)
           (brighterRoundTrip 12 narrowImage defaultQuality) 16 0); lia.
Defined.
End ElaProperties.

Section ElaExactProperties.
Local Open Scope Z_scope.

Lemma normalizedDiff_nonneg (diffSum pixelCount : Z) :
  0 <= diffSum -> 0 <= pixelCount ->
  (0 <= ELA.normalizedDiff (num := Q) diffSum pixelCount)%Q.
Proof.
  intros Hd Hp. unfold ELA.normalizedDiff. exact_ops.
  apply Q.min_glb; [|discriminate].
  unfold Qdiv. apply Qmult_le_0_compat; [|discriminate].
  apply Qmult_le_0_compat.
  - change 0%Q with (inject_Z 0). rewrite <- Zle_Qle. exact Hd.
  - apply Qinv_le_0_compat. change 0%Q with (inject_Z 0).
    rewrite <- Zle_Qle. lia.
Qed.

(** X8.  Every cell of the heatmap lies in [0, 1], whatever the two
    canvases hold (exact arithmetic; for an image of a width and a height
    other than 0, once the decoder has returned an image). *)
Theorem heatmap_cells_in_unit_interval
    (browser : Browser) (imageData : ImageData) (quality : Q)
    (compressedData : list Z) :
  imgWidth imageData <> 0 -> imgHeight imageData <> 0 ->
  drawCompressedImage browser imageData quality = Some compressedData ->
  exists res,
    ELA.performErrorLevelAnalysis (num := Q) browser imageData quality
      = Some res /\
    Forall (Forall (fun v => 0 <= v <= 1)%Q) (heatmap res).
Proof.
  intros Hw Hh Hdraw.
  rewrite (performErrorLevelAnalysis_reads browser imageData quality
             compressedData Hw Hh Hdraw).
  destruct (compareCanvases_invariant
              (fun _ heatmap => Forall (Forall (fun v => 0 <= v <= 1)%Q)
                                  heatmap)
              (imgWidth imageData) (imgHeight imageData)
              (putImageData browser imageData) compressedData)
    as (res & Hres & Hcells & _).
  - unfold ELA.newHeatmap. apply Forall_replicate, Forall_replicate.
    split; discriminate.
  - intros regions heatmap cx cy diffSum pixelCount row Hcells Hx Hy Hcell
      Hrow _ v.
    pose proof (elaCell_diffSum_nonneg (imgWidth imageData)
                  (imgHeight imageData) (putImageData browser imageData)
                  compressedData cx cy) as Hd.
    pose proof (elaCell_pixelCount_pos (imgWidth imageData)
                  (imgHeight imageData) (putImageData browser imageData)
                  compressedData cx cy Hx Hy) as Hp.
    rewrite Hcell in Hd, Hp. cbn [fst snd] in Hd, Hp.
    apply Forall_insert; [exact Hcells|].
    apply Forall_insert; [exact (Forall_lookup_1 _ _ _ _ Hcells Hrow)|].
    split; [apply normalizedDiff_nonneg; lia | apply normalizedDiff_le_1].
  - exists res. split; [exact Hres | exact Hcells].
Qed.

Lemma heatmap_cells_in_unit_interval_witness :
  exists res,
    ELA.performErrorLevelAnalysis (num := Q)
      (opaqueBrowser (brighterRoundTrip 12)) narrowImage defaultQuality
      = Some res /\
    Forall (Forall (fun v => 0 <= v <= 1)%Q) (heatmap res).
Proof.
  apply (heatmap_cells_in_unit_interval
           (opaqueBrowser (brighterRoundTrip 12)) narrowImage defaultQuality
           (brighterRoundTrip 12 narrowImage defaultQuality));
    first [reflexivity
          | cbn [imgWidth imgHeight narrowImage uniformImage]; lia].
Defined.

(** The test of line 66 in integers: the mean absolute difference per
    channel exceeds 9. *)
Lemma region_threshold (diffSum pixelCount : Z) :
  1 <= pixelCount ->
  ltb (decimal 3 10) (ELA.normalizedDiff (num := Q) diffSum pixelCount)
  = true <-> 27 * pixelCount < diffSum.
Proof.
  intros Hp. rewrite ltb_exact. unfold ELA.normalizedDiff. exact_ops.
  rewrite Q.min_glb_lt_iff.
  set (D := inject_Z diffSum). set (P := inject_Z pixelCount).
  assert (HP : (0 < P)%Q).
  { unfold P. change 0%Q with (inject_Z 0). rewrite <- Zlt_Qlt. lia. }
  assert (Ha : (D / inject_Z (pixelCount * 3) / inject_Z 30
                == D / (90 * P))%Q).
  { rewrite inject_Z_mult. fold P. change (inject_Z 3) with 3%Q.
    change (inject_Z 30) with 30%Q. field. lra. }
  rewrite Ha. change (inject_Z 3 / inject_Z 10)%Q with (3 # 10)%Q.
  assert (Hz : 27 * pixelCount < diffSum <-> (27 * P < D)%Q).
  { unfold P, D. change 27%Q with (inject_Z 27).
    rewrite <- inject_Z_mult, <- Zlt_Qlt. reflexivity. }
  rewrite Hz. split.
  - intros [Hlt _].
    destruct (Qlt_le_dec (27 * P) D) as [Hgt | Hle]; [exact Hgt|].
    exfalso. apply (Qlt_not_le _ _ Hlt).
    apply Qle_shift_div_r; lra.
  - intros Hgt. split; [|reflexivity].
    apply Qlt_shift_div_l; lra.
Qed.

(** X9.  Once the decoder has returned an image, a region is reported
    for the grid cell at [(x, y)] exactly when [diffSum > 27 * pixelCount]
    there, that is when the mean absolute difference per channel between
    the two canvases over the cell's pixels exceeds 9 (exact
    arithmetic). *)
Theorem region_iff_mean_difference_above_9
    (browser : Browser) (imageData : ImageData) (quality : Q)
    (compressedData : list Z) (cx cy : Z) :
  drawCompressedImage browser imageData quality = Some compressedData ->
  0 <= cx < imgWidth imageData -> cx mod 16 = 0 ->
  0 <= cy < imgHeight imageData -> cy mod 16 = 0 ->
  exists res,
    ELA.performErrorLevelAnalysis (num := Q) browser imageData quality
      = Some res /\
    ((exists r, r ∈ elaRegions res /\ x r = cx /\ y r = cy) <->
     27 * snd (ELA.elaCell (imgWidth imageData) (imgHeight imageData)
                 (putImageData browser imageData) compressedData cx cy)
     < fst (ELA.elaCell (imgWidth imageData) (imgHeight imageData)
              (putImageData browser imageData) compressedData cx cy)).
Proof.
  intros Hdraw Hx Hxm Hy Hym.
  rewrite (performErrorLevelAnalysis_reads browser imageData quality
             compressedData ltac:(lia) ltac:(lia) Hdraw).
  destruct (compareCanvases_spec (num := Q) (imgWidth imageData)
              (imgHeight imageData) (putImageData browser imageData)
              compressedData)
    as (res & Hres & Hregions & _).
  exists res. split; [exact Hres|]. rewrite Hregions.
  pose proof (elaCell_pixelCount_pos (imgWidth imageData)
                (imgHeight imageData) (putImageData browser imageData)
                compressedData cx cy Hx Hy) as Hp.
  rewrite <- (region_threshold _ _ Hp).
  assert (Hcell : (cx, cy) ∈ elaCells (imgWidth imageData)
                                (imgHeight imageData))
    by (apply elaCells_elem; tauto).
  split.
  - intros (r & Hr & Hrx & Hry).
    apply list_elem_of_In, in_flat_map in Hr as ([x' y'] & _ & Hr).
    unfold cellRegions, cellValue in Hr. cbn [fst snd] in Hr.
    destruct (ltb _ _) eqn:Hlt in Hr; [|destruct Hr].
    destruct Hr as [<- | []]. cbn [x y] in Hrx, Hry. subst x' y'.
    exact Hlt.
  - intros Hlt. eexists. split.
    + apply list_elem_of_In, in_flat_map. exists (cx, cy).
      split; [apply list_elem_of_In; exact Hcell|].
      unfold cellRegions, cellValue. cbn [fst snd]. rewrite Hlt.
      left. reflexivity.
    + split; reflexivity.
Qed.

Lemma region_iff_mean_difference_above_9_witness :
  exists res,
    ELA.performErrorLevelAnalysis (num := Q)
      (opaqueBrowser (brighterRoundTrip 12)) narrowImage defaultQuality
      = Some res /\
    ((exists r, r ∈ elaRegions res /\ x r = 16 /\ y r = 0) <->
     27 * snd (ELA.elaCell (imgWidth narrowImage) (imgHeight narrowImage)
                 (data narrowImage)
                 (brighterRoundTrip 12 narrowImage defaultQuality) 16 0)
     < fst (ELA.elaCell (imgWidth narrowImage) (imgHeight narrowImage)
              (data narrowImage)
              (brighterRoundTrip 12 narrowImage defaultQuality) 16 0)).
Proof.
  apply (region_iff_mean_difference_above_9
           (opaqueBrowser (brighterRoundTrip 12)) narrowImage defaultQuality
           (brighterRoundTrip 12 narrowImage defaultQuality) 16 0);
    first [reflexivity
          | cbn [imgWidth imgHeight narrowImage uniformImage]; lia].
Defined.
End ElaExactProperties.

(** ** Further properties: the alpha channel *)

Section AlphaChannel.
Local Open Scope Z_scope.

Lemma foldM_ext_in {S A : Type} (f g : S -> A -> option S) (l : list A)
    (s : S) :
  (forall s a, a ∈ l -> f s a = g s a) -> foldM f l s = foldM g l s.
Proof.
  revert s. induction l as [|a l IH]; intros s Hfg; [reflexivity|].
  cbn [foldM]. rewrite Hfg by left.
  destruct (g s a); [|reflexivity].
  apply IH. intros s' a' Ha'. apply Hfg. right. exact Ha'.
Qed.

Lemma rgbDiff_sameColours (a a' b b' : list Z) (pixel : Z) :
  sameColours a a' -> sameColours b b' -> 0 <= pixel ->
  rgbDiff a b (pixel * 4) = rgbDiff a' b' (pixel * 4).
Proof.
  intros Ha Hb Hp. unfold rgbDiff.
  rewrite (Ha (pixel * 4)), (Ha (pixel * 4 + 1)), (Ha (pixel * 4 + 2)),
    (Hb (pixel * 4)), (Hb (pixel * 4 + 1)), (Hb (pixel * 4 + 2));
    first [reflexivity | lia_div].
Qed.

Lemma elaCell_sameColours (canvasWidth canvasHeight : Z)
    (o o' c c' : list Z) (cx cy : Z) :
  sameColours o o' -> sameColours c c' ->
  0 <= cx < canvasWidth -> 0 <= cy ->
  ELA.elaCell canvasWidth canvasHeight o c cx cy
  = ELA.elaCell canvasWidth canvasHeight o' c' cx cy.
Proof.
  intros Ho Hc Hx Hy. unfold ELA.elaCell.
  apply fold_left_ext_in. intros acc by_ Hby.
  apply fold_left_ext_in. intros [diffSum pixelCount] bx Hbx.
  apply forLoop_elem in Hby as [_ [ky ->]].
  apply forLoop_elem in Hbx as [_ [kx ->]].
  rewrite (rgbDiff_sameColours o o' c c') by (assumption || nia).
  reflexivity.
Qed.

(** X10.  The comparison of [performErrorLevelAnalysis] reads the red,
    green and blue samples of the two canvases and never their alpha
    samples: two runs on images of the same dimensions whose canvases,
    as [getImageData] reads them at lines 36 and 37, agree on red, green
    and blue give the same result.  (What a canvas returns for the colour
    samples of a pixel that is not opaque is the browser's matter: the
    statement is about the two arrays read back.) *)
Theorem ela_compares_colours_only {num : Type} {arith : JSNumber num}
    (browser1 browser2 : Browser) (image1 image2 : ImageData) (quality : Q)
    (compressed1 compressed2 : list Z) :
  imgWidth image1 = imgWidth image2 ->
  imgHeight image1 = imgHeight image2 ->
  drawCompressedImage browser1 image1 quality = Some compressed1 ->
  drawCompressedImage browser2 image2 quality = Some compressed2 ->
  sameColours (putImageData browser1 image1) (putImageData browser2 image2) ->
  sameColours compressed1 compressed2 ->
  ELA.performErrorLevelAnalysis (num := num) browser1 image1 quality
  = ELA.performErrorLevelAnalysis browser2 image2 quality.
Proof.
  intros Hw Hh Hdraw1 Hdraw2 Ho Hc.
  unfold ELA.performErrorLevelAnalysis, getImageData.
  rewrite Hdraw1, Hdraw2, <- Hw, <- Hh.
  destruct ((imgWidth image1 =? 0) || (imgHeight image1 =? 0));
    [reflexivity|].
  rewrite !compareCanvases_cells.
  rewrite (foldM_ext_in
             (fun st '(x, y) =>
                ELA.elaStep (imgWidth image1) (imgHeight image1)
                  (putImageData browser1 image1) compressed1 y st x)
             (fun st '(x, y) =>
                ELA.elaStep (imgWidth image1) (imgHeight image1)
                  (putImageData browser2 image2) compressed2 y st x));
    [reflexivity|].
  intros st [cx cy] Hcell.
  apply elaCells_elem in Hcell. unfold ELA.elaStep.
  rewrite (elaCell_sameColours _ _ _ _ _ _ cx cy Ho Hc) by lia.
  reflexivity.
Qed.

Lemma sameColours_pixel (r g b a a' : Z) :
  sameColours [r; g; b; a] [r; g; b; a'].
Proof.
  intros i Hi Hmod. unfold sample.
  destruct (Z.to_nat i) as [|[|[|[|n]]]] eqn:Hn;
    first [reflexivity | exfalso; apply Hmod].
  replace i with 3 by lia. reflexivity.
Qed.

(** One pixel whose colour the round trip changes by 40 per channel, read
    with two different alpha samples on each canvas: the one region is
    reported in both runs. *)
Lemma ela_compares_colours_only_witness :
  ELA.performErrorLevelAnalysis (num := Q)
    (onePixelBrowser [10; 20; 30; 255] [50; 60; 70; 255])
    (mkImageData 1 1 [10; 20; 30; 255]) defaultQuality
  = ELA.performErrorLevelAnalysis
      (onePixelBrowser [10; 20; 30; 0] [50; 60; 70; 9])
      (mkImageData 1 1 [10; 20; 30; 255]) defaultQuality /\
  ELA.performErrorLevelAnalysis (num := Q)
    (onePixelBrowser [10; 20; 30; 0] [50; 60; 70; 9])
    (mkImageData 1 1 [10; 20; 30; 255]) defaultQuality
  = Some (mkElaResult [mkRegion 0 0 16 16 1%Q] [[1%Q]]).
Proof.
  split.
  - apply (ela_compares_colours_only (num := Q)
             (onePixelBrowser [10; 20; 30; 255] [50; 60; 70; 255])
             (onePixelBrowser [10; 20; 30; 0] [50; 60; 70; 9])
             (mkImageData 1 1 [10; 20; 30; 255])
             (mkImageData 1 1 [10; 20; 30; 255]) defaultQuality
             [50; 60; 70; 255] [50; 60; 70; 9]);
      first [reflexivity | apply sameColours_pixel].
  - vm_compute. reflexivity.
Defined.
End AlphaChannel.

Section BlockProperties.
Local Open Scope Z_scope.

Lemma extractBlocks_data (imageData : ImageData) (b : Block) :
  b ∈ CopyMove.extractBlocks imageData ->
  blockData b
  = CopyMove.extractBlockData imageData (blockX b) (blockY b).
Proof.
  rewrite extractBlocks_flat_map, list_elem_of_In, in_flat_map.
  intros (by0 & _ & Hin). apply in_map_iff in Hin as (bx0 & <- & _).
  reflexivity.
Qed.

(** X11.  Every extracted block holds 4096 samples, the RGBA samples of
    the 32 by 32 pixels of the image from the block's origin, row by row;
    the samples read all lie inside an array of [width * height * 4]
    samples. *)
Theorem extracted_block_copies_pixels (imageData : ImageData) :
  Forall
    (fun b =>
       length (blockData b) = 4096%nat /\
       forall bx by_ c,
         0 <= bx < 32 -> 0 <= by_ < 32 -> 0 <= c < 4 ->
         let sourceIdx :=
           ((blockY b + by_) * imgWidth imageData + (blockX b + bx)) * 4 in
         (0 <= sourceIdx + c
          < imgWidth imageData * imgHeight imageData * 4) /\
         sample (blockData b) ((by_ * 32 + bx) * 4 + c)
         = sample (data imageData) (sourceIdx + c))
    (CopyMove.extractBlocks imageData).
Proof.
  apply Forall_forall. intros b Hb.
  rewrite (extractBlocks_data imageData b Hb).
  destruct (extractBlockData_spec imageData (blockX b) (blockY b))
    as [Hlen Hcontent].
  split; [exact Hlen|]. intros bx by_ c Hbx Hby Hc sourceIdx. split.
  - apply extractBlocks_inside in Hb. unfold CopyMove.blockSize in Hb.
    pose proof (sourceIdx_in_range (imgWidth imageData)
                  (imgHeight imageData) (blockX b + bx) (blockY b + by_)
                  ltac:(lia) ltac:(lia)).
    subst sourceIdx. lia.
  - apply Hcontent; assumption.
Qed.

(** X12.  For two blocks extracted from one image the similarity test and
    the confidence do not depend on the order of the blocks. *)
Theorem extracted_blocks_similarity_symmetric {num : Type}
    {arith : JSNumber num} (imageData : ImageData) (threshold : num) :
  Forall
    (fun bi =>
       Forall
         (fun bj =>
            CopyMove.areBlocksSimilar (blockData bi) (blockData bj) threshold
            = CopyMove.areBlocksSimilar (blockData bj) (blockData bi)
                threshold /\
            CopyMove.calculateSimilarityConfidence (num := num)
              (blockData bi) (blockData bj)
            = CopyMove.calculateSimilarityConfidence (blockData bj)
                (blockData bi))
         (CopyMove.extractBlocks imageData))
    (CopyMove.extractBlocks imageData).
Proof.
  apply Forall_forall. intros bi Hbi. apply Forall_forall. intros bj Hbj.
  apply areBlocksSimilar_sym.
  rewrite (extractBlocks_data imageData bi Hbi),
    (extractBlocks_data imageData bj Hbj).
  destruct (extractBlockData_spec imageData (blockX bi) (blockY bi))
    as [-> _].
  destruct (extractBlockData_spec imageData (blockX bj) (blockY bj))
    as [-> _].
  reflexivity.
Qed.

Lemma sample_beyond (array : list Z) (i : Z) :
  Z.of_nat (length array) <= i -> sample array i = 0.
Proof.
  intros Hi. unfold sample. rewrite lookup_ge_None_2 by lia. reflexivity.
Qed.

Lemma extractBlockData_sameColours (image1 image2 : ImageData) (ox oy : Z) :
  imgWidth image1 = imgWidth image2 ->
  sameColours (data image1) (data image2) ->
  0 <= ox -> 0 <= oy -> 0 <= imgWidth image1 ->
  sameColours (CopyMove.extractBlockData image1 ox oy)
    (CopyMove.extractBlockData image2 ox oy).
Proof.
  intros Hw Hsame Hx Hy Hwpos i Hi Hmod.
  destruct (extractBlockData_spec image1 ox oy) as [Hlen1 Hc1].
  destruct (extractBlockData_spec image2 ox oy) as [Hlen2 Hc2].
  destruct (Z_lt_le_dec i 4096) as [Hin | Hout].
  - assert (Hsplit : exists bx by_ c,
               i = (by_ * 32 + bx) * 4 + c /\ c = i mod 4 /\
               0 <= bx < 32 /\ 0 <= by_ < 32 /\ 0 <= c < 4).
    { exists (i / 4 mod 32), (i / 4 / 32), (i mod 4). lia_div. }
    destruct Hsplit as (bx & by_ & c & Hi' & Hc & Hr).
    rewrite <- Hc in Hmod. clear Hc. subst i.
    rewrite Hc1, Hc2 by lia. rewrite <- Hw.
    apply Hsame; [nia|].
    replace (((oy + by_) * imgWidth image1 + (ox + bx)) * 4 + c)
      with (c + ((oy + by_) * imgWidth image1 + (ox + bx)) * 4) by lia.
    rewrite Z_mod_plus_full, Z.mod_small by lia. exact Hmod.
  - rewrite !sample_beyond by lia. reflexivity.
Qed.

Lemma blockDiffSum_sameColours (a a' b b' : list Z) :
  length a = length a' -> sameColours a a' -> sameColours b b' ->
  CopyMove.blockDiffSum a b = CopyMove.blockDiffSum a' b'.
Proof.
  intros Hlen Ha Hb. unfold CopyMove.blockDiffSum. rewrite <- Hlen.
  apply fold_left_ext_in. intros diffSum i Hi.
  apply forLoop_elem in Hi as [_ [k ->]].
  replace (0 + 4 * Z.of_nat k) with (Z.of_nat k * 4) by lia.
  rewrite (rgbDiff_sameColours a a' b b') by (assumption || lia).
  reflexivity.
Qed.

Lemma grid_map {A : Type} (f : Z -> Z -> A) (xs ys : list Z) :
  flat_map (fun y => map (fun x => f x y) xs) ys
  = map (fun o => f (fst o) (snd o))
      (flat_map (fun y => map (fun x => (x, y)) xs) ys).
Proof.
  induction ys as [|y ys IH]; [reflexivity|].
  cbn [flat_map]. rewrite map_app, IH, map_map. reflexivity.
Qed.

Lemma compareStep_sameColours {num : Type} {arith : JSNumber num}
    (f g : Z * Z -> Block) (origins : list (Z * Z)) (i j : Z)
    (regions : list (Region num)) :
  (forall o, o ∈ origins ->
     blockX (f o) = blockX (g o) /\ blockY (f o) = blockY (g o) /\
     length (blockData (f o)) = length (blockData (g o)) /\
     sameColours (blockData (f o)) (blockData (g o))) ->
  CopyMove.compareStep (f <$> origins) i regions j
  = CopyMove.compareStep (g <$> origins) i regions j.
Proof.
  intros Hsame. unfold CopyMove.compareStep.
  rewrite !list_lookup_fmap.
  destruct (origins !! Z.to_nat i) as [oi|] eqn:Hoi; [|reflexivity].
  destruct (origins !! Z.to_nat j) as [oj|] eqn:Hoj; [|reflexivity].
  cbn [fmap option_fmap option_map].
  apply list_elem_of_lookup_2, Hsame in Hoi as (Hxi & Hyi & Hlen & Hsi).
  apply list_elem_of_lookup_2, Hsame in Hoj as (Hxj & Hyj & _ & Hsj).
  unfold CopyMove.areBlocksSimilar, CopyMove.calculateSimilarityConfidence,
    CopyMove.squaredDistance.
  rewrite (blockDiffSum_sameColours _ _ _ _ Hlen Hsi Hsj), Hlen,
    Hxi, Hyi, Hxj, Hyj.
  reflexivity.
Qed.

(** X13.  [detectCopyMove] does not depend on the alpha channel: two
    images of the same dimensions whose samples agree on red, green and
    blue get the same regions and the same confidence. *)
Theorem copy_move_ignores_alpha {num : Type} {arith : JSNumber num}
    (image1 image2 : ImageData) :
  imgWidth image1 = imgWidth image2 ->
  imgHeight image1 = imgHeight image2 ->
  sameColours (data image1) (data image2) ->
  CopyMove.detectCopyMove (num := num) image1
  = CopyMove.detectCopyMove image2.
Proof.
  intros Hw Hh Hsame. unfold CopyMove.detectCopyMove.
  assert (Hcmp : CopyMove.compareBlocks (num := num)
                   (CopyMove.extractBlocks image1)
                 = CopyMove.compareBlocks (CopyMove.extractBlocks image2));
    [|rewrite Hcmp; reflexivity].
  rewrite !compareBlocks_pairs, !extractBlocks_flat_map, <- Hw, <- Hh.
  rewrite (grid_map (fun x y =>
                       mkBlock (CopyMove.extractBlockData image1 x y) x y)),
    (grid_map (fun x y =>
                 mkBlock (CopyMove.extractBlockData image2 x y) x y)).
  set (origins :=
         flat_map
           (fun y => map (fun x => (x, y))
                       (forLoop (Z.to_nat (imgWidth image1))
                          (fun x => x <? imgWidth image1 - CopyMove.blockSize)
                          CopyMove.blockSize 0))
           (forLoop (Z.to_nat (imgHeight image1))
              (fun y => y <? imgHeight image1 - CopyMove.blockSize)
              CopyMove.blockSize 0)).
  assert (Horigin : forall o, o ∈ origins ->
             0 <= fst o /\ 0 <= snd o /\ 0 <= imgWidth image1).
  { intros [ox oy] Ho. unfold origins in Ho.
    apply list_elem_of_In, in_flat_map in Ho as (y' & Hy' & Hin).
    apply in_map_iff in Hin as (x' & Heq & Hx'). inversion Heq; subst.
    apply list_elem_of_In, copyMove_loop_values in Hx', Hy'.
    unfold CopyMove.blockSize in *. cbn [fst snd]. lia. }
  clearbody origins. rewrite !length_map.
  apply foldM_ext_in. intros regions [i j] _.
  apply (compareStep_sameColours
           (fun o => mkBlock (CopyMove.extractBlockData image1 (fst o)
                                (snd o)) (fst o) (snd o))
           (fun o => mkBlock (CopyMove.extractBlockData image2 (fst o)
                                (snd o)) (fst o) (snd o))).
  intros o Ho. apply Horigin in Ho. cbn [blockX blockY blockData].
  split; [reflexivity|]. split; [reflexivity|]. split.
  - destruct (extractBlockData_spec image1 (fst o) (snd o)) as [-> _].
    destruct (extractBlockData_spec image2 (fst o) (snd o)) as [-> _].
    reflexivity.
  - apply extractBlockData_sameColours; [exact Hw | exact Hsame | lia..].
Qed.

Lemma sameColours_uniform (n : nat) (r g b a a' : Z) :
  sameColours (concat (replicate n [r; g; b; a]))
    (concat (replicate n [r; g; b; a'])).
Proof.
  assert (Hlen : forall alpha,
             length (concat (replicate n [r; g; b; alpha])) = (4 * n)%nat).
  { intros alpha. induction n as [|n IH]; [reflexivity|].
    cbn [replicate concat]. rewrite length_app, IH. cbn [length]. lia. }
  intros i Hi Hmod.
  destruct (Z_lt_le_dec i (4 * Z.of_nat n)) as [Hin | Hout].
  - assert (Hsplit : exists (p : nat) j,
               i = Z.of_nat p * 4 + j /\ (p < n)%nat /\ 0 <= j < 3).
    { exists (Z.to_nat (i / 4)), (i mod 4).
      rewrite Z2Nat.id by lia_div. split; [lia_div|].
      split; [|lia_div].
      apply Nat2Z.inj_lt. rewrite Z2Nat.id by lia_div. lia_div. }
    destruct Hsplit as (p & j & -> & Hp & Hj).
    rewrite !uniform_sample by lia.
    assert (Hcases : j = 0 \/ j = 1 \/ j = 2) by lia.
    destruct Hcases as [-> | [-> | ->]]; reflexivity.
  - rewrite !sample_beyond by (rewrite Hlen; lia). reflexivity.
Qed.

(** The 129 by 33 image of one colour, opaque and transparent: the four
    blocks are compared in six pairs and the pair at [x = 0] and [x = 96]
    is reported, in both runs. *)
Lemma copy_move_ignores_alpha_witness :
  CopyMove.detectCopyMove (num := Q) (wideImage 10 20 30 255)
  = CopyMove.detectCopyMove (wideImage 10 20 30 0) /\
  exists c overall,
    CopyMove.detectCopyMove (num := Q) (wideImage 10 20 30 0)
    = Some (mkCopyMoveResult
              [mkRegion 0 0 32 32 c; mkRegion 96 0 32 32 c] overall) /\
    (c == 1)%Q /\ (overall == 1)%Q.
Proof.
  split.
  - apply (copy_move_ignores_alpha (num := Q) (wideImage 10 20 30 255)
             (wideImage 10 20 30 0)).
    + cbn [imgWidth wideImage uniformImage]. reflexivity.
    + cbn [imgHeight wideImage uniformImage]. reflexivity.
    + exact (sameColours_uniform (Z.to_nat (129 * 33)) 10 20 30 255 0).
  - exact (wideImage_detection 10 20 30 0).
Defined.
End BlockProperties.

(** ** Further properties: the aggregate and analyzeImage *)

Section Pipeline.
Local Open Scope Z_scope.

(** X14.  In exact arithmetic each further warning lowers the aggregate by
    10 divided by the number of factors, or by 7 divided by it when
    [exifData] is missing. *)
Theorem each_warning_lowers_score (elaRegions : list (Region Q))
    (copyMoveConfidence : Q) (exif : bool) (warning : string)
    (others : list string) :
  (calculateOverallConfidence elaRegions copyMoveConfidence
     (Some (mkMetadata exif (warning :: others)))
   == calculateOverallConfidence elaRegions copyMoveConfidence
        (Some (mkMetadata exif others))
      - (if exif then 10 else 7)
        / inject_Z (snd (confidenceFactors elaRegions copyMoveConfidence
                           (Some (mkMetadata exif others)))))%Q.
Proof.
  unfold calculateOverallConfidence, confidenceFactors, metadataFactor.
  cbn [warnings exifData length].
  rewrite Nat2Z.inj_succ, <- Z.add_1_r.
  assert (Hpos : (0 <? Z.of_nat (length others) + 1) = true)
    by (apply Z.ltb_lt; lia).
  set (far := ltb (ofZ 0) copyMoveConfidence). clearbody far.
  rewrite Hpos. exact_ops. rewrite inject_Z_plus.
  set (k := inject_Z (Z.of_nat (length others))).
  assert (Hk : (0 <? Z.of_nat (length others)) = false -> (k == 0)%Q).
  { intros Hz. apply Z.ltb_ge in Hz. unfold k.
    replace (Z.of_nat (length others)) with 0 by lia. reflexivity. }
  destruct (0 <? Z.of_nat (length others));
    [clear Hk | specialize (Hk eq_refl)]; clearbody k.
  all: destruct (0 <? Z.of_nat (length elaRegions)); destruct far;
    destruct exif; cbn [negb snd].
  all: try change (0 + 1 + 1 + 1)%Z with 3%Z.
  all: try change (0 + 1 + 1)%Z with 2%Z.
  all: try change (0 + 1)%Z with 1%Z.
  all: try change (0 <? 3)%Z with true; try change (0 <? 2)%Z with true;
    try change (0 <? 1)%Z with true; cbv iota.
  all: try set (m := meanConfidence elaRegions).
  all: change (inject_Z 0) with 0%Q; change (inject_Z 100) with 100%Q;
    change (inject_Z 10) with 10%Q.
  all: try change (inject_Z 7) with 7%Q.
  all: try change (inject_Z 1) with 1%Q; try change (inject_Z 2) with 2%Q;
    try change (inject_Z 3) with 3%Q.
  all: unfold Qdiv; change (/ 1)%Q with 1%Q; change (/ 2)%Q with (1 # 2)%Q;
    change (/ 3)%Q with (1 # 3)%Q; change (/ 10)%Q with (1 # 10)%Q.
  all: lra.
Qed.

Lemma metadataWarnings_sublist (fileType : string) (imgWidth imgHeight : Z)
    (exif : ExifData) :
  metadataWarnings fileType imgWidth imgHeight (Some exif)
  `sublist_of` [timestampWarning; formatWarning; dimensionsWarning].
Proof.
  unfold metadataWarnings.
  destruct (ModifyDate exif) as [[modifyTime|]|],
    (CreateDate exif) as [[createTime|]|];
    try destruct (modifyTime <? createTime);
    destruct (negb (String.eqb fileType "image/jpeg") && Make exif);
    destruct (truthyNumber (ImageWidth exif)
              && truthyNumber (ImageHeight exif));
    try destruct (differsFrom (ImageWidth exif) imgWidth
                  || differsFrom (ImageHeight exif) imgHeight);
    cbn [app];
    repeat first [apply sublist_nil | apply sublist_skip | apply sublist_cons].
Qed.

(** X15.  Without EXIF data the only warning is the one about its
    absence.  With EXIF data the warnings are some of the three about the
    timestamps, the format and the dimensions, each at most once and in
    this order; a file of type image/jpeg never gets the one about the
    format, and EXIF dimensions equal to the image's never the one about
    the dimensions. *)
Theorem metadata_warnings_shape (fileType : string) (imgWidth imgHeight : Z) :
  metadataWarnings fileType imgWidth imgHeight None = [noExifWarning] /\
  forall exif,
    metadataWarnings fileType imgWidth imgHeight (Some exif)
    `sublist_of` [timestampWarning; formatWarning; dimensionsWarning] /\
    (fileType = "image/jpeg"%string ->
     formatWarning ∉ metadataWarnings fileType imgWidth imgHeight
                       (Some exif)) /\
    (ImageWidth exif = Some imgWidth -> ImageHeight exif = Some imgHeight ->
     dimensionsWarning ∉ metadataWarnings fileType imgWidth imgHeight
                           (Some exif)).
Proof.
  split; [reflexivity|]. intros exif.
  split; [apply metadataWarnings_sublist|]. split.
  - intros ->. unfold metadataWarnings. cbn [String.eqb Ascii.eqb negb andb].
    change (String.eqb "image/jpeg" "image/jpeg") with true. cbn [negb andb].
    destruct (ModifyDate exif) as [[modifyTime|]|],
      (CreateDate exif) as [[createTime|]|];
      try destruct (modifyTime <? createTime);
      destruct (truthyNumber (ImageWidth exif)
                && truthyNumber (ImageHeight exif));
      try destruct (differsFrom (ImageWidth exif) imgWidth
                    || differsFrom (ImageHeight exif) imgHeight);
      cbn [app]; intros Hin;
      repeat (apply elem_of_cons in Hin as [Hin | Hin];
              [discriminate Hin|]);
      inversion Hin.
  - intros Hw Hh. unfold metadataWarnings. rewrite Hw, Hh.
    cbn [differsFrom]. rewrite !Z.eqb_refl. cbn [negb orb].
    destruct (ModifyDate exif) as [[modifyTime|]|],
      (CreateDate exif) as [[createTime|]|];
      try destruct (modifyTime <? createTime);
      destruct (negb (String.eqb fileType "image/jpeg") && Make exif);
      destruct (truthyNumber (Some imgWidth)
                && truthyNumber (Some imgHeight));
      cbn [app]; intros Hin;
      repeat (apply elem_of_cons in Hin as [Hin | Hin];
              [discriminate Hin|]);
      inversion Hin.
Qed.

(** The metadata factor of [analyzeImage] lies between 0.63 and 1. *)
Lemma analysis_metadataFactor_range (fileType : string)
    (imgWidth imgHeight : Z) (exif : option ExifData) :
  (63 # 100
   <= metadataFactor
        (mkMetadata (bool_decide (is_Some exif))
           (metadataWarnings fileType imgWidth imgHeight exif))
   <= 1)%Q.
Proof.
  destruct exif as [exif|].
  - pose proof (metadataWarnings_sublist fileType imgWidth imgHeight exif)
      as Hsub.
    apply sublist_length in Hsub. cbn [length] in Hsub.
    destruct (metadataWarnings fileType imgWidth imgHeight (Some exif))
      as [|w1 [|w2 [|w3 [|w4 ws]]]];
      [| | | |cbn [length] in Hsub; lia];
      vm_compute; split; discriminate.
  - vm_compute. split; discriminate.
Qed.

(** The aggregate for region confidences above 0.3, a copy-move confidence
    that is 0 or above 250/255, and a metadata factor of at least 0.63. *)
Lemma overall_confidence_above (elaRegions : list (Region Q))
    (copyMoveConfidence : Q) (metadata : MetadataCues) :
  Forall (fun r => 3 # 10 < confidence r /\ confidence r <= 1)%Q
    elaRegions ->
  (copyMoveConfidence == 0 \/
   250 # 255 < copyMoveConfidence /\ copyMoveConfidence <= 1)%Q ->
  (63 # 100 <= metadataFactor metadata <= 1)%Q ->
  (93 # 2 < calculateOverallConfidence elaRegions copyMoveConfidence
              (Some metadata) <= 100)%Q.
Proof.
  intros Hela Hcm Hmf.
  unfold calculateOverallConfidence, confidenceFactors.
  destruct (0 <? Z.of_nat (length elaRegions))%Z eqn:He;
    destruct (ltb (ofZ 0) copyMoveConfidence) eqn:Hc.
  all: try (apply ltb_exact in Hc; change (ofZ 0) with 0%Q in Hc).
  all: try (assert (Hm : (3 # 10 < meanConfidence elaRegions <= 1)%Q);
            [apply Z.ltb_lt in He; split;
             [apply meanConfidence_above;
              [lia | eapply Forall_impl; [exact Hela|]; intros r Hr;
                     apply Hr]
             |apply meanConfidence_range;
              [intros r Hr; rewrite Forall_forall in Hela;
               destruct (Hela r Hr); split; lra | lia]]|]).
  all: exact_ops.
  all: try change (0 + 1 + 1 + 1)%Z with 3%Z.
  all: try change (0 + 1 + 1)%Z with 2%Z.
  all: try change (0 + 1)%Z with 1%Z.
  all: try change (0 <? 3)%Z with true; try change (0 <? 2)%Z with true;
    try change (0 <? 1)%Z with true; cbv iota.
  all: set (mf := metadataFactor metadata) in *.
  all: try set (m := meanConfidence elaRegions) in *.
  all: change (inject_Z 0) with 0%Q; change (inject_Z 100) with 100%Q.
  all: try change (inject_Z 1) with 1%Q; try change (inject_Z 2) with 2%Q;
    try change (inject_Z 3) with 3%Q.
  all: unfold Qdiv; change (/ 1)%Q with 1%Q; change (/ 2)%Q with (1 # 2)%Q;
    change (/ 3)%Q with (1 # 3)%Q.
  all: destruct Hcm as [Hcm | Hcm]; lra.
Qed.

(** The confidence that [detectCopyMove] returns is 0 or lies above
    250/255 and at most at 1. *)
Lemma detectCopyMove_confidence (imageData : ImageData) :
  exists res,
    CopyMove.detectCopyMove (num := Q) imageData = Some res /\
    (cmConfidence res == 0 \/
     250 # 255 < cmConfidence res /\ cmConfidence res <= 1)%Q.
Proof.
  destruct (detectCopyMove_invariant
              (fun r : Region Q =>
                 250 # 255 < confidence r /\ confidence r <= 1)%Q imageData)
    as (regions & Hres & Hall).
  - intros bi bj _ _ Hsim _ c. cbn [confidence].
    pose proof (similar_confidence _ _ Hsim).
    pose proof (similarity_confidence_unit (blockData bi) (blockData bj)).
    subst c. split; split; tauto.
  - eexists. split; [exact Hres|]. cbn [cmConfidence].
    destruct (0 <? Z.of_nat (length regions)) eqn:Hlen.
    + right. apply Z.ltb_lt in Hlen. split.
      * apply meanConfidence_above; [lia|].
        eapply Forall_impl; [exact Hall|]. intros r Hr. apply Hr.
      * apply meanConfidence_range; [|lia].
        intros r Hr. rewrite Forall_forall in Hall.
        destruct (Hall r Hr). split; lra.
    + left. reflexivity.
Qed.

(** X16.  [analyzeImage], once the image is decoded, drawn and read
    back and its EXIF data parsed.  When [performErrorLevelAnalysis]
    fails, because the image has width or height 0 or because the decoder
    of its line 26 rejects, the [catch] of line 126 returns the one
    warning about the error, no region and the confidence 0, which is
    shown in green.  Otherwise, in exact arithmetic, both detections
    return, the regions are those of the error level analysis followed by
    those of the copy-move detection, the warnings are those of the
    metadata checks, and the confidence lies above 46.5 and at most at
    100, so that the figure is not shown in green. *)
Theorem analysis_confidence_or_error (browser : Browser)
    (fileType : string) (imageData : ImageData)
    (exifData : option ExifData) :
  (imgWidth imageData = 0 \/ imgHeight imageData = 0 \/
   drawCompressedImage browser imageData defaultQuality = None ->
   analyzeImage (num := Q) browser fileType imageData exifData
   = mkImageAnalysis [errorWarning] [] 0%Q /\
   getConfidenceColor
     (analysisConfidence
        (analyzeImage (num := Q) browser fileType imageData exifData))
   = "text-green-500"%string) /\
  (forall compressedData,
     imgWidth imageData <> 0 -> imgHeight imageData <> 0 ->
     drawCompressedImage browser imageData defaultQuality
     = Some compressedData ->
     exists elaResults copyMoveResults,
       ELA.performErrorLevelAnalysis (num := Q) browser imageData
         defaultQuality = Some elaResults /\
       CopyMove.detectCopyMove (num := Q) imageData = Some copyMoveResults /\
       analysisRegions
         (analyzeImage (num := Q) browser fileType imageData exifData)
       = elaRegions elaResults ++ cmRegions copyMoveResults /\
       analysisWarnings
         (analyzeImage (num := Q) browser fileType imageData exifData)
       = metadataWarnings fileType (imgWidth imageData)
           (imgHeight imageData) exifData /\
       (93 # 2
        < analysisConfidence
            (analyzeImage (num := Q) browser fileType imageData exifData)
        <= 100)%Q /\
       getConfidenceColor
         (analysisConfidence
            (analyzeImage (num := Q) browser fileType imageData exifData))
       <> "text-green-500"%string).
Proof.
  split.
  - intros Hfail. unfold analyzeImage.
    rewrite (performErrorLevelAnalysis_fails (num := Q) browser imageData
               defaultQuality Hfail).
    split; reflexivity.
  - intros compressedData Hw Hh Hdraw.
    pose proof (performErrorLevelAnalysis_reads (num := Q) browser imageData
                  defaultQuality compressedData Hw Hh Hdraw) as Hreads.
    destruct (ela_regions_ok (imgWidth imageData) (imgHeight imageData)
                (putImageData browser imageData) compressedData)
      as (elaResults & Hela & Hok).
    rewrite <- Hreads in Hela.
    destruct (detectCopyMove_confidence imageData)
      as (copyMoveResults & Hcm & Hconf).
    exists elaResults, copyMoveResults.
    split; [exact Hela|]. split; [exact Hcm|].
    unfold analyzeImage.
    rewrite Hela, Hcm. cbv zeta.
    cbn [analysisRegions analysisWarnings analysisConfidence app].
    split; [reflexivity|]. split; [reflexivity|].
    assert (Hrange :
              (93 # 2
               < calculateOverallConfidence (elaRegions elaResults)
                   (cmConfidence copyMoveResults)
                   (Some (mkMetadata (bool_decide (is_Some exifData))
                            (metadataWarnings fileType (imgWidth imageData)
                               (imgHeight imageData) exifData)))
               <= 100)%Q).
    { apply overall_confidence_above.
      - eapply Forall_impl; [exact Hok|]. intros r Hr.
        unfold elaRegionOk in Hr. tauto.
      - exact Hconf.
      - apply analysis_metadataFactor_range. }
    split; [exact Hrange|].
    unfold getConfidenceColor.
    destruct (ltb _ (ofZ 30)) eqn:Hlt.
    + apply ltb_exact in Hlt. change (ofZ 30) with 30%Q in Hlt. lra.
    + destruct (ltb _ (ofZ 70)); discriminate.
Qed.

(** The 17 by 1 image with a decoder that rejects, and with a round trip
    that raises every sample by 12. *)
Lemma analysis_confidence_or_error_witness :
  (analyzeImage (num := Q) failingDecoder "image/png" narrowImage None
   = mkImageAnalysis [errorWarning] [] 0%Q /\
   getConfidenceColor
     (analysisConfidence
        (analyzeImage (num := Q) failingDecoder "image/png" narrowImage
           None))
   = "text-green-500"%string) /\
  (93 # 2
   < analysisConfidence
       (analyzeImage (num := Q) (opaqueBrowser (brighterRoundTrip 12))
          "image/png" narrowImage None)
   <= 100)%Q.
Proof.
  split.
  - apply (proj1 (analysis_confidence_or_error failingDecoder "image/png"
                    narrowImage None)).
    right. right. reflexivity.
  - destruct (proj2 (analysis_confidence_or_error
                       (opaqueBrowser (brighterRoundTrip 12)) "image/png"
                       narrowImage None)
                (brighterRoundTrip 12 narrowImage defaultQuality))
      as (elaResults & copyMoveResults & _ & _ & _ & _ & Hrange & _).
    + cbn [imgWidth narrowImage uniformImage]. lia.
    + cbn [imgHeight narrowImage uniformImage]. lia.
    + reflexivity.
    + exact Hrange.
Defined.

(** X17.  In binary64 an image of a width and a height other than 0 that
    the round trip returns unchanged, so that [compressedCanvas] holds
    what [canvas] holds, that is too small for a copy-move detection and
    whose EXIF data raises no warning gets no region, no warning and the
    confidence 100, shown in red. *)
Theorem untouched_image_scores_100 (browser : Browser)
    (fileType : string) (imageData : ImageData) (exif : ExifData) :
  imgWidth imageData <> 0 -> imgHeight imageData <> 0 ->
  drawCompressedImage browser imageData defaultQuality
  = Some (putImageData browser imageData) ->
  (imgWidth imageData <= 96 /\ imgHeight imageData <= 96) \/
  (imgWidth imageData <= 128 /\ imgHeight imageData <= 64) \/
  (imgWidth imageData <= 64 /\ imgHeight imageData <= 128) ->
  metadataWarnings fileType (imgWidth imageData) (imgHeight imageData)
    (Some exif) = [] ->
  analyzeImage (arith := binary64) browser fileType imageData (Some exif)
  = mkImageAnalysis [] [] 100%float /\
  getConfidenceColor (arith := binary64)
    (analysisConfidence
       (analyzeImage (arith := binary64) browser fileType imageData
          (Some exif)))
  = "text-red-500"%string.
Proof.
  intros Hw Hh Hsame Hsmall Hwarn.
  destruct (identical_canvases_cells (arith := binary64)
              (fun v => v = 0%float) (imgWidth imageData)
              (imgHeight imageData) (putImageData browser imageData) eq_refl
              normalizedDiff_zero_binary64)
    as (elaResults & Hela & Hregions & _).
  rewrite <- (performErrorLevelAnalysis_reads (arith := binary64) browser
                imageData defaultQuality (putImageData browser imageData)
                Hw Hh Hsame) in Hela.
  assert (Hcm : CopyMove.detectCopyMove (arith := binary64) imageData
                = Some (mkCopyMoveResult [] (float_ofZ 0))).
  { apply (detectCopyMove_no_far_pair (arith := binary64)). intros bi bj.
    apply small_image_blocks_close. exact Hsmall. }
  assert (Hresult :
            analyzeImage (arith := binary64) browser fileType imageData
              (Some exif)
            = mkImageAnalysis [] [] 100%float).
  { unfold analyzeImage.
    rewrite Hela, Hcm, Hwarn, Hregions. reflexivity. }
  rewrite Hresult. split; reflexivity.
Qed.

Lemma untouched_image_scores_100_witness :
  analyzeImage (arith := binary64) (opaqueBrowser identityRoundTrip)
    "image/png" narrowImage (Some (mkExifData None None false None None))
  = mkImageAnalysis [] [] 100%float /\
  getConfidenceColor (arith := binary64)
    (analysisConfidence
       (analyzeImage (arith := binary64) (opaqueBrowser identityRoundTrip)
          "image/png" narrowImage
          (Some (mkExifData None None false None None))))
  = "text-red-500"%string.
Proof.
  apply (untouched_image_scores_100 (opaqueBrowser identityRoundTrip)
           "image/png" narrowImage (mkExifData None None false None None)).
  - cbn [imgWidth narrowImage uniformImage]. lia.
  - cbn [imgHeight narrowImage uniformImage]. lia.
  - reflexivity.
  - left. cbn [imgWidth imgHeight narrowImage uniformImage]. lia.
  - reflexivity.
Defined.
End Pipeline.
